(** * DQN training system for the critical point capture game

    A shallow embedding of [dqn_training.py] and of the reward code of
    [game_bridge.py], with the properties of the learning engine stated
    and proved over it.

    Conventions of the embedding.
    - Python [float] values are exact rationals ([Q]); rounding, infinities
      and NaN are outside that model.  The reward computation, whose range
      depends on them, is modelled a second time over IEEE 754 binary64
      (module [Binary64]).  Python [int] values are [Z]; sizes and counts
      that the code only ever uses as sizes are [nat].
    - A Python exception is a [Raise] result.  A method that mutates its
      object before raising returns the mutated object next to the outcome.
    - A dictionary read with [d.get(k, default)] is an [option] field (or a
      [gmap] lookup) followed by the default.
    - The random sources (Python's [random], TensorFlow's initialisers)
      are explicit states threaded through the calls that consume them. *)

From Stdlib Require Import QArith Qminmax Qabs Lqa.
From Stdlib Require SpecFloat.
From stdpp Require Import gmap strings list fin_maps pretty.

Set Warnings "-register-all,-abstract-large-number".

Open Scope Q_scope.

(** ** Python values and exceptions *)

Inductive PyError : Type :=
| IndexError
| KeyError
| ValueError
| ZeroDivisionError
| TypeError
| InvalidArgumentError
| NotFoundError
| OverflowError
| OSError.

Inductive result (A : Type) : Type :=
| Ok (a : A)
| Raise (e : PyError).
Arguments Ok {A} a.
Arguments Raise {A} e.

#[global] Instance result_ret : MRet result := fun A a => Ok a.
#[global] Instance result_bind : MBind result := fun A B k r =>
  match r with
  | Ok a => k a
  | Raise e => Raise e
  end.

Definition is_ok {A : Type} (r : result A) : Prop :=
  match r with Ok _ => True | Raise _ => False end.

(** [a / b] on Python numbers: division by zero raises. *)
Definition py_div (a b : Q) : result Q :=
  if Qeq_bool b 0 then Raise ZeroDivisionError else Ok (a / b).
Arguments py_div : simpl never.

(** [max(a, b)]: the first argument unless the second is strictly larger. *)
Definition py_max (a b : Q) : Q := if Qle_bool b a then a else b.

(** [min(a, b)] on integers. *)
Definition py_min_int (a b : Z) : Z := if (b <? a)%Z then b else a.

(** [np.clip(x, lo, hi)] is [minimum(maximum(x, lo), hi)]. *)
Definition np_clip (x lo hi : Q) : Q := Qmin (Qmax x lo) hi.

(** [l[i] = x] on a Python list: a negative index counts from the end,
    an index outside [-len, len) raises [IndexError]. *)
Definition py_setitem {A : Type} (l : list A) (i : Z) (x : A) : result (list A) :=
  let n := Z.of_nat (length l) in
  if ((0 <=? i) && (i <? n))%Z then Ok (<[Z.to_nat i := x]> l)
  else if ((- n <=? i) && (i <? 0))%Z then Ok (<[Z.to_nat (i + n) := x]> l)
  else Raise IndexError.

(** A loop whose body may raise: the first exception ends it. *)
Fixpoint mapM {A B : Type} (f : A -> result B) (l : list A) : result (list B) :=
  match l with
  | [] => Ok []
  | a :: l' => b ← f a; bs ← mapM f l'; Ok (b :: bs)
  end.

(** ** Observations *)

Definition Vec3 : Type := (Q * Q * Q)%type.

Record CriticalPoint : Type := {
  position : Vec3;
  color : option Z;
  available : bool
}.

(** The observation dictionary.  The keys read with [state[...]] are plain
    fields, the keys read with [state.get(..., default)] are optional. *)
Record GameState : Type := {
  agent_position : Vec3;
  critical_points : list CriticalPoint;
  agent_owned_points : option (gmap string Z);
  time_remaining : option Q;
  navigation_grid : option (list Q);
  nearest_unclaimed_distance : option Q;
  nearest_enemy_distance : option Q;
  map_size : option Q
}.

(** ** GameStateProcessor *)

Module GameStateProcessor.

Record t : Type := {
  max_cps : nat;
  grid_size : nat;
  cp_feature_dim : nat
}.

Definition init (max_critical_points grid_size : nat) : t :=
  {| max_cps := max_critical_points; grid_size := grid_size; cp_feature_dim := 7 |}.

Definition compute_state_dim (self : t) : nat :=
  let agent_pos := 3%nat in
  let cp_features := (max_cps self * cp_feature_dim self)%nat in
  let nav_grid := (grid_size self * grid_size self)%nat in
  let time_remaining := 1%nat in
  let distances := 2%nat in
  (agent_pos + cp_features + nav_grid + time_remaining + distances)%nat.

(** [(p[0] + map_size/2) / map_size, p[1] / 5, (p[2] + map_size/2) / map_size] *)
Definition normalize (p : Vec3) (map_size : Q) : result (list Q) :=
  let '(x, y, z) := p in
  half ← py_div map_size 2;
  nx ← py_div (x + half) map_size;
  ny ← py_div y 5;
  half' ← py_div map_size 2;
  nz ← py_div (z + half') map_size;
  Ok [nx; ny; nz].

Definition color_onehot (c : option Z) : result (list Q) :=
  let zeros := [0; 0; 0; 0] in
  match c with
  | Some c => py_setitem zeros (py_min_int (c + 1) 3) 1
  | None => py_setitem zeros 0%Z 1
  end.

(** The colour indices that the one-hot assignment accepts: [min(c + 1, 3)]
    is a valid index of a four-element list from [-5] upwards. *)
Definition color_accepted (c : option Z) : Prop :=
  match c with Some c => (-5 <= c)%Z | None => True end.

(** The body of [for i in range(self.max_cps)]. *)
Definition cp_row (self : t) (cps : list CriticalPoint) (map_size : Q) (i : nat)
  : result (list Q) :=
  match cps !! i with
  | Some cp =>
      cp_pos ← normalize (position cp) map_size;
      onehot ← color_onehot (color cp);
      let avail := if available cp then 1 else 0 in
      Ok (cp_pos ++ onehot ++ [avail])
  | None => Ok (replicate (cp_feature_dim self) 0)
  end.

Definition process_state (self : t) (game_state : GameState) : result (list Q) :=
  let agent_pos := agent_position game_state in
  let map_size := default 10 (map_size game_state) in
  normalized_pos ← normalize agent_pos map_size;
  rows ← mapM (cp_row self (critical_points game_state) map_size)
              (seq 0 (max_cps self));
  let cp_features := concat rows in
  let nav_grid := default (replicate (grid_size self * grid_size self) 0)
                          (navigation_grid game_state) in
  let time_remaining := default 1 (time_remaining game_state) in
  let nearest_unclaimed := default 1 (nearest_unclaimed_distance game_state) in
  let nearest_enemy := default 1 (nearest_enemy_distance game_state) in
  Ok (normalized_pos ++ cp_features ++ nav_grid
        ++ [time_remaining] ++ [nearest_unclaimed; nearest_enemy]).

(** What [process_state] needs in order to return: a nonzero map size and
    accepted colour indices on the points it encodes (the first [max_cps]). *)
Definition observation_accepted (self : t) (game_state : GameState) : Prop :=
  ~ default 10 (map_size game_state) == 0 /\
  Forall (fun cp => color_accepted (color cp))
         (take (max_cps self) (critical_points game_state)).

(** The navigation grid that [process_state] appends. *)
Definition nav_grid_of (self : t) (game_state : GameState) : list Q :=
  default (replicate (grid_size self * grid_size self) 0)
          (navigation_grid game_state).

(** The length of the vector that [process_state] builds: an encoded point
    takes eight entries (three coordinates, four colour slots, one
    availability flag), a padded slot takes [cp_feature_dim]. *)
Definition encoded_length (self : t) (game_state : GameState) : nat :=
  (3 + max_cps self * 7
     + Nat.min (length (critical_points game_state)) (max_cps self)
     + length (nav_grid_of self game_state) + 1 + 2)%nat.

End GameStateProcessor.

(** The observation that [send_command_to_game] hands back. *)
Definition mock_state : GameState := {|
  agent_position := (0, 1, 0);
  critical_points :=
    [ {| position := (1, 1, 1); color := None; available := true |};
      {| position := (-1, 1, -1); color := Some 1%Z; available := false |} ];
  agent_owned_points := Some (<["0" := 0%Z]> (<["1" := 1%Z]> (<["2" := 0%Z]> ∅)));
  time_remaining := Some (8 # 10);
  navigation_grid := Some (replicate (15 * 15) 0);
  nearest_unclaimed_distance := Some (5 # 10);
  nearest_enemy_distance := Some (7 # 10);
  map_size := Some 10
|}.

(** The observation [game_state] with [grid] under the key
    ['navigation_grid']. *)
Definition with_navigation_grid (grid : list Q) (game_state : GameState)
  : GameState := {|
  agent_position := agent_position game_state;
  critical_points := critical_points game_state;
  agent_owned_points := agent_owned_points game_state;
  time_remaining := time_remaining game_state;
  navigation_grid := Some grid;
  nearest_unclaimed_distance := nearest_unclaimed_distance game_state;
  nearest_enemy_distance := nearest_enemy_distance game_state;
  map_size := map_size game_state
|}.

(** The observation of [GameBridge.get_empty_state]. *)
Definition empty_state : GameState := {|
  agent_position := (0, 1, 0);
  critical_points := [];
  agent_owned_points := Some (<["0" := 0%Z]> (<["1" := 0%Z]> (<["2" := 0%Z]> ∅)));
  time_remaining := Some 1;
  navigation_grid := Some (replicate (15 * 15) 0);
  nearest_unclaimed_distance := Some 1;
  nearest_enemy_distance := Some 1;
  map_size := Some 10
|}.

(** ** Python's [random] module

    The generator is a stream of raw draws with a cursor; every call that
    consumes randomness advances the cursor. *)

Module Random.

Record state : Type := {
  draws : nat -> N;
  pos : nat
}.

Definition next (r : state) : N * state :=
  (draws r (pos r), {| draws := draws r; pos := S (pos r) |}).

(** A uniform integer in [[0, n)]. *)
Definition randbelow (n : nat) (r : state) : nat * state :=
  let (x, r') := next r in (N.to_nat (x mod N.of_nat n), r').

(** [random.random()]: a float in [[0, 1)] with 53 random bits. *)
Definition random (r : state) : Q * state :=
  let (x, r') := next r in (Z.of_N (x mod 2 ^ 53) # 2 ^ 53, r').

(** [random.randint(a, b)]: an integer in [[a, b]]; an empty range raises. *)
Definition randint (a b : Z) (r : state) : result (Z * state) :=
  if (b <? a)%Z then Raise ValueError
  else let (j, r') := randbelow (Z.to_nat (b - a + 1)) r in
       Ok ((a + Z.of_nat j)%Z, r').

(** The selection loop of [random.sample] over a pool of positions:
    [j = randbelow(n - i); result[i] = pool[j]; pool[j] = pool[n - i - 1]],
    with [m] standing for [n - i].  (CPython runs this loop on populations
    that are small against [k]; on larger ones it draws [randbelow(n)]
    again and again until the position is a new one, which selects
    distinct positions in the order of the draws as well.) *)
Fixpoint sample_loop (pool : list nat) (m k : nat) (r : state) : list nat * state :=
  match k with
  | O => ([], r)
  | S k' =>
      let (j, r1) := randbelow m r in
      let x := nth j pool O in
      let pool' := <[j := nth (m - 1) pool O]> pool in
      let (rest, r2) := sample_loop pool' (m - 1) k' r1 in
      (x :: rest, r2)
  end.

(** The positions that [random.sample] picks in a population of [n]. *)
Definition sample_indices (n k : nat) (r : state) : list nat * state :=
  sample_loop (seq 0 n) n k r.

(** The values that the [k] calls [randbelow(m)], [randbelow(m - 1)], ...
    of the selection loop return, from the state [r] on. *)
Fixpoint randbelow_values (m k : nat) (r : state) : list nat :=
  match k with
  | O => []
  | S k' =>
      let (j, r1) := randbelow m r in
      j :: randbelow_values (m - 1) k' r1
  end.

(** Lists of values that those calls can return: the first is below [m],
    the next below [m - 1], and so on. *)
Fixpoint below (m : nat) (js : list nat) : Prop :=
  match js with
  | [] => True
  | j :: js' => (j < m)%nat /\ below (m - 1) js'
  end.

(** [random.sample(population, k)]: [k] larger than the population raises. *)
Definition sample {A : Type} (population : list A) (k : nat) (r : state)
  : result (list A * state) :=
  let n := length population in
  if (n <? k)%nat then Raise ValueError
  else let (idxs, r') := sample_indices n k r in
       Ok (omap (fun i => population !! i) idxs, r').

End Random.

(** ** ReplayBuffer *)

Record Transition : Type := {
  t_state : list Q;
  t_action : Z;
  t_reward : Q;
  t_next_state : list Q;
  t_done : bool
}.

(** The five tensors that [sample] returns. *)
Record Batch : Type := {
  b_states : list (list Q);
  b_actions : list Z;
  b_rewards : list Q;
  b_next_states : list (list Q);
  b_dones : list bool
}.

(** [tf.constant] on a sequence of rows: the rows must all have the same
    length, a ragged sequence raises. *)
Definition rectangular (rows : list (list Q)) : bool :=
  match rows with
  | [] => true
  | r :: rows' => forallb (fun r' => (length r' =? length r)%nat) rows'
  end.

Definition tf_constant_rows (rows : list (list Q)) : result (list (list Q)) :=
  if rectangular rows then Ok rows else Raise ValueError.

Module ReplayBuffer.

(** A [collections.deque] with [maxlen = capacity]. *)
Record t : Type := {
  buffer : list Transition;
  capacity : nat
}.

Definition init (capacity : nat) : t := {| buffer := []; capacity := capacity |}.

(** [deque.append] on a bounded deque: once full, the oldest entry leaves. *)
Definition push (self : t) (x : Transition) : t :=
  let b := buffer self ++ [x] in
  {| buffer := if (capacity self <? length b)%nat then drop 1 b else b;
     capacity := capacity self |}.

Definition len (self : t) : nat := length (buffer self).

(** The batch transposed by [zip] and unpacked into five names: an empty
    batch yields nothing to unpack and raises. *)
Definition unzip5 (batch : list Transition)
  : result (list (list Q) * list Z * list Q * list (list Q) * list bool) :=
  match batch with
  | [] => Raise ValueError
  | _ => Ok (map t_state batch, map t_action batch, map t_reward batch,
             map t_next_state batch, map t_done batch)
  end.

Definition sample (self : t) (batch_size : nat) (rng : Random.state)
  : result (Batch * Random.state) :=
  '(batch, rng') ← Random.sample (buffer self) batch_size rng;
  '(states, actions, rewards, next_states, dones) ← unzip5 batch;
  states' ← tf_constant_rows states;
  next_states' ← tf_constant_rows next_states;
  Ok ({| b_states := states'; b_actions := actions; b_rewards := rewards;
         b_next_states := next_states'; b_dones := dones |}, rng').

(** The stored transitions whose state rows can be stacked into a tensor. *)
Definition stackable (self : t) : Prop :=
  (forall x y, x ∈ buffer self -> y ∈ buffer self ->
     length (t_state x) = length (t_state y)) /\
  (forall x y, x ∈ buffer self -> y ∈ buffer self ->
     length (t_next_state x) = length (t_next_state y)).

End ReplayBuffer.

(** ** TensorFlow

    The numerical kernels that the model does not compute are the fields
    of a class: the square root, the gradient that the tape returns, and
    the Adam update.  Everything else is computed. *)

Inductive ndarray : Type :=
| Arr1 (v : list Q)
| Arr2 (m : list (list Q)).

Class Kernels : Type := {
  (** the square root ([x ** 0.5] in Python, [sqrt] in TensorFlow) *)
  sqrt : Q -> Q;
  (** the state of [tf.keras.optimizers.Adam] *)
  optimizer_state : Type;
  adam : Q -> optimizer_state;
  (** [tape.gradient(loss, variables)]: the variables, the random state
      under which the forward pass ran, the sampled states and actions and
      the target values determine the gradients. *)
  tape_gradient :
    list ndarray -> Random.state -> list (list Q) -> list Z -> list Q -> list ndarray;
  (** [optimizer.apply_gradients]: the new optimizer state and the new
      values of the variables. *)
  apply_gradients :
    optimizer_state -> list ndarray -> list ndarray -> optimizer_state * list ndarray
}.

Definition shape (a : ndarray) : list nat :=
  match a with
  | Arr1 v => [length v]
  | Arr2 m => length m :: map length m
  end.

(** Two arrays of one shape. *)
Definition same_shape (a b : ndarray) : Prop :=
  match a, b with
  | Arr1 v, Arr1 v' => length v = length v'
  | Arr2 m, Arr2 m' => map length m = map length m'
  | _, _ => False
  end.

(** What TensorFlow guarantees of the kernels: a gradient has the shape of
    its variable, and the optimizer gives every variable a new value of
    its own shape. *)
Definition lawful (K : Kernels) : Prop :=
  (forall variables tape states actions targets,
     Forall2 same_shape
       (tape_gradient variables tape states actions targets) variables) /\
  (forall opt gradients variables,
     Forall2 same_shape gradients variables ->
     Forall2 same_shape (snd (apply_gradients opt gradients variables)) variables).

Definition sum_list (l : list Q) : Q := fold_right Qplus 0 l.

Definition flatten (a : ndarray) : list Q :=
  match a with
  | Arr1 v => v
  | Arr2 m => concat m
  end.

Definition map_array (f : Q -> Q) (a : ndarray) : ndarray :=
  match a with
  | Arr1 v => Arr1 (map f v)
  | Arr2 m => Arr2 (map (map f) m)
  end.

(** [tf.clip_by_norm(g, clip)]: [g * clip / max(l2norm(g), clip)]. *)
Definition clip_by_norm `{Kernels} (g : ndarray) (clip : Q) : ndarray :=
  let l2norm := sqrt (sum_list (map (fun x => x * x) (flatten g))) in
  map_array (fun x => x * clip / Qmax l2norm clip) g.

(** A uniform float in [[lo, hi)] from the next raw draw. *)
Definition random_uniform (lo hi : Q) (tf : Random.state) : Q * Random.state :=
  let (u, tf') := Random.random tf in (lo + u * (hi - lo), tf').

Fixpoint uniform_row (n : nat) (lo hi : Q) (tf : Random.state)
  : list Q * Random.state :=
  match n with
  | O => ([], tf)
  | S n' =>
      let (x, tf1) := random_uniform lo hi tf in
      let (xs, tf2) := uniform_row n' lo hi tf1 in
      (x :: xs, tf2)
  end.

Fixpoint uniform_matrix (rows cols : nat) (lo hi : Q) (tf : Random.state)
  : list (list Q) * Random.state :=
  match rows with
  | O => ([], tf)
  | S rows' =>
      let (r, tf1) := uniform_row cols lo hi tf in
      let (rs, tf2) := uniform_matrix rows' cols lo hi tf1 in
      (r :: rs, tf2)
  end.

(** The [glorot_uniform] initialiser: uniform in [[-limit, limit)] with
    [limit = sqrt(6 / (fan_in + fan_out))]. *)
Definition glorot_uniform `{Kernels} (fan_in fan_out : nat) (tf : Random.state)
  : list (list Q) * Random.state :=
  let limit := sqrt (6 / inject_Z (Z.of_nat (fan_in + fan_out))) in
  uniform_matrix fan_in fan_out (- limit) limit tf.

(** Dropout in a training-mode pass: an entry is kept when its uniform
    draw is at least [rate], and kept entries are scaled by
    [1 / (1 - rate)]. *)
Definition dropout_entry (rate : Q) (x : Q) (tf : Random.state) : Q * Random.state :=
  let (u, tf') := Random.random tf in
  (if Qle_bool rate u then x / (1 - rate) else 0, tf').

Fixpoint dropout_row (rate : Q) (xs : list Q) (tf : Random.state)
  : list Q * Random.state :=
  match xs with
  | [] => ([], tf)
  | x :: xs' =>
      let (y, tf1) := dropout_entry rate x tf in
      let (ys, tf2) := dropout_row rate xs' tf1 in
      (y :: ys, tf2)
  end.

Fixpoint dropout_rows (rate : Q) (rows : list (list Q)) (tf : Random.state)
  : list (list Q) * Random.state :=
  match rows with
  | [] => ([], tf)
  | r :: rows' =>
      let (y, tf1) := dropout_row rate r tf in
      let (ys, tf2) := dropout_rows rate rows' tf1 in
      (y :: ys, tf2)
  end.

(** [tf.argmax] along a row: the lowest index of the largest entry; an
    empty row raises. *)
Fixpoint argmax_from (best : Q) (best_i i : nat) (xs : list Q) : nat :=
  match xs with
  | [] => best_i
  | x :: xs' =>
      if Qle_bool x best then argmax_from best best_i (S i) xs'
      else argmax_from x i (S i) xs'
  end.

Definition argmax (row : list Q) : result nat :=
  match row with
  | [] => Raise InvalidArgumentError
  | x :: xs => Ok (argmax_from x 0%nat 1%nat xs)
  end.

(** [tf.reduce_max] along a row.  The rows it is applied to have one entry
    per action; the value on an empty row stands for the identity of
    [max], which the rationals do not have. *)
Definition reduce_max (row : list Q) : Q :=
  match row with
  | [] => 0
  | x :: xs => fold_left Qmax xs x
  end.

(** [tf.gather_nd(q, stack([range, actions], axis=1))] picks entry
    [actions[i]] of row [i]; an index outside the row raises. *)
Definition gather_action (row : list Q) (action : Z) : result Q :=
  if (action <? 0)%Z then Raise InvalidArgumentError
  else match row !! Z.to_nat action with
       | Some q => Ok q
       | None => Raise InvalidArgumentError
       end.

Fixpoint gather_nd (rows : list (list Q)) (actions : list Z) : result (list Q) :=
  match rows, actions with
  | row :: rows', a :: actions' =>
      q ← gather_action row a; qs ← gather_nd rows' actions'; Ok (q :: qs)
  | _, _ => Ok []
  end.

(** [tf.keras.losses.huber(y_true, y_pred)] with [delta = 1]: quadratic
    for an error of at most one, linear beyond, averaged over the batch. *)
Definition huber_entry (y_true y_pred : Q) : Q :=
  let error := y_pred - y_true in
  let abs_error := Qabs error in
  if Qle_bool abs_error 1 then (1 # 2) * (error * error)
  else 1 * abs_error - (1 # 2) * (1 * 1).

Definition huber (y_true y_pred : list Q) : Q :=
  sum_list (zip_with huber_entry y_true y_pred)
  / inject_Z (Z.of_nat (length y_pred)).

(** ** DQNNetwork *)

Module DQNNetwork.

(** A [Dense] layer holds no variables until its first call: its kernel
    has one row per input feature, and [__init__] gives the layers their
    widths only ([state_dim] is not handed to any layer). *)
Inductive Layer : Type :=
| Dense (units : nat) (relu : bool) (vars : option (list (list Q) * list Q))
| Dropout (rate : Q).

Record t : Type := {
  layers_list : list Layer
}.

Definition init (state_dim action_dim : nat) (hidden_dims : list nat) : t :=
  {| layers_list :=
       flat_map (fun hidden_dim => [Dense hidden_dim true None; Dropout (2 # 10)])
                hidden_dims
       ++ [Dense action_dim false None] |}.

Definition layer_weights (l : Layer) : list ndarray :=
  match l with
  | Dense _ _ (Some (kernel, bias)) => [Arr2 kernel; Arr1 bias]
  | _ => []
  end.

(** [get_weights]: the arrays of the variables that exist, in layer order. *)
Definition get_weights (self : t) : list ndarray :=
  flat_map layer_weights (layers_list self).

(** [set_weights]: the list must provide one array of the right shape for
    each existing variable, and nothing else; otherwise nothing is
    assigned and the call raises. *)
Fixpoint assign (layers : list Layer) (weights : list ndarray) : result (list Layer) :=
  match layers with
  | [] =>
      match weights with
      | [] => Ok []
      | _ => Raise ValueError
      end
  | Dense units relu (Some (kernel, bias)) :: layers' =>
      match weights with
      | Arr2 kernel' :: Arr1 bias' :: weights' =>
          if bool_decide (shape (Arr2 kernel') = shape (Arr2 kernel)
                          /\ shape (Arr1 bias') = shape (Arr1 bias))
          then rest ← assign layers' weights';
               Ok (Dense units relu (Some (kernel', bias')) :: rest)
          else Raise ValueError
      | _ => Raise ValueError
      end
  | layer :: layers' =>
      rest ← assign layers' weights; Ok (layer :: rest)
  end.

Definition set_weights (self : t) (weights : list ndarray) : result t :=
  layers ← assign (layers_list self) weights;
  Ok {| layers_list := layers |}.

(** Restoring a checkpoint: an existing variable takes the stored array
    of its shape; a variable that does not exist yet takes the stored
    array as the value it is created with (Keras creates it at the first
    call of the layer, the model at once). *)
Fixpoint restore_layers (layers : list Layer) (weights : list ndarray)
  : result (list Layer) :=
  match layers with
  | [] =>
      match weights with
      | [] => Ok []
      | _ => Raise ValueError
      end
  | Dense units relu vars :: layers' =>
      match weights with
      | Arr2 kernel' :: Arr1 bias' :: weights' =>
          if match vars with
             | Some (kernel, bias) =>
                 bool_decide (shape (Arr2 kernel') = shape (Arr2 kernel)
                              /\ shape (Arr1 bias') = shape (Arr1 bias))
             | None => true
             end
          then rest ← restore_layers layers' weights';
               Ok (Dense units relu (Some (kernel', bias')) :: rest)
          else Raise ValueError
      | _ => Raise ValueError
      end
  | layer :: layers' =>
      rest ← restore_layers layers' weights; Ok (layer :: rest)
  end.

Definition restore (self : t) (weights : list ndarray) : result t :=
  match weights with
  | [] => Ok self
  | _ => layers ← restore_layers (layers_list self) weights;
         Ok {| layers_list := layers |}
  end.

Definition relu_fn (x : Q) : Q := Qmax x 0.

(** One input row through a dense layer: [activation(x . kernel + bias)];
    the row must have as many entries as the kernel has rows. *)
Definition dense_row (kernel : list (list Q)) (bias : list Q) (relu : bool)
  (x : list Q) : result (list Q) :=
  if (length x =? length kernel)%nat then
    let y := fold_right
               (fun '(xi, row) acc => zip_with Qplus (map (Qmult xi) row) acc)
               bias (zip x kernel) in
    Ok (if relu then map relu_fn y else y)
  else Raise InvalidArgumentError.

(** The variables of a dense layer at a call: the existing ones, or new
    ones created for the width of the input. *)
Definition dense_vars `{Kernels} (units : nat) (vars : option (list (list Q) * list Q))
  (xs : list (list Q)) (tf : Random.state)
  : list (list Q) * list Q * Random.state :=
  match vars with
  | Some (kernel, bias) => (kernel, bias, tf)
  | None =>
      let (kernel, tf') := glorot_uniform (length (hd [] xs)) units tf in
      (kernel, replicate units 0, tf')
  end.

(** [call(x, training)]: the layers in order, dropout only in training
    mode.  A pass that raises leaves the network as it was. *)
Fixpoint call_layers `{Kernels} (layers : list Layer) (xs : list (list Q))
  (training : bool) (tf : Random.state)
  : result (list (list Q) * list Layer * Random.state) :=
  match layers with
  | [] => Ok (xs, [], tf)
  | Dense units relu vars :: layers' =>
      let '(kernel, bias, tf1) := dense_vars units vars xs tf in
      ys ← mapM (dense_row kernel bias relu) xs;
      '(zs, rest, tf2) ← call_layers layers' ys training tf1;
      Ok (zs, Dense units relu (Some (kernel, bias)) :: rest, tf2)
  | Dropout rate :: layers' =>
      let (ys, tf1) := if training then dropout_rows rate xs tf else (xs, tf) in
      '(zs, rest, tf2) ← call_layers layers' ys training tf1;
      Ok (zs, Dropout rate :: rest, tf2)
  end.

Definition call `{Kernels} (self : t) (xs : list (list Q)) (training : bool)
  (tf : Random.state) : result (list (list Q) * t * Random.state) :=
  '(ys, layers, tf') ← call_layers (layers_list self) xs training tf;
  Ok (ys, {| layers_list := layers |}, tf').

(** The network has created its variables. *)
Definition built_layer (l : Layer) : Prop :=
  match l with Dense _ _ None => False | _ => True end.

Definition built (self : t) : Prop := Forall built_layer (layers_list self).

(** The architecture of a network: its layers without their variables. *)
Definition erase (l : Layer) : Layer :=
  match l with
  | Dense units relu _ => Dense units relu None
  | Dropout rate => Dropout rate
  end.

Definition architecture (self : t) : list Layer := map erase (layers_list self).

(** The layers fit inputs of width [n]: the kernel of every dense layer
    that has variables has one row per input feature and one column per
    unit, and its bias has one entry per unit. *)
Fixpoint fits (n : nat) (layers : list Layer) : Prop :=
  match layers with
  | [] => True
  | Dense units _ vars :: layers' =>
      match vars with
      | Some (kernel, bias) =>
          length kernel = n /\ Forall (fun row => length row = units) kernel
          /\ length bias = units
      | None => True
      end /\ fits units layers'
  | Dropout _ :: layers' => fits n layers'
  end.

(** The number of raw draws that the first call on inputs of width [n]
    takes from the initialiser: one for each kernel entry of each dense
    layer that has no variables yet. *)
Fixpoint initial_draws (n : nat) (layers : list Layer) : nat :=
  match layers with
  | [] => O
  | Dense units _ None :: layers' => (n * units + initial_draws units layers')%nat
  | Dense units _ (Some _) :: layers' => initial_draws units layers'
  | Dropout _ :: layers' => initial_draws n layers'
  end.

(** The number of dense layers. *)
Fixpoint dense_count (layers : list Layer) : nat :=
  match layers with
  | [] => O
  | Dense _ _ _ :: layers' => S (dense_count layers')
  | Dropout _ :: layers' => dense_count layers'
  end.

(** The width of the rows that come out for inputs of width [n]. *)
Fixpoint output_width (n : nat) (layers : list Layer) : nat :=
  match layers with
  | [] => n
  | Dense units _ _ :: layers' => output_width units layers'
  | Dropout _ :: layers' => output_width n layers'
  end.

End DQNNetwork.

(** ** Files

    A weights file holds the arrays that [save_weights] wrote; a JSON file
    holds the document that [json.dump] wrote. *)

Inductive json : Type :=
| JFloat (q : Q)
| JInt (z : Z)
| JList (l : list json)
| JObject (fields : list (string * json)).

Inductive File : Type :=
| WeightsFile (weights : list ndarray)
| JsonFile (doc : json).

(** [d[key]] on the dictionary that [json.load] builds from an object (a
    repeated key keeps its last value); a missing key raises. *)
Fixpoint json_get (key : string) (fields : list (string * json)) : option json :=
  match fields with
  | [] => None
  | (k, v) :: rest =>
      match json_get key rest with
      | Some v' => Some v'
      | None => if String.eqb key k then Some v else None
      end
  end.

Definition json_item (doc : json) (key : string) : result json :=
  match doc with
  | JObject fields =>
      match json_get key fields with
      | Some v => Ok v
      | None => Raise KeyError
      end
  | _ => Raise TypeError
  end.

(** The typed record has a numeric field where Python would store any
    value: a value of another JSON type raises here. *)
Definition as_float (v : json) : result Q :=
  match v with
  | JFloat q => Ok q
  | JInt z => Ok (inject_Z z)
  | _ => Raise TypeError
  end.

Definition as_int (v : json) : result Z :=
  match v with
  | JInt z => Ok z
  | _ => Raise TypeError
  end.

Definition as_float_list (v : json) : result (list Q) :=
  match v with
  | JList l => mapM as_float l
  | _ => Raise TypeError
  end.

(** ** DQNAgent *)

Module DQNAgent.

Section WithKernels.

Context `{Kernels}.

Record t : Type := {
  state_dim : nat;
  action_dim : nat;
  epsilon : Q;
  epsilon_end : Q;
  epsilon_decay : Q;
  gamma : Q;
  batch_size : nat;
  target_update_freq : Z;
  q_network : DQNNetwork.t;
  target_network : DQNNetwork.t;
  optimizer : optimizer_state;
  memory : ReplayBuffer.t;
  step_count : Z;
  loss_history : list Q;
  (** ghost: the number of calls of [update_target_network] so far *)
  sync_calls : nat
}.

Definition set_epsilon (e : Q) (a : t) : t :=
  {| state_dim := state_dim a; action_dim := action_dim a; epsilon := e;
     epsilon_end := epsilon_end a; epsilon_decay := epsilon_decay a;
     gamma := gamma a; batch_size := batch_size a;
     target_update_freq := target_update_freq a; q_network := q_network a;
     target_network := target_network a; optimizer := optimizer a;
     memory := memory a; step_count := step_count a;
     loss_history := loss_history a; sync_calls := sync_calls a |}.

Definition set_q_network (n : DQNNetwork.t) (a : t) : t :=
  {| state_dim := state_dim a; action_dim := action_dim a; epsilon := epsilon a;
     epsilon_end := epsilon_end a; epsilon_decay := epsilon_decay a;
     gamma := gamma a; batch_size := batch_size a;
     target_update_freq := target_update_freq a; q_network := n;
     target_network := target_network a; optimizer := optimizer a;
     memory := memory a; step_count := step_count a;
     loss_history := loss_history a; sync_calls := sync_calls a |}.

Definition set_target_network (n : DQNNetwork.t) (a : t) : t :=
  {| state_dim := state_dim a; action_dim := action_dim a; epsilon := epsilon a;
     epsilon_end := epsilon_end a; epsilon_decay := epsilon_decay a;
     gamma := gamma a; batch_size := batch_size a;
     target_update_freq := target_update_freq a; q_network := q_network a;
     target_network := n; optimizer := optimizer a;
     memory := memory a; step_count := step_count a;
     loss_history := loss_history a; sync_calls := sync_calls a |}.

Definition set_optimizer (o : optimizer_state) (a : t) : t :=
  {| state_dim := state_dim a; action_dim := action_dim a; epsilon := epsilon a;
     epsilon_end := epsilon_end a; epsilon_decay := epsilon_decay a;
     gamma := gamma a; batch_size := batch_size a;
     target_update_freq := target_update_freq a; q_network := q_network a;
     target_network := target_network a; optimizer := o;
     memory := memory a; step_count := step_count a;
     loss_history := loss_history a; sync_calls := sync_calls a |}.

Definition set_memory (m : ReplayBuffer.t) (a : t) : t :=
  {| state_dim := state_dim a; action_dim := action_dim a; epsilon := epsilon a;
     epsilon_end := epsilon_end a; epsilon_decay := epsilon_decay a;
     gamma := gamma a; batch_size := batch_size a;
     target_update_freq := target_update_freq a; q_network := q_network a;
     target_network := target_network a; optimizer := optimizer a;
     memory := m; step_count := step_count a;
     loss_history := loss_history a; sync_calls := sync_calls a |}.

Definition set_step_count (n : Z) (a : t) : t :=
  {| state_dim := state_dim a; action_dim := action_dim a; epsilon := epsilon a;
     epsilon_end := epsilon_end a; epsilon_decay := epsilon_decay a;
     gamma := gamma a; batch_size := batch_size a;
     target_update_freq := target_update_freq a; q_network := q_network a;
     target_network := target_network a; optimizer := optimizer a;
     memory := memory a; step_count := n;
     loss_history := loss_history a; sync_calls := sync_calls a |}.

Definition set_loss_history (l : list Q) (a : t) : t :=
  {| state_dim := state_dim a; action_dim := action_dim a; epsilon := epsilon a;
     epsilon_end := epsilon_end a; epsilon_decay := epsilon_decay a;
     gamma := gamma a; batch_size := batch_size a;
     target_update_freq := target_update_freq a; q_network := q_network a;
     target_network := target_network a; optimizer := optimizer a;
     memory := memory a; step_count := step_count a;
     loss_history := l; sync_calls := sync_calls a |}.

Definition count_sync (a : t) : t :=
  {| state_dim := state_dim a; action_dim := action_dim a; epsilon := epsilon a;
     epsilon_end := epsilon_end a; epsilon_decay := epsilon_decay a;
     gamma := gamma a; batch_size := batch_size a;
     target_update_freq := target_update_freq a; q_network := q_network a;
     target_network := target_network a; optimizer := optimizer a;
     memory := memory a; step_count := step_count a;
     loss_history := loss_history a; sync_calls := S (sync_calls a) |}.

(** *** The world of a method call

    A method runs on the agent, the two random sources and the files.  It
    returns a value or raises; either way the world it leaves behind holds
    every mutation made up to that point. *)

Record World : Type := {
  self : t;
  py_random : Random.state;
  tf_random : Random.state;
  files : gmap string File
}.

Definition M (A : Type) : Type := World -> result A * World.

#[global] Instance M_ret : MRet M := fun A a w => (Ok a, w).
#[global] Instance M_bind : MBind M := fun A B k m w =>
  match m w with
  | (Ok a, w') => k a w'
  | (Raise e, w') => (Raise e, w')
  end.

Definition raise {A : Type} (e : PyError) : M A := fun w => (Raise e, w).

Definition lift {A : Type} (r : result A) : M A := fun w => (r, w).

Definition get : M t := fun w => (Ok (self w), w).

Definition modify (f : t -> t) : M unit := fun w =>
  (Ok tt, {| self := f (self w); py_random := py_random w;
             tf_random := tf_random w; files := files w |}).

(** A call that draws from Python's [random]. *)
Definition with_random {A : Type} (f : Random.state -> result (A * Random.state))
  : M A := fun w =>
  match f (py_random w) with
  | Ok (a, r) => (Ok a, {| self := self w; py_random := r;
                           tf_random := tf_random w; files := files w |})
  | Raise e => (Raise e, w)
  end.

(** A forward pass of one of the two networks: the network keeps the
    variables that the pass created. *)
Definition forward (net : t -> DQNNetwork.t) (put : DQNNetwork.t -> t -> t)
  (xs : list (list Q)) (training : bool) : M (list (list Q)) := fun w =>
  match DQNNetwork.call (net (self w)) xs training (tf_random w) with
  | Ok (ys, net', tf') =>
      (Ok ys, {| self := put net' (self w); py_random := py_random w;
                 tf_random := tf'; files := files w |})
  | Raise e => (Raise e, w)
  end.

Definition read_file (path : string) : M File := fun w =>
  match files w !! path with
  | Some f => (Ok f, w)
  | None => (Raise NotFoundError, w)
  end.

Definition write_file (path : string) (f : File) : M unit := fun w =>
  (Ok tt, {| self := self w; py_random := py_random w;
             tf_random := tf_random w; files := <[path := f]> (files w) |}).

(** *** The methods *)

(** [update_target_network]: the weights of the online network are set on
    the target network. *)
Definition update_target_network : M unit :=
  _ ← modify count_sync;
  a ← get;
  target ← lift (DQNNetwork.set_weights (target_network a)
                   (DQNNetwork.get_weights (q_network a)));
  modify (set_target_network target).

Definition default_hidden_dims : list nat := [512; 256; 128]%nat.

(** The fields that [__init__] sets before it calls
    [update_target_network]; [memory], [step_count] and [loss_history] do
    not depend on that call. *)
Definition fresh (hidden_dims : list nat) (state_dim action_dim : nat)
  (learning_rate epsilon_start epsilon_end epsilon_decay gamma : Q)
  (target_update_freq : Z) (batch_size : nat) : t :=
  {| state_dim := state_dim; action_dim := action_dim;
     epsilon := epsilon_start; epsilon_end := epsilon_end;
     epsilon_decay := epsilon_decay; gamma := gamma;
     batch_size := batch_size; target_update_freq := target_update_freq;
     q_network := DQNNetwork.init state_dim action_dim hidden_dims;
     target_network := DQNNetwork.init state_dim action_dim hidden_dims;
     optimizer := adam learning_rate;
     memory := ReplayBuffer.init 100000;
     step_count := 0%Z; loss_history := []; sync_calls := O |}.

(** [__init__], for the hidden widths that [DQNNetwork] is built with: the
    new agent enters the world, then [update_target_network] runs. *)
Definition init_with (hidden_dims : list nat) (state_dim action_dim : nat)
  (learning_rate epsilon_start epsilon_end epsilon_decay gamma : Q)
  (target_update_freq : Z) (batch_size : nat)
  (py tf : Random.state) (files : gmap string File) : result unit * World :=
  update_target_network
    {| self := fresh hidden_dims state_dim action_dim learning_rate
                 epsilon_start epsilon_end epsilon_decay gamma
                 target_update_freq batch_size;
       py_random := py; tf_random := tf; files := files |}.

(** [DQNAgent(state_dim)]: every other argument at its default. *)
Definition init (state_dim : nat) (py tf : Random.state) (files : gmap string File)
  : result unit * World :=
  init_with default_hidden_dims state_dim 5
            (1 # 10000) 1 (5 # 100) (995 # 1000) (99 # 100) 1000 64
            py tf files.

(** The values [Q(state)] of a network, by a forward pass in inference
    mode on the batch of this one state. *)
Definition q_values (net : t -> DQNNetwork.t) (put : DQNNetwork.t -> t -> t)
  (state : list Q) : M (list Q) :=
  ys ← forward net put [state] false;
  mret (hd [] ys).

(** A probe of both networks on one state, the online network first. *)
Definition probe (state : list Q) : M (list Q * list Q) :=
  online ← q_values q_network set_q_network state;
  target ← q_values target_network set_target_network state;
  mret (online, target).

Definition select_action (state : list Q) (training : bool) : M Z :=
  a ← get;
  explore ← (if training
             then u ← with_random (fun r => Ok (Random.random r));
                  mret (negb (Qle_bool (epsilon a) u))
             else mret false);
  if (explore : bool) then
    with_random (Random.randint 0 (Z.of_nat (action_dim a) - 1))
  else
    q_values ← forward q_network set_q_network [state] false;
    i ← lift (argmax (hd [] q_values));
    mret (Z.of_nat i).

Definition store_experience (x : Transition) : M unit :=
  modify (fun a => set_memory (ReplayBuffer.push (memory a) x) a).

(** [rewards + gamma * next_q * cast(~dones)] *)
Fixpoint target_values (gamma : Q) (rewards next_q : list Q) (dones : list bool)
  : list Q :=
  match rewards, next_q, dones with
  | r :: rewards', n :: next_q', d :: dones' =>
      (r + gamma * n * (if negb d then 1 else 0))
        :: target_values gamma rewards' next_q' dones'
  | _, _, _ => []
  end.

(** The first part of [train_step], from the sampling of the batch to the
    update of the online network; its value is the loss. *)
Definition learn : M Q :=
  a ← get;
  batch ← with_random (ReplayBuffer.sample (memory a) (batch_size a));
  tape ← (fun w => (Ok (tf_random w), w));
  current_all ← forward q_network set_q_network (b_states batch) true;
  current_q_values ← lift (gather_nd current_all (b_actions batch));
  next_all ← forward target_network set_target_network
               (b_next_states batch) false;
  let next_q_values := map reduce_max next_all in
  let target_q_values :=
    target_values (gamma a) (b_rewards batch) next_q_values (b_dones batch) in
  let loss := huber target_q_values current_q_values in
  a1 ← get;
  let variables := DQNNetwork.get_weights (q_network a1) in
  let gradients := tape_gradient variables tape (b_states batch)
                     (b_actions batch) target_q_values in
  let gradients := map (fun g => clip_by_norm g 1) gradients in
  let '(opt, variables') := apply_gradients (optimizer a1) gradients variables in
  _ ← modify (set_optimizer opt);
  q ← lift (DQNNetwork.set_weights (q_network a1) variables');
  _ ← modify (set_q_network q);
  mret loss.

Definition train_step : M (option Q) :=
  a ← get;
  if (ReplayBuffer.len (memory a) <? batch_size a)%nat then mret None
  else
    loss ← learn;
    _ ← modify (fun a => set_epsilon
                  (py_max (epsilon_end a) (epsilon a * epsilon_decay a)) a);
    _ ← modify (fun a => set_step_count (step_count a + 1)%Z a);
    a2 ← get;
    _ ← (if (target_update_freq a2 =? 0)%Z then raise ZeroDivisionError
         else if (step_count a2 mod target_update_freq a2 =? 0)%Z
              then update_target_network
              else mret tt);
    _ ← modify (fun a => set_loss_history (loss_history a ++ [loss]) a);
    mret (Some loss).

Definition save (filepath : string) : M unit :=
  a ← get;
  let checkpoint := JObject
    [ ("epsilon"%string, JFloat (epsilon a));
      ("step_count"%string, JInt (step_count a));
      ("loss_history"%string, JList (map JFloat (loss_history a))) ] in
  _ ← write_file (filepath +:+ "_q_network")
        (WeightsFile (DQNNetwork.get_weights (q_network a)));
  _ ← write_file (filepath +:+ "_target_network")
        (WeightsFile (DQNNetwork.get_weights (target_network a)));
  write_file (filepath +:+ "_state.json") (JsonFile checkpoint).

(** [load_weights]: the arrays of the file are restored into the network;
    a file without arrays (written before the network had variables)
    restores nothing. *)
Definition load_weights (net : t -> DQNNetwork.t) (put : DQNNetwork.t -> t -> t)
  (path : string) : M unit :=
  f ← read_file path;
  match f with
  | WeightsFile weights =>
      a ← get;
      n ← lift (DQNNetwork.restore (net a) weights);
      modify (put n)
  | JsonFile _ => raise NotFoundError
  end.

Definition load (filepath : string) : M unit :=
  _ ← load_weights q_network set_q_network (filepath +:+ "_q_network");
  _ ← load_weights target_network set_target_network
        (filepath +:+ "_target_network");
  f ← read_file (filepath +:+ "_state.json");
  match f with
  | JsonFile checkpoint =>
      e ← lift (json_item checkpoint "epsilon" ≫= as_float);
      _ ← modify (set_epsilon e);
      n ← lift (json_item checkpoint "step_count" ≫= as_int);
      _ ← modify (set_step_count n);
      l ← lift (json_item checkpoint "loss_history" ≫= as_float_list);
      modify (set_loss_history l)
  | WeightsFile _ => raise ValueError
  end.

(** What the forward passes, the sampling and the optimizer leave alone:
    the exploration schedule, the counters, the loss history and the
    buffer. *)
Definition same_schedule (a a' : t) : Prop :=
  epsilon a' = epsilon a /\ epsilon_end a' = epsilon_end a /\
  epsilon_decay a' = epsilon_decay a /\
  target_update_freq a' = target_update_freq a /\
  step_count a' = step_count a /\ sync_calls a' = sync_calls a /\
  loss_history a' = loss_history a /\ memory a' = memory a /\
  batch_size a' = batch_size a.

(** The worlds reached by successive [train_step] calls; between two calls
    anything may happen that leaves the schedule, the counters, the loss
    history and the memory alone (actions are selected, the networks are
    probed). *)
Inductive trained : World -> World -> Prop :=
| trained_refl w : trained w w
| trained_step w w1 r w2 :
    trained w w1 -> train_step w1 = (r, w2) -> trained w w2
| trained_other w w1 w2 :
    trained w w1 -> same_schedule (self w1) (self w2) -> trained w w2.

(** An agent that can take a training step on states of width [n]: the
    buffer holds at least one batch of transitions of that width whose
    actions index an output, and both networks fit the width. *)
Definition ready (n : nat) (a : t) : Prop :=
  (1 <= batch_size a <= ReplayBuffer.len (memory a))%nat /\
  Forall (fun x => length (t_state x) = n /\ length (t_next_state x) = n /\
                   (0 <= t_action x
                    < Z.of_nat (DQNNetwork.output_width n
                                  (DQNNetwork.layers_list (q_network a))))%Z)
         (ReplayBuffer.buffer (memory a)) /\
  DQNNetwork.fits n (DQNNetwork.layers_list (q_network a)) /\
  DQNNetwork.fits n (DQNNetwork.layers_list (target_network a)).

End WithKernels.

End DQNAgent.

(** ** Reward computation *)

Inductive TargetType : Type := unclaimed | enemy.

(** [str(agent_id)], the key of an agent in [agent_owned_points]. *)
Definition str (agent_id : Z) : string := pretty agent_id.

(** [state.get('agent_owned_points', {}).get(str(agent_id), 0)] *)
Definition current_owned (state : GameState) (agent_id : Z) : Z :=
  default 0%Z (default ∅ (agent_owned_points state) !! str agent_id).

(** The capture term: [+1.0 * point_change] on a gain,
    [-1.0 * abs(point_change)] on a loss. *)
Definition point_reward (point_change : Z) : Q :=
  if (0 <? point_change)%Z then 1 * inject_Z point_change
  else if (point_change <? 0)%Z then - (1) * inject_Z (Z.abs point_change)
  else 0.

(** [min] over a non-empty sequence of floats: the first smallest one. *)
Definition py_min_list (x : Q) (xs : list Q) : Q :=
  fold_left (fun m y => if Qle_bool m y then m else y) xs x.

Section Proximity.

Context `{Kernels}.

(** [sum((a - b) ** 2 for a, b in zip(p1, p2)) ** 0.5] *)
Definition distance (p1 p2 : Vec3) : Q :=
  let '(a0, a1, a2) := p1 in
  let '(b0, b1, b2) := p2 in
  sqrt (0 + (a0 - b0) * (a0 - b0) + (a1 - b1) * (a1 - b1)
          + (a2 - b2) * (a2 - b2)).

(** The loop that collects the target points.  [differs c] is the test of
    an owned point's colour against the agent. *)
Definition targets (critical_points : list CriticalPoint) (target_type : TargetType)
  (differs : Z -> bool) : list Vec3 :=
  omap (fun cp =>
          match target_type, color cp with
          | unclaimed, None => Some (position cp)
          | enemy, Some c => if differs c then Some (position cp) else None
          | _, _ => None
          end) critical_points.

Definition proximity (current_pos prev_pos : Vec3) (critical_points : list CriticalPoint)
  (target_type : TargetType) (reward_scale : Q) (differs : Z -> bool) : Q :=
  match critical_points with
  | [] => 0
  | _ =>
      match targets critical_points target_type differs with
      | [] => 0
      | tp :: tps =>
          let min_prev_dist :=
            py_min_list (distance prev_pos tp) (map (distance prev_pos) tps) in
          let min_curr_dist :=
            py_min_list (distance current_pos tp) (map (distance current_pos) tps) in
          let distance_change := min_prev_dist - min_curr_dist in
          reward_scale * distance_change
      end
  end.

End Proximity.

(** [GameEnvironment] of [dqn_training.py]. *)
Module GameEnvironment.

Section WithKernels.

Context `{Kernels}.

Record t : Type := {
  max_episode_steps : Z;
  current_step : Z;
  processor : GameStateProcessor.t;
  previous_owned_points : Z;
  previous_position : option Vec3
}.

Definition init (max_episode_steps : Z) : t :=
  {| max_episode_steps := max_episode_steps;
     current_step := 0;
     processor := GameStateProcessor.init 50 15;
     previous_owned_points := 0;
     previous_position := None |}.

(** [cp['color'] != agent_id], with [agent_id] defaulting to [None]. *)
Definition get_proximity_reward (current_pos prev_pos : Vec3)
  (critical_points : list CriticalPoint) (target_type : TargetType)
  (reward_scale : Q) (agent_id : option Z) : Q :=
  proximity current_pos prev_pos critical_points target_type reward_scale
    (fun c => match agent_id with
              | Some a => negb (c =? a)%Z
              | None => true
              end).

(** The difference that the capture term is computed from. *)
Definition point_change (self : t) (state : GameState) (agent_id : Z) : Z :=
  (current_owned state agent_id - previous_owned_points self)%Z.

Definition calculate_reward (self : t) (state : GameState) (agent_id : Z) : Q * t :=
  let reward := 0 in
  let owned := current_owned state agent_id in
  let reward := reward + point_reward (point_change self state agent_id) in
  let current_position := agent_position state in
  let reward :=
    match previous_position self with
    | Some previous =>
        let unclaimed_reward :=
          get_proximity_reward current_position previous
            (critical_points state) unclaimed (1 # 10) None in
        let enemy_reward :=
          get_proximity_reward current_position previous
            (critical_points state) enemy (2 # 10) (Some agent_id) in
        reward + (unclaimed_reward + enemy_reward)
    | None => reward
    end in
  let reward := reward - (1 # 100) in
  (np_clip reward (- (5)) 5,
   {| max_episode_steps := max_episode_steps self;
      current_step := current_step self;
      processor := processor self;
      previous_owned_points := owned;
      previous_position := Some current_position |}).

(** The action mapping that [__init__] stores in [self.actions]. *)
Definition actions : gmap Z string :=
  <[0%Z := "strafe_left"%string]>
    (<[1%Z := "strafe_right"%string]>
       (<[2%Z := "move_forward"%string]>
          (<[3%Z := "move_backward"%string]>
             (<[4%Z := "stay"%string]> ∅)))).

(** The commands that [reset] and [step] send to the game. *)
Inductive Command : Type :=
| reset_episode (agents_positions : list Vec3)
| agent_action (agent_id : Z) (action : string).

(** [send_command_to_game]: the mock observation, whatever the command. *)
Definition send_command_to_game (self : t) (command : Command) : GameState :=
  mock_state.

Definition reset (self : t) : result (list Q) * t :=
  let self := {| max_episode_steps := max_episode_steps self;
                 current_step := 0;
                 processor := processor self;
                 previous_owned_points := 0;
                 previous_position := None |} in
  let reset_command :=
    reset_episode [ (35 # 10, 1, 35 # 10);
                    (- (35 # 10), 1, 35 # 10);
                    (35 # 10, 1, - (35 # 10)) ] in
  let initial_state := send_command_to_game self reset_command in
  (GameStateProcessor.process_state (processor self) initial_state, self).

(** The [info] dictionary of [step].  No code of the module sets
    [current_epsilon], so that [getattr(self, 'current_epsilon', 0.1)] is
    its default. *)
Record Info : Type := {
  info_step : Z;
  info_owned_points : Z;
  info_total_points : nat;
  info_epsilon : Q
}.

(** [step]: the step is counted before the action is looked up, and the
    snapshots are updated only once the observation has been encoded. *)
Definition step (self : t) (action agent_id : Z)
  : result (list Q * Q * bool * Info) * t :=
  let self := {| max_episode_steps := max_episode_steps self;
                 current_step := current_step self + 1;
                 processor := processor self;
                 previous_owned_points := previous_owned_points self;
                 previous_position := previous_position self |} in
  match actions !! action with
  | None => (Raise KeyError, self)
  | Some name =>
      let action_command := agent_action agent_id name in
      let new_state := send_command_to_game self action_command in
      match GameStateProcessor.process_state (processor self) new_state with
      | Raise e => (Raise e, self)
      | Ok processed_state =>
          let (reward, self) := calculate_reward self new_state agent_id in
          let done :=
            (max_episode_steps self <=? current_step self)%Z
            || Qle_bool (default 1 (time_remaining new_state)) 0 in
          let info :=
            {| info_step := current_step self;
               info_owned_points := current_owned new_state agent_id;
               info_total_points := length (critical_points new_state);
               info_epsilon := 1 # 10 |} in
          (Ok (processed_state, reward, done, info), self)
      end
  end.

End WithKernels.

End GameEnvironment.

(** [BridgedGameEnvironment] of [game_bridge.py]. *)
Module BridgedGameEnvironment.

Section WithKernels.

Context `{Kernels}.

Record PreviousState : Type := {
  owned_points : Z;
  prev_position : Vec3
}.

Record t : Type := {
  current_step : Z;
  max_episode_steps : Z;
  previous_states : gmap Z PreviousState
}.

Definition init : t :=
  {| current_step := 0; max_episode_steps := 3000; previous_states := ∅ |}.

(** [cp['color'] != (agent_id if agent_id is not None else -1)] *)
Definition get_proximity_reward (current_pos prev_pos : Vec3)
  (critical_points : list CriticalPoint) (target_type : TargetType)
  (reward_scale : Q) (agent_id : option Z) : Q :=
  proximity current_pos prev_pos critical_points target_type reward_scale
    (fun c => negb (c =? default (-1)%Z agent_id)%Z).

(** The snapshot that a call for [agent_id] compares with. *)
Definition previous_of (self : t) (agent_id : Z) : PreviousState :=
  default {| owned_points := 0; prev_position := (0, 1, 0) |}
          (previous_states self !! agent_id).

Definition point_change (self : t) (state : GameState) (agent_id : Z) : Z :=
  (current_owned state agent_id - owned_points (previous_of self agent_id))%Z.

Definition calculate_reward (self : t) (state : GameState) (agent_id : Z) : Q * t :=
  let reward := 0 in
  let prev_state := previous_of self agent_id in
  let owned := current_owned state agent_id in
  let reward := reward + point_reward (point_change self state agent_id) in
  let current_pos := agent_position state in
  let prev_pos := prev_position prev_state in
  let unclaimed_reward :=
    get_proximity_reward current_pos prev_pos (critical_points state)
      unclaimed (1 # 10) None in
  let enemy_reward :=
    get_proximity_reward current_pos prev_pos (critical_points state)
      enemy (2 # 10) (Some agent_id) in
  let reward := reward + (unclaimed_reward + enemy_reward) in
  let reward := reward - (1 # 100) in
  (np_clip reward (- (5)) 5,
   {| current_step := current_step self;
      max_episode_steps := max_episode_steps self;
      previous_states :=
        <[agent_id := {| owned_points := owned; prev_position := current_pos |}]>
          (previous_states self) |}).

(** Reward calls for a list of (observation, agent) pairs, in order. *)
Definition calls (self : t) (l : list (GameState * Z)) : t :=
  fold_left (fun env c => snd (calculate_reward env c.1 c.2)) l self.

End WithKernels.

End BridgedGameEnvironment.

(** ** The reward in binary64

    The rationals of the model above know no rounding, no infinity and no
    NaN.  For the range of the reward, which depends on them, the reward
    computation is modelled a second time, with Python's [float] as the
    IEEE 754 binary64 numbers of [SpecFloat]: an operation rounds to the
    nearest float, ties to even, and overflows to an infinity, except
    where Python raises [OverflowError] instead (the conversion of an
    [int], the power operator).  The coordinates of an observation are
    floats.  [x ** 2] is the rounded product and [x ** 0.5] the rounded
    square root; the C library may round a power differently in the last
    bit, on which no statement below depends. *)

Module Binary64.

Import SpecFloat.

Definition float : Type := spec_float.

Definition prec : Z := 53.
Definition emax : Z := 1024.

Definition zero : float := S754_zero false.
Definition nan : float := S754_nan.
Definition infinity : float := S754_infinity false.

Definition add (x y : float) : float := SFadd prec emax x y.
Definition sub (x y : float) : float := SFsub prec emax x y.
Definition mul (x y : float) : float := SFmul prec emax x y.
Definition div (x y : float) : float := SFdiv prec emax x y.
Definition sqrt (x : float) : float := SFsqrt prec emax x.
Definition opp (x : float) : float := SFopp x.

(** [x < y] and [x <= y]: false as soon as one side is NaN. *)
Definition ltb (x y : float) : bool := SFltb x y.
Definition leb (x y : float) : bool := SFleb x y.

Definition is_nan (x : float) : bool :=
  match x with S754_nan => true | _ => false end.

Definition is_finite (x : float) : bool :=
  match x with S754_zero _ | S754_finite _ _ _ => true | _ => false end.

(** The float nearest to the integer [z], an infinity when [z] is out of
    range. *)
Definition of_Z (z : Z) : float := binary_normalize prec emax z 0 false.

(** The conversion of a Python [int] in an arithmetic operation with a
    float: out of range it raises. *)
Definition of_int (z : Z) : result float :=
  match of_Z z with
  | S754_infinity _ => Raise OverflowError
  | x => Ok x
  end.

(** The float that a decimal literal denotes: the float nearest to the
    rational that the literal writes. *)
Definition literal (q : Q) : float := div (of_Z (Qnum q)) (of_Z (Zpos (Qden q))).

(** [x ** 2]: the power operator raises when the result of a finite
    operand overflows; an infinite operand gives infinity and NaN gives
    NaN. *)
Definition pow2 (x : float) : result float :=
  match x with
  | S754_nan => Ok nan
  | S754_infinity _ => Ok infinity
  | S754_zero _ => Ok zero
  | S754_finite _ _ _ =>
      match mul x x with
      | S754_infinity _ => Raise OverflowError
      | y => Ok y
      end
  end.

(** [x ** 0.5], which the code applies to sums of squares: the square
    root. *)
Definition pow_half (x : float) : float := sqrt x.

(** [min] over a non-empty sequence: an item replaces the smallest one so
    far when it is smaller, which a NaN never is. *)
Definition py_min_list (x : float) (xs : list float) : float :=
  fold_left (fun m y => if ltb y m then y else m) xs x.

(** [np.clip(x, lo, hi)] is [minimum(maximum(x, lo), hi)], and both
    propagate a NaN. *)
Definition np_clip (x lo hi : float) : float :=
  if is_nan x then nan
  else let y := if ltb x lo then lo else x in
       if ltb hi y then hi else y.

Definition Vec3 : Type := (float * float * float)%type.

(** What the reward code reads of a critical point and of an observation. *)
Record CriticalPoint : Type := {
  position : Vec3;
  color : option Z
}.

Record GameState : Type := {
  agent_position : Vec3;
  critical_points : list CriticalPoint;
  agent_owned_points : option (gmap string Z)
}.

(** [state.get('agent_owned_points', {}).get(str(agent_id), 0)] *)
Definition current_owned (state : GameState) (agent_id : Z) : Z :=
  default 0%Z (default ∅ (agent_owned_points state) !! str agent_id).

(** [sum((a - b) ** 2 for a, b in zip(p1, p2)) ** 0.5] *)
Definition distance (p1 p2 : Vec3) : result float :=
  let '(a0, a1, a2) := p1 in
  let '(b0, b1, b2) := p2 in
  s0 ← pow2 (sub a0 b0);
  s1 ← pow2 (sub a1 b1);
  s2 ← pow2 (sub a2 b2);
  Ok (pow_half (add (add (add zero s0) s1) s2)).

Definition targets (critical_points : list CriticalPoint) (target_type : TargetType)
  (differs : Z -> bool) : list Vec3 :=
  omap (fun cp =>
          match target_type, color cp with
          | unclaimed, None => Some (position cp)
          | enemy, Some c => if differs c then Some (position cp) else None
          | _, _ => None
          end) critical_points.

(** The body that the two [get_proximity_reward] methods share. *)
Definition proximity (current_pos prev_pos : Vec3) (critical_points : list CriticalPoint)
  (target_type : TargetType) (reward_scale : float) (differs : Z -> bool)
  : result float :=
  match critical_points with
  | [] => Ok zero
  | _ =>
      match targets critical_points target_type differs with
      | [] => Ok zero
      | tp :: tps =>
          prev_dists ← mapM (distance prev_pos) (tp :: tps);
          curr_dists ← mapM (distance current_pos) (tp :: tps);
          let min_prev_dist := py_min_list (hd zero prev_dists) (tl prev_dists) in
          let min_curr_dist := py_min_list (hd zero curr_dists) (tl curr_dists) in
          let distance_change := sub min_prev_dist min_curr_dist in
          Ok (mul reward_scale distance_change)
      end
  end.

(** The capture term: [reward += 1.0 * point_change] on a gain,
    [reward += -1.0 * abs(point_change)] on a loss; the product converts
    the integer to a float. *)
Definition add_point_reward (reward : float) (point_change : Z) : result float :=
  if (0 <? point_change)%Z then
    x ← of_int point_change; Ok (add reward (mul (literal 1) x))
  else if (point_change <? 0)%Z then
    x ← of_int (Z.abs point_change);
    Ok (add reward (mul (opp (literal 1)) x))
  else Ok reward.

(** [GameEnvironment] of [dqn_training.py]. *)
Module GameEnvironment.

Record t : Type := {
  max_episode_steps : Z;
  current_step : Z;
  processor : GameStateProcessor.t;
  previous_owned_points : Z;
  previous_position : option Vec3
}.

Definition set_previous_owned_points (n : Z) (self : t) : t :=
  {| max_episode_steps := max_episode_steps self;
     current_step := current_step self;
     processor := processor self;
     previous_owned_points := n;
     previous_position := previous_position self |}.

Definition set_previous_position (p : Vec3) (self : t) : t :=
  {| max_episode_steps := max_episode_steps self;
     current_step := current_step self;
     processor := processor self;
     previous_owned_points := previous_owned_points self;
     previous_position := Some p |}.

(** [cp['color'] != agent_id], with [agent_id] defaulting to [None]. *)
Definition get_proximity_reward (current_pos prev_pos : Vec3)
  (critical_points : list CriticalPoint) (target_type : TargetType)
  (reward_scale : float) (agent_id : option Z) : result float :=
  proximity current_pos prev_pos critical_points target_type reward_scale
    (fun c => match agent_id with
              | Some a => negb (c =? a)%Z
              | None => true
              end).

(** The method returns the reward, or raises, next to the object as the
    statements executed until then have left it. *)
Definition calculate_reward (self : t) (state : GameState) (agent_id : Z)
  : result float * t :=
  let reward := zero in
  let owned := current_owned state agent_id in
  let point_change := (owned - previous_owned_points self)%Z in
  match add_point_reward reward point_change with
  | Raise e => (Raise e, self)
  | Ok reward =>
      let self := set_previous_owned_points owned self in
      let current_position := agent_position state in
      match
        match previous_position self with
        | Some previous =>
            unclaimed_reward ←
              get_proximity_reward current_position previous
                (critical_points state) unclaimed (literal (1 # 10)) None;
            enemy_reward ←
              get_proximity_reward current_position previous
                (critical_points state) enemy (literal (2 # 10)) (Some agent_id);
            Ok (add reward (add unclaimed_reward enemy_reward))
        | None => Ok reward
        end
      with
      | Raise e => (Raise e, self)
      | Ok reward =>
          let self := set_previous_position current_position self in
          let reward := sub reward (literal (1 # 100)) in
          (Ok (np_clip reward (opp (literal 5)) (literal 5)), self)
      end
  end.

End GameEnvironment.

(** [BridgedGameEnvironment] of [game_bridge.py]. *)
Module BridgedGameEnvironment.

Record PreviousState : Type := {
  owned_points : Z;
  prev_position : Vec3
}.

Record t : Type := {
  current_step : Z;
  max_episode_steps : Z;
  previous_states : gmap Z PreviousState
}.

(** [cp['color'] != (agent_id if agent_id is not None else -1)] *)
Definition get_proximity_reward (current_pos prev_pos : Vec3)
  (critical_points : list CriticalPoint) (target_type : TargetType)
  (reward_scale : float) (agent_id : option Z) : result float :=
  proximity current_pos prev_pos critical_points target_type reward_scale
    (fun c => negb (c =? default (-1)%Z agent_id)%Z).

(** The entry of [previous_states] that the method reads, created with
    [{'owned_points': 0, 'position': [0, 1, 0]}] when the agent has none. *)
Definition previous_of (self : t) (agent_id : Z) : PreviousState :=
  default {| owned_points := 0; prev_position := (zero, literal 1, zero) |}
          (previous_states self !! agent_id).

Definition set_previous_states (d : gmap Z PreviousState) (self : t) : t :=
  {| current_step := current_step self;
     max_episode_steps := max_episode_steps self;
     previous_states := d |}.

Definition calculate_reward (self : t) (state : GameState) (agent_id : Z)
  : result float * t :=
  let reward := zero in
  let prev_state := previous_of self agent_id in
  let self := set_previous_states
                (<[agent_id := prev_state]> (previous_states self)) self in
  let owned := current_owned state agent_id in
  let point_change := (owned - owned_points prev_state)%Z in
  match add_point_reward reward point_change with
  | Raise e => (Raise e, self)
  | Ok reward =>
      let current_pos := agent_position state in
      let prev_pos := prev_position prev_state in
      match
        unclaimed_reward ←
          get_proximity_reward current_pos prev_pos
            (critical_points state) unclaimed (literal (1 # 10)) None;
        enemy_reward ←
          get_proximity_reward current_pos prev_pos
            (critical_points state) enemy (literal (2 # 10)) (Some agent_id);
        Ok (add reward (add unclaimed_reward enemy_reward))
      with
      | Raise e => (Raise e, self)
      | Ok reward =>
          let reward := sub reward (literal (1 # 100)) in
          let self :=
            set_previous_states
              (<[agent_id := {| owned_points := owned;
                                prev_position := current_pos |}]>
                 (previous_states self)) self in
          (Ok (np_clip reward (opp (literal 5)) (literal 5)), self)
      end
  end.

End BridgedGameEnvironment.

(** The reward is a number between the bounds of the clip. *)
Definition within_bounds (r : float) : Prop :=
  leb (opp (literal 5)) r = true /\ leb r (literal 5) = true.

End Binary64.

(** ** TrainingManager *)

(** [sum(l)] on floats: the additions from the left, starting from [0]. *)
Definition py_sum (l : list Q) : Q := fold_left Qplus l 0.

(** [d[key]] on a dictionary with integer keys: a missing key raises. *)
Definition dict_item {V : Type} (d : gmap nat V) (key : nat) : result V :=
  match d !! key with
  | Some v => Ok v
  | None => Raise KeyError
  end.

(** [{i: v for i in ids}] *)
Definition dict_of {V : Type} (ids : list nat) (v : V) : gmap nat V :=
  list_to_map (map (fun i => (i, v)) ids).

Module TrainingManager.

Section WithKernels.

Context `{Kernels}.

Record t : Type := {
  num_agents : nat;
  save_dir : string;
  env : GameEnvironment.t;
  agents : list DQNAgent.t;
  episode_rewards : gmap nat (list Q);
  episode_lengths : list nat;
  win_rates : gmap nat (list Q)
}.

Definition set_env (e : GameEnvironment.t) (m : t) : t :=
  {| num_agents := num_agents m; save_dir := save_dir m; env := e;
     agents := agents m; episode_rewards := episode_rewards m;
     episode_lengths := episode_lengths m; win_rates := win_rates m |}.

Definition set_agents (l : list DQNAgent.t) (m : t) : t :=
  {| num_agents := num_agents m; save_dir := save_dir m; env := env m;
     agents := l; episode_rewards := episode_rewards m;
     episode_lengths := episode_lengths m; win_rates := win_rates m |}.

Definition set_episode_rewards (d : gmap nat (list Q)) (m : t) : t :=
  {| num_agents := num_agents m; save_dir := save_dir m; env := env m;
     agents := agents m; episode_rewards := d;
     episode_lengths := episode_lengths m; win_rates := win_rates m |}.

Definition set_episode_lengths (l : list nat) (m : t) : t :=
  {| num_agents := num_agents m; save_dir := save_dir m; env := env m;
     agents := agents m; episode_rewards := episode_rewards m;
     episode_lengths := l; win_rates := win_rates m |}.

(** *** The world of a method call

    The manager, with the environment and the agents that it owns, the
    two random sources and the files. *)

Record World : Type := {
  self : t;
  py_random : Random.state;
  tf_random : Random.state;
  files : gmap string File
}.

Definition M (A : Type) : Type := World -> result A * World.

#[global] Instance M_ret : MRet M := fun A a w => (Ok a, w).
#[global] Instance M_bind : MBind M := fun A B k m w =>
  match m w with
  | (Ok a, w') => k a w'
  | (Raise e, w') => (Raise e, w')
  end.

Definition lift {A : Type} (r : result A) : M A := fun w => (r, w).

Definition get : M t := fun w => (Ok (self w), w).

Definition modify (f : t -> t) : M unit := fun w =>
  (Ok tt, {| self := f (self w); py_random := py_random w;
             tf_random := tf_random w; files := files w |}).

(** A method call on [self.env]. *)
Definition on_env {A : Type}
  (method : GameEnvironment.t -> result A * GameEnvironment.t) : M A := fun w =>
  let (r, e) := method (env (self w)) in
  (r, {| self := set_env e (self w); py_random := py_random w;
         tf_random := tf_random w; files := files w |}).

(** A method call on [self.agents[agent_id]]: the agent is looked up, then
    the arguments are evaluated, then the method runs on the agent, the
    random sources and the files, and the agent keeps what the method
    did to it. *)
Definition on_agent {X A : Type} (agent_id : nat) (args : result X)
  (method : X -> DQNAgent.M A) : M A := fun w =>
  match agents (self w) !! agent_id with
  | None => (Raise IndexError, w)
  | Some a =>
      match args with
      | Raise e => (Raise e, w)
      | Ok x =>
          let (r, v) :=
            method x {| DQNAgent.self := a;
                        DQNAgent.py_random := py_random w;
                        DQNAgent.tf_random := tf_random w;
                        DQNAgent.files := files w |} in
          (r, {| self := set_agents (<[agent_id := DQNAgent.self v]>
                                       (agents (self w))) (self w);
                 py_random := DQNAgent.py_random v;
                 tf_random := DQNAgent.tf_random v;
                 files := DQNAgent.files v |})
      end
  end.

(** [self.agents[agent_id]], read. *)
Definition agent (agent_id : nat) : M DQNAgent.t := fun w =>
  match agents (self w) !! agent_id with
  | None => (Raise IndexError, w)
  | Some a => (Ok a, w)
  end.

(** *** [__init__]

    [os.makedirs(save_dir, exist_ok=True)] acts on the directories of the
    operating system, which are not among the files of the model.  What
    the call answers is therefore the argument [makedirs] of [init]: it
    returns, or it raises ([FileNotFoundError] on an empty name,
    [FileExistsError] on the name of a regular file, and so on).  It is
    the first statement that can raise, and the constructor creates
    nothing when it does. *)

(** [for i in range(num_agents): self.agents.append(DQNAgent(state_dim))] *)
Fixpoint create_agents (n state_dim : nat) (agents : list DQNAgent.t)
  (py tf : Random.state) (fs : gmap string File)
  : result (list DQNAgent.t * Random.state * Random.state * gmap string File) :=
  match n with
  | O => Ok (agents, py, tf, fs)
  | S n' =>
      match DQNAgent.init state_dim py tf fs with
      | (Ok _, v) =>
          create_agents n' state_dim (agents ++ [DQNAgent.self v])
            (DQNAgent.py_random v) (DQNAgent.tf_random v) (DQNAgent.files v)
      | (Raise e, _) => Raise e
      end
  end.

Definition init (makedirs : string -> result unit)
  (num_agents : nat) (save_dir : string)
  (py tf : Random.state) (fs : gmap string File) : result World :=
  _ ← makedirs save_dir;
  let env := GameEnvironment.init 3000 in
  let state_dim :=
    GameStateProcessor.compute_state_dim (GameEnvironment.processor env) in
  '(agents, py, tf, fs) ← create_agents num_agents state_dim [] py tf fs;
  Ok {| self := {| num_agents := num_agents; save_dir := save_dir;
                   env := env; agents := agents;
                   episode_rewards := dict_of (seq 0 num_agents) [];
                   episode_lengths := [];
                   win_rates := dict_of (seq 0 num_agents) [] |};
        py_random := py; tf_random := tf; files := fs |}.

(** *** [run_episode] *)

(** The first loop of an iteration:
    [actions[agent_id] = self.agents[agent_id].select_action(states[agent_id], training)]. *)
Fixpoint select_actions (ids : list nat) (states : gmap nat (list Q))
  (training : bool) (actions : gmap nat Z) : M (gmap nat Z) :=
  match ids with
  | [] => mret actions
  | agent_id :: ids' =>
      action ← on_agent agent_id (dict_item states agent_id)
                 (fun state => DQNAgent.select_action state training);
      select_actions ids' states training (<[agent_id := action]> actions)
  end.

(** The local variables that the second loop of an iteration assigns:
    [next_states], [rewards], [episode_rewards] and [done]. *)
Record Locals : Type := {
  l_next_states : gmap nat (list Q);
  l_rewards : gmap nat Q;
  l_episode_rewards : gmap nat (list Q);
  l_done : bool
}.

(** The body of the second loop, for one agent. *)
Definition step_agent (agent_id : nat) (states : gmap nat (list Q))
  (actions : gmap nat Z) (training : bool) (l : Locals) : M Locals :=
  action ← lift (dict_item actions agent_id);
  '(next_state, reward, done, info) ←
    on_env (fun e => GameEnvironment.step e action (Z.of_nat agent_id));
  let next_states := <[agent_id := next_state]> (l_next_states l) in
  let rewards := <[agent_id := reward]> (l_rewards l) in
  rs ← lift (dict_item (l_episode_rewards l) agent_id);
  let episode_rewards :=
    <[agent_id := rs ++ [reward]]> (l_episode_rewards l) in
  _ ← (if training then
         _ ← on_agent agent_id
               (state ← dict_item states agent_id;
                action ← dict_item actions agent_id;
                Ok (state, action))
               (fun '(state, action) =>
                  DQNAgent.store_experience
                    {| t_state := state; t_action := action;
                       t_reward := reward; t_next_state := next_state;
                       t_done := done |});
         a ← agent agent_id;
         if (1000 <? ReplayBuffer.len (DQNAgent.memory a))%nat
         then _ ← on_agent agent_id (Ok tt) (fun _ => DQNAgent.train_step);
              mret tt
         else mret tt
       else mret tt);
  mret {| l_next_states := next_states; l_rewards := rewards;
          l_episode_rewards := episode_rewards; l_done := done |}.

Fixpoint step_agents (ids : list nat) (states : gmap nat (list Q))
  (actions : gmap nat Z) (training : bool) (l : Locals) : M Locals :=
  match ids with
  | [] => mret l
  | agent_id :: ids' =>
      l' ← step_agent agent_id states actions training l;
      step_agents ids' states actions training l'
  end.

(** [while not done and step < 1000], with [remaining] standing for
    [1000 - step]; the value is the local [episode_rewards] and [step]. *)
Fixpoint episode_loop (remaining : nat) (ids : list nat) (training : bool)
  (states : gmap nat (list Q)) (episode_rewards : gmap nat (list Q))
  (done : bool) (step : nat) : M (gmap nat (list Q) * nat) :=
  match remaining with
  | O => mret (episode_rewards, step)
  | S remaining' =>
      if done then mret (episode_rewards, step)
      else
        actions ← select_actions ids states training ∅;
        l ← step_agents ids states actions training
              {| l_next_states := ∅; l_rewards := ∅;
                 l_episode_rewards := episode_rewards; l_done := done |};
        episode_loop remaining' ids training (l_next_states l)
          (l_episode_rewards l) (l_done l) (S step)
  end.

(** [self.episode_rewards[agent_id].append(sum(episode_rewards[agent_id]))],
    with [local_rewards] for the local [episode_rewards]. *)
Fixpoint record_totals (ids : list nat) (local_rewards : gmap nat (list Q))
  : M unit :=
  match ids with
  | [] => mret tt
  | agent_id :: ids' =>
      rs ← lift (dict_item local_rewards agent_id);
      let total_reward := py_sum rs in
      m ← get;
      totals ← lift (dict_item (episode_rewards m) agent_id);
      _ ← modify (set_episode_rewards
                    (<[agent_id := totals ++ [total_reward]]>
                       (episode_rewards m)));
      record_totals ids' local_rewards
  end.

(** [run_episode]; [range(self.num_agents)] is the same list in every
    loop, since nothing in an episode assigns [num_agents]. *)
Definition run_episode (training : bool) : M (gmap nat (list Q)) :=
  m ← get;
  let ids := seq 0 (num_agents m) in
  let episode_rewards := dict_of ids [] in
  initial_state ← on_env GameEnvironment.reset;
  let states := dict_of ids initial_state in
  '(episode_rewards, step) ←
    episode_loop 1000 ids training states episode_rewards false 0;
  _ ← record_totals ids episode_rewards;
  _ ← modify (fun m => set_episode_lengths (episode_lengths m ++ [step]) m);
  mret episode_rewards.

(** *** [evaluate]

    The printed averages are not part of the model. *)

(** [eval_rewards[agent_id].append(sum(episode_rewards[agent_id]))] *)
Fixpoint append_totals (ids : list nat) (episode_rewards eval_rewards : gmap nat (list Q))
  : result (gmap nat (list Q)) :=
  match ids with
  | [] => Ok eval_rewards
  | agent_id :: ids' =>
      totals ← dict_item eval_rewards agent_id;
      rs ← dict_item episode_rewards agent_id;
      append_totals ids' episode_rewards
        (<[agent_id := totals ++ [py_sum rs]]> eval_rewards)
  end.

Fixpoint evaluation_episodes (num_episodes : nat) (ids : list nat)
  (eval_rewards : gmap nat (list Q)) : M (gmap nat (list Q)) :=
  match num_episodes with
  | O => mret eval_rewards
  | S num_episodes' =>
      episode_rewards ← run_episode false;
      eval_rewards ← lift (append_totals ids episode_rewards eval_rewards);
      evaluation_episodes num_episodes' ids eval_rewards
  end.

Definition evaluate (num_episodes : nat) : M unit :=
  m ← get;
  let ids := seq 0 (num_agents m) in
  _ ← evaluation_episodes num_episodes ids (dict_of ids []);
  mret tt.

End WithKernels.

End TrainingManager.

(** ** Notions for the statements about training and episodes *)

Section TrainingNotions.

Context `{Kernels}.

(** The world after the optimizer step of [train_step]: the exploration
    rate has decayed and the step is counted. *)
Definition counted (w1 : DQNAgent.World) : DQNAgent.World :=
  {| DQNAgent.self :=
       DQNAgent.set_step_count (DQNAgent.step_count (DQNAgent.self w1) + 1)
         (DQNAgent.set_epsilon
            (py_max (DQNAgent.epsilon_end (DQNAgent.self w1))
               (DQNAgent.epsilon (DQNAgent.self w1)
                * DQNAgent.epsilon_decay (DQNAgent.self w1)))
            (DQNAgent.self w1));
     DQNAgent.py_random := DQNAgent.py_random w1;
     DQNAgent.tf_random := DQNAgent.tf_random w1;
     DQNAgent.files := DQNAgent.files w1 |}.

(** The world in which the loss of a training step is recorded. *)
Definition recorded (loss : Q) (u : DQNAgent.World) : DQNAgent.World :=
  {| DQNAgent.self :=
       DQNAgent.set_loss_history
         (DQNAgent.loss_history (DQNAgent.self u) ++ [loss]) (DQNAgent.self u);
     DQNAgent.py_random := DQNAgent.py_random u;
     DQNAgent.tf_random := DQNAgent.tf_random u;
     DQNAgent.files := DQNAgent.files u |}.

(** The agent that [DQNAgent(state_dim)] constructs. *)
Definition new_agent (state_dim : nat) : DQNAgent.t :=
  DQNAgent.count_sync
    (DQNAgent.fresh DQNAgent.default_hidden_dims state_dim 5
       (1 # 10000) 1 (5 # 100) (995 # 1000) (99 # 100) 1000 64).

(** An agent that can act and train on observations of [n] entries: five
    actions, a batch that a memory of more than a thousand transitions
    fills, a nonzero sync period, two networks of one architecture that
    fit the observations and end in one output per action, and a memory
    of transitions between such observations. *)
Definition agent_ok (n : nat) (a : DQNAgent.t) : Prop :=
  DQNAgent.action_dim a = 5%nat /\
  (1 <= DQNAgent.batch_size a <= 1001)%nat /\
  DQNAgent.target_update_freq a <> 0%Z /\
  DQNNetwork.fits n (DQNNetwork.layers_list (DQNAgent.q_network a)) /\
  DQNNetwork.fits n (DQNNetwork.layers_list (DQNAgent.target_network a)) /\
  DQNNetwork.output_width n (DQNNetwork.layers_list (DQNAgent.q_network a))
  = DQNAgent.action_dim a /\
  DQNNetwork.architecture (DQNAgent.target_network a)
  = DQNNetwork.architecture (DQNAgent.q_network a) /\
  Forall (fun x => length (t_state x) = n /\ length (t_next_state x) = n /\
                   (0 <= t_action x < Z.of_nat (DQNAgent.action_dim a))%Z)
         (ReplayBuffer.buffer (DQNAgent.memory a)).

(** Only the online network of [a'] may differ from [a]. *)
Definition only_q (a a' : DQNAgent.t) : Prop :=
  a' = DQNAgent.set_q_network (DQNAgent.q_network a') a.

(** [a'] is [a] with [k] more transitions in its memory. *)
Definition pushed (k : nat) (a a' : DQNAgent.t) : Prop :=
  a' = DQNAgent.set_memory (DQNAgent.memory a') a /\
  ReplayBuffer.capacity (DQNAgent.memory a')
  = ReplayBuffer.capacity (DQNAgent.memory a) /\
  ReplayBuffer.len (DQNAgent.memory a')
  = (ReplayBuffer.len (DQNAgent.memory a) + k)%nat.

(** An agent that explores at every call and whose memory has room for
    [room] more transitions before a training step runs. *)
Definition exploring (room : nat) (a : DQNAgent.t) : Prop :=
  1 <= DQNAgent.epsilon a /\
  (ReplayBuffer.len (DQNAgent.memory a) + room <= 1000)%nat /\
  (1000 <= ReplayBuffer.capacity (DQNAgent.memory a))%nat.

(** An agent whose memory is warm: with one more transition it holds more
    than a thousand of them, so that an iteration of a training episode
    runs a training step. *)
Definition warm (a : DQNAgent.t) : Prop :=
  (1000 <= ReplayBuffer.len (DQNAgent.memory a))%nat /\
  (1001 <= ReplayBuffer.capacity (DQNAgent.memory a))%nat.

(** [a'] is a warm agent that has counted [k] more training steps than [a]
    and recorded [k] more losses. *)
Definition drilled (k : nat) (a a' : DQNAgent.t) : Prop :=
  DQNAgent.step_count a' = (DQNAgent.step_count a + Z.of_nat k)%Z /\
  length (DQNAgent.loss_history a')
  = (length (DQNAgent.loss_history a) + k)%nat /\
  warm a'.

(** A well-formed manager: as many agents as [num_agents], each of them
    fit for the observations of 583 entries that the environment
    returns, a list of rewards for every agent, and the environment that
    [GameEnvironment()] constructs. *)
Definition manager_ok (m : TrainingManager.t) : Prop :=
  length (TrainingManager.agents m) = TrainingManager.num_agents m /\
  Forall (agent_ok 583) (TrainingManager.agents m) /\
  (forall i, (i < TrainingManager.num_agents m)%nat ->
     is_Some (TrainingManager.episode_rewards m !! i)) /\
  GameEnvironment.processor (TrainingManager.env m)
  = GameStateProcessor.init 50 15 /\
  GameEnvironment.max_episode_steps (TrainingManager.env m) = 3000%Z.

(** What the loops of an episode leave alone in the manager. *)
Definition same_books (m m' : TrainingManager.t) : Prop :=
  TrainingManager.num_agents m' = TrainingManager.num_agents m /\
  TrainingManager.save_dir m' = TrainingManager.save_dir m /\
  TrainingManager.episode_rewards m' = TrainingManager.episode_rewards m /\
  TrainingManager.episode_lengths m' = TrainingManager.episode_lengths m /\
  TrainingManager.win_rates m' = TrainingManager.win_rates m /\
  length (TrainingManager.agents m') = length (TrainingManager.agents m).

End TrainingNotions.

(** A reward within the clipping range. *)
Definition bounded (r : Q) : Prop := - (5) <= r <= 5.

(** Whether an episode with [n] agents is done after [step] iterations:
    every [step] call advances the counter of the environment, and the
    flag of the last agent of an iteration is the one that the loop
    tests. *)
Definition done_at (n step : nat) : bool :=
  (0 <? step)%nat && (0 <? n)%nat && (3000 <=? Z.of_nat n * Z.of_nat step)%Z.

(** The number of iterations at which the loop of an episode ends, from
    [step] on. *)
Fixpoint episodes_end (remaining n step : nat) : nat :=
  match remaining with
  | O => step
  | S remaining' =>
      if done_at n step then step else episodes_end remaining' n (S step)
  end.

(** The number of iterations of an episode with [n] agents. *)
Definition episode_length (n : nat) : nat :=
  if (n =? 0)%nat then 1000%nat else Nat.min 1000 (2999 / n + 1).

(** ** Concrete inputs for the examples *)

(** A generator whose raw draws are 3, 10, 17, ... *)
Definition example_random : Random.state :=
  {| Random.draws := fun i => N.of_nat (7 * i + 3); Random.pos := 0 |}.

Definition zip_array (f : Q -> Q -> Q) (a b : ndarray) : ndarray :=
  match a, b with
  | Arr1 v, Arr1 v' => Arr1 (zip_with f v v')
  | Arr2 m, Arr2 m' => Arr2 (zip_with (zip_with f) m m')
  | _, _ => a
  end.

(** Kernels to run the examples with: the square root to six decimals,
    the gradient that is zero everywhere, and plain gradient descent in
    the place of Adam. *)
Definition example_kernels : Kernels := {|
  sqrt := fun x => Z.sqrt (Qnum x * 10 ^ 12 / Zpos (Qden x)) # 10 ^ 6;
  optimizer_state := Q;
  adam := fun learning_rate => learning_rate;
  tape_gradient := fun variables _ _ _ _ => map (map_array (fun _ => 0)) variables;
  apply_gradients := fun learning_rate gradients variables =>
    (learning_rate,
     zip_with (zip_array (fun g x => x - learning_rate * g)) gradients variables)
|}.

(** A random state for TensorFlow whose draws spread over the 53 bits. *)
Definition example_tf : Random.state :=
  {| Random.draws := fun i =>
       (N.of_nat i * 3141592653589793 + 2718281828459045)%N;
     Random.pos := 0 |}.

Definition example_transition (width : nat) (reward : Q) : Transition :=
  {| t_state := replicate width 1; t_action := 0%Z; t_reward := reward;
     t_next_state := replicate width 1; t_done := false |}.

(** The world of [DQNAgent(state_dim=4, epsilon_start=0.0501,
    batch_size=1)] after one stored experience. *)
Definition near_floor_world : @DQNAgent.World example_kernels :=
  snd (@DQNAgent.store_experience example_kernels (example_transition 4 1)
    (snd (@DQNAgent.init_with example_kernels DQNAgent.default_hidden_dims 4 5
            (1 # 10000) (501 # 10000) (5 # 100) (995 # 1000) (99 # 100)
            1000 1 example_random example_tf ∅))).

(** The world of [DQNAgent(state_dim=4)]. *)
Definition new_agent_world : @DQNAgent.World example_kernels :=
  snd (@DQNAgent.init example_kernels 4 example_random example_tf ∅).

(** A world whose agent has one hidden layer of two units, small enough
    to run forward passes in. *)
Definition small_world : @DQNAgent.World example_kernels :=
  snd (@DQNAgent.init_with example_kernels [2%nat] 2 2
         (1 # 10000) 1 (5 # 100) (995 # 1000) (99 # 100) 1 1
         example_random example_tf ∅).

(** Another agent of that architecture, whose initialiser draws from a
    different stream. *)
Definition other_small_world : @DQNAgent.World example_kernels :=
  snd (@DQNAgent.init_with example_kernels [2%nat] 2 2
         (1 # 10000) 1 (5 # 100) (995 # 1000) (99 # 100) 1 1
         example_random example_random ∅).

(** The world of [DQNAgent(state_dim=4, target_update_freq=0,
    batch_size=1)] after one stored experience. *)
Definition zero_period_world : @DQNAgent.World example_kernels :=
  snd (@DQNAgent.store_experience example_kernels (example_transition 4 1)
    (snd (@DQNAgent.init_with example_kernels DQNAgent.default_hidden_dims 4 5
            (1 # 10000) 1 (5 # 100) (995 # 1000) (99 # 100)
            0 1 example_random example_tf ∅))).

(** The world of [TrainingManager()], with its three agents. *)
Definition example_manager : @TrainingManager.World example_kernels :=
  {| TrainingManager.self :=
       {| TrainingManager.num_agents := 3;
          TrainingManager.save_dir := "dqn_models";
          TrainingManager.env := GameEnvironment.init 3000;
          TrainingManager.agents := replicate 3 (new_agent 581);
          TrainingManager.episode_rewards := dict_of (seq 0 3) [];
          TrainingManager.episode_lengths := [];
          TrainingManager.win_rates := dict_of (seq 0 3) [] |};
     TrainingManager.py_random := example_random;
     TrainingManager.tf_random := example_tf;
     TrainingManager.files := ∅ |}.

(** A manager whose three agents hold a thousand transitions each. *)
Definition warm_manager : @TrainingManager.World example_kernels :=
  {| TrainingManager.self :=
       {| TrainingManager.num_agents := 3;
          TrainingManager.save_dir := "dqn_models";
          TrainingManager.env := GameEnvironment.init 3000;
          TrainingManager.agents :=
            replicate 3
              (DQNAgent.set_memory
                 {| ReplayBuffer.buffer :=
                      replicate 1000 (example_transition 583 0);
                    ReplayBuffer.capacity := 10000 |}
                 (new_agent 581));
          TrainingManager.episode_rewards := dict_of (seq 0 3) [];
          TrainingManager.episode_lengths := [];
          TrainingManager.win_rates := dict_of (seq 0 3) [] |};
     TrainingManager.py_random := example_random;
     TrainingManager.tf_random := example_tf;
     TrainingManager.files := ∅ |}.

(** The two coordinates of the first counterexample, [2.0 ** 1023] and its
    opposite: finite floats whose difference is out of range. *)
Definition far : Binary64.float := Binary64.of_Z (2 ^ 1023).

(** An environment that was rewarded at [(far, 0, 0)]. *)
Definition far_environment : Binary64.GameEnvironment.t :=
  {| Binary64.GameEnvironment.max_episode_steps := 3000;
     Binary64.GameEnvironment.current_step := 1;
     Binary64.GameEnvironment.processor := GameStateProcessor.init 50 15;
     Binary64.GameEnvironment.previous_owned_points := 0;
     Binary64.GameEnvironment.previous_position := Some (far, Binary64.zero, Binary64.zero) |}.

(** The agent is still at [(far, 0, 0)]; the one critical point, which
    nobody owns, is at [(-far, 0, 0)]. *)
Definition far_state : Binary64.GameState :=
  {| Binary64.agent_position := (far, Binary64.zero, Binary64.zero);
     Binary64.critical_points :=
       [ {| Binary64.position := (Binary64.opp far, Binary64.zero, Binary64.zero);
            Binary64.color := None |} ];
     Binary64.agent_owned_points := None |}.

(** The agent is at [(2.0 ** 600, 0, 0)], the critical point at the
    origin. *)
Definition wide_state : Binary64.GameState :=
  {| Binary64.agent_position :=
       (Binary64.of_Z (2 ^ 600), Binary64.zero, Binary64.zero);
     Binary64.critical_points :=
       [ {| Binary64.position := (Binary64.zero, Binary64.zero, Binary64.zero);
            Binary64.color := None |} ];
     Binary64.agent_owned_points := None |}.

(** * Properties *)

(** ** Properties of the state encoder *)

Section EncoderFacts.

Import GameStateProcessor.

Lemma bind_ok {A B : Type} (r : result A) (k : A -> result B) (b : B) :
  r ≫= k = Ok b -> exists a, r = Ok a /\ k a = Ok b.
Proof. destruct r as [a|e]; simpl; [eauto | discriminate]. Qed.

Lemma py_div_ok a b : ~ b == 0 -> py_div a b = Ok (a / b).
Proof.
  intros Hb. unfold py_div.
  destruct (Qeq_bool b 0) eqn:E; [|reflexivity].
  apply Qeq_bool_iff in E. contradiction.
Qed.

Lemma py_div_raise a b : b == 0 -> py_div a b = Raise ZeroDivisionError.
Proof.
  intros Hb. unfold py_div. apply Qeq_bool_iff in Hb. now rewrite Hb.
Qed.

Lemma py_div_cases a b :
  py_div a b = Ok (a / b) \/ py_div a b = Raise ZeroDivisionError.
Proof. unfold py_div. destruct (Qeq_bool b 0); auto. Qed.

Lemma normalize_ok p m :
  ~ m == 0 -> exists v, normalize p m = Ok v /\ length v = 3%nat.
Proof.
  intros Hm. destruct p as [[x y] z]. unfold normalize.
  rewrite !py_div_ok by (assumption || (intros H; discriminate H)).
  simpl. rewrite !py_div_ok by (assumption || (intros H; discriminate H)).
  simpl. eauto.
Qed.

Lemma normalize_length p m v : normalize p m = Ok v -> length v = 3%nat.
Proof.
  destruct p as [[x y] z]. unfold normalize. intros H.
  repeat (apply bind_ok in H; destruct H as (? & _ & H)).
  now inversion H.
Qed.

Lemma normalize_error p m e :
  normalize p m = Raise e -> e = ZeroDivisionError.
Proof.
  destruct p as [[x y] z]. unfold normalize.
  repeat match goal with
  | |- context [py_div ?a ?b] =>
      destruct (py_div_cases a b) as [-> | ->]; simpl
  end; congruence.
Qed.

Lemma py_setitem_length {A : Type} (l : list A) i x v :
  py_setitem l i x = Ok v -> length v = length l.
Proof.
  unfold py_setitem. intros Hv.
  repeat case_match; inversion Hv; apply length_insert.
Qed.

Lemma py_setitem_error {A : Type} (l : list A) i x e :
  py_setitem l i x = Raise e -> e = IndexError.
Proof. unfold py_setitem. repeat case_match; congruence. Qed.

Lemma color_onehot_length c v : color_onehot c = Ok v -> length v = 4%nat.
Proof.
  unfold color_onehot. destruct c; intros H; apply py_setitem_length in H; exact H.
Qed.

Lemma color_onehot_ok c :
  color_accepted c -> exists v, color_onehot c = Ok v.
Proof.
  unfold color_accepted, color_onehot, py_setitem, py_min_int.
  destruct c as [c|]; [|eauto]. intros Hc.
  change (Z.of_nat (length [0; 0; 0; 0])) with 4%Z.
  destruct (3 <? c + 1)%Z eqn:E3.
  - simpl. eauto.
  - destruct ((0 <=? c + 1) && (c + 1 <? 4))%Z eqn:E1; [eauto|].
    destruct ((- (4) <=? c + 1) && (c + 1 <? 0))%Z eqn:E2; [eauto|].
    exfalso. lia.
Qed.

Lemma color_onehot_raise c :
  ~ color_accepted c -> color_onehot c = Raise IndexError.
Proof.
  unfold color_accepted, color_onehot, py_setitem, py_min_int.
  destruct c as [c|]; [|tauto]. intros Hc.
  change (Z.of_nat (length [0; 0; 0; 0])) with 4%Z.
  destruct (3 <? c + 1)%Z eqn:E3; [exfalso; lia|].
  destruct ((0 <=? c + 1) && (c + 1 <? 4))%Z eqn:E1; [exfalso; lia|].
  destruct ((- (4) <=? c + 1) && (c + 1 <? 0))%Z eqn:E2; [exfalso; lia|].
  reflexivity.
Qed.

Lemma mapM_ok {A B : Type} (f : A -> result B) (l : list A) :
  (forall a, a ∈ l -> exists b, f a = Ok b) -> exists bs, mapM f l = Ok bs.
Proof.
  induction l as [|a l IH]; intros Hf; simpl; [eauto|].
  destruct (Hf a) as [b ->]; [left|]. simpl.
  destruct IH as [bs ->]; [|simpl; eauto].
  intros a' Ha'. apply Hf. now right.
Qed.

Lemma mapM_error {A B : Type} (f : A -> result B) (l : list A) (e : PyError) :
  mapM f l = Raise e -> exists a, a ∈ l /\ f a = Raise e.
Proof.
  induction l as [|a l IH]; simpl; [discriminate|].
  destruct (f a) as [b|e'] eqn:Ea; simpl.
  - destruct (mapM f l) as [bs|e'] eqn:El; simpl; [discriminate|].
    intros H. destruct IH as (a' & Ha' & Hf); [congruence|].
    exists a'. split; [now right | exact Hf].
  - intros [= ->]. exists a. split; [left | exact Ea].
Qed.

Lemma cp_row_length M G cps m i v :
  cp_row (init M G) cps m i = Ok v ->
  length v = (7 + if (i <? length cps)%nat then 1 else 0)%nat.
Proof.
  unfold cp_row. destruct (cps !! i) as [cp|] eqn:Ei.
  - apply lookup_lt_Some in Ei. apply Nat.ltb_lt in Ei. rewrite Ei.
    intros H.
    apply bind_ok in H. destruct H as (p & Hp & H).
    apply bind_ok in H. destruct H as (o & Ho & H).
    inversion H. rewrite !length_app.
    rewrite (normalize_length _ _ _ Hp), (color_onehot_length _ _ Ho).
    reflexivity.
  - apply lookup_ge_None in Ei. apply Nat.ltb_ge in Ei. rewrite Ei.
    intros [= <-]. reflexivity.
Qed.

Lemma rows_length M G cps m : forall n s rows,
  mapM (cp_row (init M G) cps m) (seq s n) = Ok rows ->
  length (concat rows)
  = (n * 7 + (Nat.min (length cps) (s + n) - Nat.min (length cps) s))%nat.
Proof.
  induction n as [|n IH]; intros s rows; simpl.
  - intros [= <-]. simpl. lia.
  - intros H. apply bind_ok in H. destruct H as (row & Hrow & H).
    apply bind_ok in H. destruct H as (rest & Hrest & H).
    inversion H. simpl. rewrite length_app.
    rewrite (cp_row_length _ _ _ _ _ _ Hrow), (IH _ _ Hrest).
    destruct (s <? length cps)%nat eqn:E;
      [apply Nat.ltb_lt in E | apply Nat.ltb_ge in E]; lia.
Qed.

Lemma process_state_length M G gs v :
  process_state (init M G) gs = Ok v ->
  length v = encoded_length (init M G) gs.
Proof.
  unfold process_state, encoded_length, nav_grid_of. intros H.
  apply bind_ok in H. destruct H as (p & Hp & H).
  apply bind_ok in H. destruct H as (rows & Hrows & H).
  inversion H. rewrite !length_app.
  rewrite (normalize_length _ _ _ Hp), (rows_length _ _ _ _ _ _ _ Hrows).
  simpl. lia.
Qed.

Lemma process_state_ok M G gs :
  observation_accepted (init M G) gs ->
  exists v, process_state (init M G) gs = Ok v.
Proof.
  intros [Hm Hc]. unfold process_state.
  destruct (normalize_ok (agent_position gs) _ Hm) as (p & -> & _). simpl.
  destruct (mapM_ok (cp_row (init M G) (critical_points gs)
                            (default 10 (map_size gs))) (seq 0 M))
    as [rows ->]; [|simpl; eauto].
  intros i Hi. apply elem_of_seq in Hi. unfold cp_row.
  destruct (critical_points gs !! i) as [cp|] eqn:Ei; [|eauto].
  destruct (normalize_ok (position cp) _ Hm) as (q & -> & _). simpl.
  destruct (color_onehot_ok (color cp)) as [o ->]; [|simpl; eauto].
  rewrite Forall_forall in Hc. apply Hc.
  apply list_elem_of_lookup. exists i.
  rewrite lookup_take_lt; [exact Ei | simpl in *; lia].
Qed.

Lemma process_state_error M G gs e :
  process_state (init M G) gs = Raise e ->
  e = ZeroDivisionError \/ e = IndexError.
Proof.
  unfold process_state.
  destruct (normalize _ _) as [p|e0] eqn:Hp; simpl.
  - destruct (mapM _ _) as [rows|e1] eqn:Hrows; simpl; [discriminate|].
    intros [= ->]. apply mapM_error in Hrows.
    destruct Hrows as (i & _ & Hi). unfold cp_row in Hi.
    destruct (critical_points gs !! i) as [cp|]; [|discriminate].
    destruct (normalize (position cp) _) as [q|e2] eqn:Hq; simpl in Hi.
    + destruct (color_onehot (color cp)) as [o|e3] eqn:Ho; simpl in Hi;
        [discriminate|]. injection Hi as ->. right.
      unfold color_onehot in Ho.
      destruct (color cp); now apply py_setitem_error in Ho.
    + injection Hi as ->. left. now apply normalize_error in Hq.
  - intros [= ->]. left. now apply normalize_error in Hp.
Qed.

End EncoderFacts.

(** ** Properties of the sampler *)

Section SamplerFacts.

Lemma randbelow_lt n r : (0 < n)%nat -> (fst (Random.randbelow n r) < n)%nat.
Proof.
  intros Hn. unfold Random.randbelow, Random.next. simpl.
  assert (draws_lt : (Random.draws r (Random.pos r) mod N.of_nat n < N.of_nat n)%N)
    by (apply N.mod_lt; lia).
  lia.
Qed.

Lemma randbelow_state n r :
  snd (Random.randbelow n r)
  = {| Random.draws := Random.draws r; Random.pos := S (Random.pos r) |}.
Proof. reflexivity. Qed.

(** Moving the last live entry of the pool into the vacancy keeps exactly
    the entries that were not picked. *)
Lemma pool_vacancy (pool : list nat) (m j : nat) :
  (j < m)%nat -> (m <= length pool)%nat ->
  nth j pool O :: take (m - 1) (<[j := nth (m - 1) pool O]> pool)
  ≡ₚ take m pool.
Proof.
  intros Hj Hm.
  destruct (lookup_lt_is_Some_2 pool (m - 1)) as [y Hy]; [lia|].
  destruct (lookup_lt_is_Some_2 pool j) as [x Hx]; [lia|].
  rewrite (nth_lookup_Some _ _ _ _ Hy), (nth_lookup_Some _ _ _ _ Hx).
  replace (take m pool) with (take (m - 1) pool ++ [y]).
  2:{ replace m with (S (m - 1)) at 2 by lia. symmetry. now apply take_S_r. }
  destruct (decide (j = m - 1)%nat) as [->|Hne].
  - rewrite take_insert_ge by lia.
    assert (x = y) as -> by congruence.
    apply Permutation_cons_append.
  - rewrite take_insert_lt by lia.
    assert (Hxt : take (m - 1) pool !! j = Some x)
      by (rewrite lookup_take_lt by lia; exact Hx).
    rewrite insert_take_drop by (rewrite length_take; lia).
    rewrite <- (take_drop_middle _ _ _ Hxt) at 3.
    set (a := take j (take (m - 1) pool)).
    set (b := drop (S j) (take (m - 1) pool)).
    rewrite <- app_assoc. simpl.
    rewrite <- (Permutation_middle a (b ++ [y]) x).
    apply perm_skip, Permutation_app_head, Permutation_cons_append.
Qed.

Lemma sample_loop_spec : forall k pool m r res r',
  (k <= m)%nat -> (m <= length pool)%nat -> NoDup (take m pool) ->
  Random.sample_loop pool m k r = (res, r') ->
  length res = k /\ NoDup res /\ (forall x, x ∈ res -> x ∈ take m pool).
Proof.
  induction k as [|k IH]; intros pool m r res r' Hk Hm Hnd;
    cbn [Random.sample_loop].
  - intros [= <- <-]. repeat split; [constructor | intros x Hx; inversion Hx].
  - pose proof (randbelow_lt m r ltac:(lia)) as Hj.
    destruct (Random.randbelow m r) as [j r1]. simpl in Hj.
    destruct (Random.sample_loop (<[j := nth (m - 1) pool O]> pool) (m - 1) k r1)
      as [rest r2] eqn:Hrest.
    intros [= <- <-].
    pose proof (pool_vacancy pool m j Hj Hm) as Hperm.
    assert (Hnd' : NoDup (nth j pool O
                    :: take (m - 1) (<[j := nth (m - 1) pool O]> pool)))
      by (rewrite Hperm; exact Hnd).
    apply NoDup_cons in Hnd'. destruct Hnd' as [Hfresh Hnd'].
    assert (Hk' : (k <= m - 1)%nat) by lia.
    assert (Hm' : (m - 1 <= length (<[j := nth (m - 1) pool O]> pool))%nat)
      by (rewrite length_insert; lia).
    destruct (IH _ _ _ _ _ Hk' Hm' Hnd' Hrest) as (Hlen & Hndr & Hsub).
    split; [simpl; congruence|]. split.
    + apply NoDup_cons. split; [|exact Hndr].
      intros Hin. apply Hfresh, Hsub, Hin.
    + intros x Hx. rewrite <- Hperm.
      apply elem_of_cons in Hx. destruct Hx as [->|Hx]; [left|].
      right. apply Hsub, Hx.
Qed.

Lemma sample_indices_spec n k r idxs r' :
  (k <= n)%nat -> Random.sample_indices n k r = (idxs, r') ->
  length idxs = k /\ NoDup idxs /\ Forall (fun i => (i < n)%nat) idxs.
Proof.
  intros Hk Hs. unfold Random.sample_indices in Hs.
  apply sample_loop_spec in Hs; [|exact Hk|now rewrite length_seq|].
  - destruct Hs as (Hlen & Hnd & Hsub). repeat split; [exact Hlen|exact Hnd|].
    apply Forall_forall. intros i Hi. apply Hsub in Hi.
    rewrite take_ge in Hi by (rewrite length_seq; lia).
    apply elem_of_seq in Hi. lia.
  - rewrite take_ge by (rewrite length_seq; lia). apply NoDup_seq.
Qed.

(** *** The selection as a function of the values of [randbelow] *)

Lemma sample_loop_values : forall k pool m r r',
  Random.randbelow_values m k r = Random.randbelow_values m k r' ->
  fst (Random.sample_loop pool m k r) = fst (Random.sample_loop pool m k r').
Proof.
  induction k as [|k IH]; intros pool m r r' Hv; [reflexivity|].
  cbn [Random.sample_loop Random.randbelow_values] in *.
  destruct (Random.randbelow m r) as [j r1].
  destruct (Random.randbelow m r') as [j' r1'].
  injection Hv as -> Hv.
  specialize (IH (<[j' := nth (m - 1) pool O]> pool) (m - 1)%nat r1 r1' Hv).
  destruct (Random.sample_loop _ _ k r1) as [rest r2].
  destruct (Random.sample_loop _ _ k r1') as [rest' r2'].
  cbn [fst] in *. now rewrite IH.
Qed.

Lemma randbelow_values_below : forall k m r,
  (k <= m)%nat ->
  length (Random.randbelow_values m k r) = k /\
  Random.below m (Random.randbelow_values m k r).
Proof.
  induction k as [|k IH]; intros m r Hk; [split; [reflexivity|exact I]|].
  cbn [Random.randbelow_values].
  pose proof (randbelow_lt m r ltac:(lia)) as Hj.
  destruct (Random.randbelow m r) as [j r1]. cbn [fst] in Hj.
  destruct (IH (m - 1)%nat r1 ltac:(lia)) as [Hl Hb].
  cbn [length Random.below]. split; [now rewrite Hl|]. split; assumption.
Qed.

(** Different values pick different positions. *)
Lemma sample_loop_injective : forall k pool m r r',
  (k <= m)%nat -> (m <= length pool)%nat -> NoDup (take m pool) ->
  fst (Random.sample_loop pool m k r) = fst (Random.sample_loop pool m k r') ->
  Random.randbelow_values m k r = Random.randbelow_values m k r'.
Proof.
  induction k as [|k IH]; intros pool m r r' Hk Hm Hnd Hs; [reflexivity|].
  cbn [Random.sample_loop Random.randbelow_values] in *.
  pose proof (randbelow_lt m r ltac:(lia)) as Hj.
  pose proof (randbelow_lt m r' ltac:(lia)) as Hj'.
  destruct (Random.randbelow m r) as [j r1].
  destruct (Random.randbelow m r') as [j' r1']. cbn [fst] in Hj, Hj'.
  destruct (Random.sample_loop (<[j := _]> pool) _ k r1) as [rest r2] eqn:E.
  destruct (Random.sample_loop (<[j' := _]> pool) _ k r1') as [rest' r2'] eqn:E'.
  cbn [fst] in Hs. injection Hs as Hx Hrest.
  assert (j = j') as <-.
  { destruct (lookup_lt_is_Some_2 pool j ltac:(lia)) as [x Hxj].
    destruct (lookup_lt_is_Some_2 pool j' ltac:(lia)) as [x' Hxj'].
    rewrite (nth_lookup_Some _ _ _ _ Hxj), (nth_lookup_Some _ _ _ _ Hxj') in Hx.
    subst x'.
    apply (NoDup_lookup (take m pool) j j' x Hnd);
      rewrite lookup_take_lt by lia; assumption. }
  f_equal.
  pose proof (pool_vacancy pool m j Hj Hm) as Hperm.
  assert (Hnd' : NoDup (nth j pool O
                  :: take (m - 1) (<[j := nth (m - 1) pool O]> pool)))
    by (rewrite Hperm; exact Hnd).
  apply NoDup_cons in Hnd' as [_ Hnd'].
  apply (IH (<[j := nth (m - 1) pool O]> pool) (m - 1)%nat r1 r1');
    [lia | rewrite length_insert; lia | exact Hnd' |].
  rewrite E, E'. exact Hrest.
Qed.

Lemma below_length : forall js m, Random.below m js -> (length js <= m)%nat.
Proof.
  induction js as [|j js IH]; intros m Hb; cbn [length]; [lia|].
  destruct Hb as [Hj Hb]. specialize (IH (m - 1)%nat Hb). lia.
Qed.

(** Every sequence of values is the one that some random source gives. *)
Lemma randbelow_values_any : forall js m f p,
  Random.below m js ->
  (forall i, (i < length js)%nat -> f (p + i)%nat = N.of_nat (nth i js O)) ->
  Random.randbelow_values m (length js)
    {| Random.draws := f; Random.pos := p |} = js.
Proof.
  induction js as [|j js IH]; intros m f p Hb Hf; [reflexivity|].
  destruct Hb as [Hj Hb]. cbn [length Random.randbelow_values].
  unfold Random.randbelow, Random.next. cbn [Random.draws Random.pos].
  rewrite <- (Nat.add_0_r p) at 1. rewrite (Hf 0%nat) by (cbn; lia).
  cbn [nth]. f_equal.
  - rewrite N.mod_small by lia. lia.
  - apply IH; [exact Hb|]. intros i Hi.
    replace (S p + i)%nat with (p + S i)%nat by lia.
    rewrite Hf by (cbn; lia). reflexivity.
Qed.

Lemma randbelow_values_exist (js : list nat) (m : nat) :
  Random.below m js ->
  exists r, Random.randbelow_values m (length js) r = js.
Proof.
  intros Hb.
  exists {| Random.draws := fun i => N.of_nat (nth i js O); Random.pos := 0 |}.
  apply randbelow_values_any; [exact Hb | reflexivity].
Qed.

(** Every selection of distinct live positions is picked by some values. *)
Lemma sample_loop_surjective : forall xs pool m,
  (m <= length pool)%nat -> NoDup (take m pool) ->
  NoDup xs -> (forall x, x ∈ xs -> x ∈ take m pool) ->
  exists js, length js = length xs /\ Random.below m js /\
    forall r, Random.randbelow_values m (length xs) r = js ->
              fst (Random.sample_loop pool m (length xs) r) = xs.
Proof.
  induction xs as [|x xs IH]; intros pool m Hm Hnd Hxs Hsub.
  - exists []. repeat split.
  - apply NoDup_cons in Hxs as [Hx Hxs].
    destruct (proj1 (list_elem_of_lookup _ _) (Hsub x ltac:(left))) as [j Hj].
    pose proof (lookup_lt_Some _ _ _ Hj) as Hjm. rewrite length_take in Hjm.
    assert (Hjlt : (j < m)%nat) by lia.
    rewrite lookup_take_lt in Hj by lia.
    pose proof (pool_vacancy pool m j Hjlt Hm) as Hperm.
    rewrite (nth_lookup_Some _ _ _ _ Hj) in Hperm.
    assert (Hnd' : NoDup (x :: take (m - 1) (<[j := nth (m - 1) pool O]> pool)))
      by (rewrite Hperm; exact Hnd).
    apply NoDup_cons in Hnd' as [_ Hnd'].
    destruct (IH (<[j := nth (m - 1) pool O]> pool) (m - 1)%nat)
      as (js & Hlen & Hb & Hpick);
      [rewrite length_insert; lia | exact Hnd' | exact Hxs | |].
    { intros y Hy. assert (Hy' : y ∈ take m pool) by (apply Hsub; now right).
      rewrite <- Hperm in Hy'. apply elem_of_cons in Hy' as [->|Hy']; [|exact Hy'].
      contradiction. }
    exists (j :: js). cbn [length Random.below].
    split; [now rewrite Hlen|]. split; [split; assumption|].
    intros r Hr. cbn [Random.sample_loop Random.randbelow_values] in *.
    destruct (Random.randbelow m r) as [j0 r1].
    injection Hr as -> Hr. specialize (Hpick r1 Hr).
    destruct (Random.sample_loop _ _ (length xs) r1) as [rest r2].
    cbn [fst] in *. rewrite (nth_lookup_Some _ _ _ _ Hj). now rewrite Hpick.
Qed.

(** The selection is a bijection between the values of the [randbelow]
    calls and the ordered selections of distinct positions. *)
Lemma sample_indices_uniform (n k : nat) :
  (forall idxs, length idxs = k -> NoDup idxs ->
     Forall (fun i => (i < n)%nat) idxs ->
     exists js, length js = k /\ Random.below n js /\
       (forall r, fst (Random.sample_indices n k r) = idxs
                  <-> Random.randbelow_values n k r = js) /\
       (forall js', length js' = k -> Random.below n js' ->
          (forall r, Random.randbelow_values n k r = js' ->
                     fst (Random.sample_indices n k r) = idxs) ->
          js' = js)) /\
  (forall js, length js = k -> Random.below n js ->
     exists r, Random.randbelow_values n k r = js).
Proof.
  split.
  - intros idxs Hlen Hnd Hlt.
    cut (exists js, length js = k /\ Random.below n js /\
           forall r, fst (Random.sample_indices n k r) = idxs
                     <-> Random.randbelow_values n k r = js).
    { intros (js & Hl & Hb & Hiff). exists js.
      split; [exact Hl|]. split; [exact Hb|]. split; [exact Hiff|].
      intros js' Hl' Hb' Hpick'.
      destruct (randbelow_values_exist js' n Hb') as [r Hr].
      rewrite Hl' in Hr. rewrite <- Hr. apply Hiff, Hpick', Hr. }
    subst k.
    assert (Hpool : NoDup (take n (seq 0 n)))
      by (rewrite take_ge by (rewrite length_seq; lia); apply NoDup_seq).
    destruct (sample_loop_surjective idxs (seq 0 n) n)
      as (js & Hl & Hb & Hpick);
      [rewrite length_seq; lia | exact Hpool | exact Hnd | |].
    { intros x Hx. rewrite take_ge by (rewrite length_seq; lia).
      apply elem_of_seq. rewrite Forall_forall in Hlt. specialize (Hlt x Hx). lia. }
    exists js. split; [exact Hl|]. split; [exact Hb|].
    intros r. split; [|apply Hpick].
    intros Hr. destruct (randbelow_values_exist js n Hb) as [r0 Hr0].
    rewrite Hl in Hr0. rewrite <- Hr0.
    apply (sample_loop_injective (length idxs) (seq 0 n) n r r0);
      [ | rewrite length_seq; lia | exact Hpool | ].
    + rewrite <- Hl. now apply below_length.
    + unfold Random.sample_indices in Hr. rewrite Hr. symmetry.
      apply Hpick. exact Hr0.
  - intros js <- Hb. apply randbelow_values_exist. exact Hb.
Qed.

(** Reading a list at positions that all exist. *)
Lemma omap_lookup_total {A : Type} (l : list A) (idxs : list nat) :
  Forall (fun i => (i < length l)%nat) idxs ->
  Forall2 (fun i x => l !! i = Some x) idxs (omap (fun i => l !! i) idxs).
Proof.
  induction 1 as [|i idxs Hi _ IH]; simpl; [constructor|].
  destruct (lookup_lt_is_Some_2 l i Hi) as [x Hx]. rewrite Hx.
  now constructor.
Qed.

End SamplerFacts.

(** ** The state encoder: C1 and C7 *)

Section EncoderClaims.

Import GameStateProcessor.

Lemma compute_state_dim_formula M G :
  compute_state_dim (init M G) = (3 + M * 7 + G * G + 1 + 2)%nat.
Proof. reflexivity. Qed.

(** The vector has the length of [compute_state_dim] exactly when the
    encoded points and the navigation grid together fill the grid's share. *)
Lemma process_state_length_agrees M G gs v :
  process_state (init M G) gs = Ok v ->
  length v = compute_state_dim (init M G) <->
  (Nat.min (length (critical_points gs)) M
     + length (nav_grid_of (init M G) gs) = G * G)%nat.
Proof.
  intros Hv. rewrite (process_state_length _ _ _ _ Hv).
  unfold encoded_length, compute_state_dim. simpl. lia.
Qed.

(** C1: [compute_state_dim] returns [3 + max_points*7 + grid_size*grid_size
    + 1 + 2], which is 581 for 50 points and a grid of 15; but
    [process_state] does not return a vector of that length for every
    observation: on the observation that [send_command_to_game] returns,
    with its two critical points, the vector has 583 entries.  Each
    encoded point takes eight entries while [cp_feature_dim] is 7. *)
Theorem C1_encode_length_differs_from_state_dim :
  (forall M G, compute_state_dim (init M G) = (3 + M * 7 + G * G + 1 + 2)%nat) /\
  compute_state_dim (init 50 15) = 581%nat /\
  exists v, process_state (init 50 15) mock_state = Ok v /\ length v = 583%nat.
Proof.
  split; [intros; apply compute_state_dim_formula|]. split; [reflexivity|].
  destruct (process_state (init 50 15) mock_state) as [v|e] eqn:E.
  - exists v. split; [reflexivity|].
    now rewrite (process_state_length _ _ _ _ E).
  - vm_compute in E. discriminate E.
Qed.

(** C7, as the claim states it, fails: the default encoder returns a
    vector of 583 entries on the mock observation, where
    [compute_state_dim] is 581, and raises nothing. *)
Lemma C7_counterexample :
  exists v, process_state (init 50 15) mock_state = Ok v /\
            length v <> compute_state_dim (init 50 15).
Proof.
  destruct (process_state (init 50 15) mock_state) as [v|e] eqn:E.
  - exists v. split; [reflexivity|].
    rewrite (process_state_length _ _ _ _ E). vm_compute. discriminate.
  - vm_compute in E. discriminate E.
Qed.

(** The same with a navigation grid that does not fit the configured grid
    size and no critical point at all. *)
Lemma encode_wrong_grid_returns :
  exists v, process_state (init 50 10) empty_state = Ok v /\
            length v = 581%nat /\ compute_state_dim (init 50 10) = 456%nat.
Proof.
  destruct (process_state (init 50 10) empty_state) as [v|e] eqn:E.
  - exists v. split; [reflexivity|].
    now rewrite (process_state_length _ _ _ _ E).
  - vm_compute in E. discriminate E.
Qed.

(** C7 (amended): [process_state] checks no length and raises no
    [ShapeError].  On every observation with a nonzero map size and
    accepted colour indices it returns the vector it built, whatever its
    length: the navigation grid is appended as it comes, so that a grid
    with more or fewer entries gives a vector with as many more or fewer
    entries, and some grid makes the length differ from
    [compute_state_dim]. *)
Theorem C7_encode_returns_unchecked_length M G gs :
  observation_accepted (init M G) gs ->
  exists v,
    process_state (init M G) gs = Ok v /\
    (forall grid, exists v',
       process_state (init M G) (with_navigation_grid grid gs) = Ok v' /\
       (length v' + length (nav_grid_of (init M G) gs)
        = length v + length grid)%nat) /\
    (exists grid v',
       process_state (init M G) (with_navigation_grid grid gs) = Ok v' /\
       length v' <> compute_state_dim (init M G)).
Proof.
  intros Hacc. destruct (process_state_ok M G gs Hacc) as [v Hv].
  pose proof (process_state_length _ _ _ _ Hv) as Hlen.
  assert (Hgrid : forall grid, exists v',
            process_state (init M G) (with_navigation_grid grid gs) = Ok v' /\
            (length v' + length (nav_grid_of (init M G) gs)
             = length v + length grid)%nat).
  { intros grid.
    destruct (process_state_ok M G (with_navigation_grid grid gs) Hacc)
      as [v' Hv'].
    exists v'. split; [exact Hv'|].
    rewrite (process_state_length _ _ _ _ Hv'), Hlen.
    unfold encoded_length, nav_grid_of, with_navigation_grid.
    cbn [critical_points navigation_grid default]. unfold id. lia. }
  exists v. split; [exact Hv|]. split; [exact Hgrid|].
  set (grid := replicate (S (compute_state_dim (init M G))) (0 : Q)).
  destruct (Hgrid grid) as (v' & Hv' & Hl).
  exists grid, v'. split; [exact Hv'|].
  unfold grid in Hl. rewrite length_replicate in Hl.
  rewrite Hlen in Hl. unfold encoded_length in Hl. lia.
Qed.

Lemma C7_encode_returns_unchecked_length_witness :
  exists v,
    process_state (init 50 10) empty_state = Ok v /\
    (forall grid, exists v',
       process_state (init 50 10) (with_navigation_grid grid empty_state)
       = Ok v' /\
       (length v' + length (nav_grid_of (init 50 10) empty_state)
        = length v + length grid)%nat) /\
    (exists grid v',
       process_state (init 50 10) (with_navigation_grid grid empty_state)
       = Ok v' /\
       length v' <> compute_state_dim (init 50 10)).
Proof.
  apply (C7_encode_returns_unchecked_length 50 10 empty_state).
  split; [intros E; discriminate E | constructor].
Defined.

(** The only exceptions of [process_state]: a zero map size and a colour
    index below [-5]. *)
Lemma process_state_raises_only M G gs e :
  process_state (init M G) gs = Raise e ->
  e = ZeroDivisionError \/ e = IndexError.
Proof. apply process_state_error. Qed.

End EncoderClaims.

(** ** The replay buffer: C2 *)

Section ReplayBufferClaims.

Lemma rectangular_map {A : Type} (f : A -> list Q) (l : list A) :
  (forall x y, x ∈ l -> y ∈ l -> length (f x) = length (f y)) ->
  rectangular (map f l) = true.
Proof.
  destruct l as [|a l]; [reflexivity|]. intros Hl. simpl.
  apply forallb_forall. intros r Hr. apply in_map_iff in Hr.
  destruct Hr as (x & <- & Hx). apply Nat.eqb_eq.
  apply Hl; [right; now apply list_elem_of_In | left].
Qed.

Lemma random_sample_raises {A : Type} (population : list A) k rng :
  (length population < k)%nat ->
  Random.sample population k rng = Raise ValueError.
Proof.
  intros Hk. unfold Random.sample.
  apply Nat.ltb_lt in Hk. now rewrite Hk.
Qed.

Lemma random_sample_picks {A : Type} (population : list A) k rng :
  (k <= length population)%nat ->
  exists idxs picked rng',
    Random.sample_indices (length population) k rng = (idxs, rng') /\
    length idxs = k /\ NoDup idxs /\
    Forall2 (fun i x => population !! i = Some x) idxs picked /\
    Random.sample population k rng = Ok (picked, rng').
Proof.
  intros Hk. unfold Random.sample.
  destruct (Random.sample_indices (length population) k rng)
    as [idxs rng'] eqn:Hs.
  destruct (sample_indices_spec _ _ _ _ _ Hk Hs) as (Hlen & Hnd & Hlt).
  exists idxs, (omap (fun i => population !! i) idxs), rng'.
  repeat split; try assumption.
  - now apply omap_lookup_total.
  - apply Nat.ltb_ge in Hk. now rewrite Hk.
Qed.

Lemma sample_of_picked (self : ReplayBuffer.t) k rng picked rng' :
  Random.sample (ReplayBuffer.buffer self) k rng = Ok (picked, rng') ->
  picked <> [] ->
  rectangular (map t_state picked) = true ->
  rectangular (map t_next_state picked) = true ->
  ReplayBuffer.sample self k rng
  = Ok ({| b_states := map t_state picked;
           b_actions := map t_action picked;
           b_rewards := map t_reward picked;
           b_next_states := map t_next_state picked;
           b_dones := map t_done picked |}, rng').
Proof.
  intros Hs Hne H1 H2. unfold ReplayBuffer.sample, tf_constant_rows.
  rewrite Hs. destruct picked as [|x picked]; [congruence|].
  cbn -[rectangular map]. rewrite H1.
  cbn -[rectangular map]. rewrite H2. reflexivity.
Qed.

(** What [sample] returns when it can: the transitions at the drawn
    positions. *)
Lemma sample_ok (self : ReplayBuffer.t) (k : nat) (rng : Random.state) :
  (1 <= k)%nat -> (k <= ReplayBuffer.len self)%nat ->
  ReplayBuffer.stackable self ->
  exists idxs picked rng',
    Random.sample_indices (ReplayBuffer.len self) k rng = (idxs, rng') /\
    length idxs = k /\ NoDup idxs /\
    Forall2 (fun i x => ReplayBuffer.buffer self !! i = Some x) idxs picked /\
    ReplayBuffer.sample self k rng
    = Ok ({| b_states := map t_state picked;
             b_actions := map t_action picked;
             b_rewards := map t_reward picked;
             b_next_states := map t_next_state picked;
             b_dones := map t_done picked |}, rng').
Proof.
  intros Hk1 Hk [Hst Hnx].
  destruct (random_sample_picks (ReplayBuffer.buffer self) k rng Hk)
    as (idxs & picked & rng' & Hs & Hlen & Hnd & Hpick & Hsample).
  exists idxs, picked, rng'. repeat split; try assumption.
  assert (Hin : forall x, x ∈ picked -> x ∈ ReplayBuffer.buffer self).
  { intros x Hx. apply list_elem_of_lookup in Hx. destruct Hx as [j Hj].
    destruct (Forall2_lookup_r _ _ _ _ _ Hpick Hj) as (i & _ & Hi).
    apply list_elem_of_lookup. eauto. }
  assert (Hne : picked <> []).
  { intros ->. apply Forall2_length in Hpick. simpl in Hpick. lia. }
  apply sample_of_picked; auto using rectangular_map.
Qed.

(** C2, as the claim states it, fails: a batch of size zero raises on a
    buffer that holds a transition, and a batch drawn from transitions
    whose state vectors differ in length raises as well. *)
Lemma C2_counterexample :
  let one := ReplayBuffer.push (ReplayBuffer.init 100000) (example_transition 2 1) in
  let two := ReplayBuffer.push one (example_transition 3 1) in
  (0 <= ReplayBuffer.len one)%nat /\
  ReplayBuffer.sample one 0 example_random = Raise ValueError /\
  (2 <= ReplayBuffer.len two)%nat /\
  ReplayBuffer.sample two 2 example_random = Raise ValueError.
Proof. vm_compute. repeat split; auto. Qed.

(** C2 (amended): [sample(k)] raises when fewer than [k] transitions are
    stored.  For [1 <= k <= len], on stored state vectors of one common
    length, it returns exactly [k] transitions read at [k] distinct
    positions of the buffer, as five parallel sequences in the order in
    which the positions were drawn.  The positions are drawn uniformly at
    random without replacement: every ordered choice of [k] distinct
    positions is the one drawn for exactly one list of values of the [k]
    calls of [randbelow] (the first below [len], the next below [len - 1],
    and so on), and every such list of values is the one that some random
    source delivers; so that, the values of [randbelow] being uniform,
    no choice is more likely than another. *)
Theorem C2_sample_distinct_positions_in_order
  (self : ReplayBuffer.t) (k : nat) (rng : Random.state) :
  ((ReplayBuffer.len self < k)%nat ->
   ReplayBuffer.sample self k rng = Raise ValueError) /\
  ((1 <= k)%nat -> (k <= ReplayBuffer.len self)%nat ->
   ReplayBuffer.stackable self ->
   exists idxs picked rng',
     Random.sample_indices (ReplayBuffer.len self) k rng = (idxs, rng') /\
     length idxs = k /\ NoDup idxs /\
     Forall2 (fun i x => ReplayBuffer.buffer self !! i = Some x) idxs picked /\
     ReplayBuffer.sample self k rng
     = Ok ({| b_states := map t_state picked;
              b_actions := map t_action picked;
              b_rewards := map t_reward picked;
              b_next_states := map t_next_state picked;
              b_dones := map t_done picked |}, rng')) /\
  (forall idxs, length idxs = k -> NoDup idxs ->
     Forall (fun i => (i < ReplayBuffer.len self)%nat) idxs ->
     exists js, length js = k /\ Random.below (ReplayBuffer.len self) js /\
       (forall r, fst (Random.sample_indices (ReplayBuffer.len self) k r) = idxs
                  <-> Random.randbelow_values (ReplayBuffer.len self) k r = js) /\
       (forall js', length js' = k -> Random.below (ReplayBuffer.len self) js' ->
          (forall r, Random.randbelow_values (ReplayBuffer.len self) k r = js' ->
                     fst (Random.sample_indices (ReplayBuffer.len self) k r)
                     = idxs) ->
          js' = js)) /\
  (forall js, length js = k -> Random.below (ReplayBuffer.len self) js ->
     exists r, Random.randbelow_values (ReplayBuffer.len self) k r = js).
Proof.
  split.
  - intros Hk. unfold ReplayBuffer.sample.
    now rewrite (random_sample_raises _ _ _ Hk).
  - split; [apply sample_ok|].
    apply sample_indices_uniform.
Qed.

Lemma C2_sample_distinct_positions_in_order_witness :
  let self := ReplayBuffer.push (ReplayBuffer.push (ReplayBuffer.push
                (ReplayBuffer.init 100000) (example_transition 2 1))
                (example_transition 2 2)) (example_transition 2 3) in
  exists idxs picked rng',
    Random.sample_indices (ReplayBuffer.len self) 2 example_random = (idxs, rng') /\
    length idxs = 2%nat /\ NoDup idxs /\
    Forall2 (fun i x => ReplayBuffer.buffer self !! i = Some x) idxs picked /\
    ReplayBuffer.sample self 2 example_random
    = Ok ({| b_states := map t_state picked;
             b_actions := map t_action picked;
             b_rewards := map t_reward picked;
             b_next_states := map t_next_state picked;
             b_dones := map t_done picked |}, rng').
Proof.
  intros self.
  apply (proj1 (proj2
           (C2_sample_distinct_positions_in_order self 2 example_random))).
  - lia.
  - vm_compute. lia.
  - assert (Hb : ReplayBuffer.buffer self
                 = [example_transition 2 1; example_transition 2 2;
                    example_transition 2 3]) by (vm_compute; reflexivity).
    unfold ReplayBuffer.stackable. rewrite Hb. clearbody self.
    split; intros x y Hx Hy;
      repeat (apply elem_of_cons in Hx; destruct Hx as [->|Hx]);
      repeat (apply elem_of_cons in Hy; destruct Hy as [->|Hy]);
      try reflexivity; try (now inversion Hx); now inversion Hy.
Defined.

(** Draws 3 and 10 on three positions: position 0 first, then the last
    position, which took its place in the pool. *)
Example sample_indices_example :
  fst (Random.sample_indices 3 2 example_random) = [0; 2]%nat.
Proof. vm_compute. reflexivity. Qed.

End ReplayBufferClaims.

(** ** The reward: C3 *)

Section RewardClaims.

Context `{Kernels}.

Lemma np_clip_bounds x lo hi : lo <= hi -> lo <= np_clip x lo hi <= hi.
Proof.
  intros Hlh. unfold np_clip. split.
  - apply Q.min_glb; [apply Q.le_max_r | exact Hlh].
  - apply Q.le_min_r.
Qed.

Lemma np_clip_inside x lo hi : lo <= x <= hi -> np_clip x lo hi == x.
Proof.
  intros [Hlo Hhi]. unfold np_clip.
  rewrite (Q.max_l x lo Hlo). now apply Q.min_l.
Qed.

(** Standing still earns no proximity reward. *)
Lemma proximity_same_position p cps target_type scale differs :
  proximity p p cps target_type scale differs == 0.
Proof.
  unfold proximity. destruct cps as [|cp cps]; [reflexivity|].
  destruct (targets (cp :: cps) target_type differs); [reflexivity|]. ring.
Qed.

(** The snapshot of [GameEnvironment] is the count of whichever agent was
    rewarded last. *)
Lemma shared_snapshot (self : GameEnvironment.t) state agent_id :
  GameEnvironment.previous_owned_points
    (snd (GameEnvironment.calculate_reward self state agent_id))
  = current_owned state agent_id.
Proof. reflexivity. Qed.

Lemma point_change_after_other (self : GameEnvironment.t) s j s' i :
  GameEnvironment.point_change
    (snd (GameEnvironment.calculate_reward self s j)) s' i
  = (current_owned s' i - current_owned s j)%Z.
Proof. reflexivity. Qed.

Example mock_owned :
  current_owned mock_state 0 = 0%Z /\ current_owned mock_state 1 = 1%Z
  /\ current_owned mock_state 2 = 0%Z.
Proof. vm_compute. auto. Qed.

(** C3: [GameEnvironment] keeps one snapshot for all agents, so the
    capture term of an agent is measured against the count of the agent
    rewarded before it.  On the mock observation, rewarded for agent 0,
    then agent 1, then agent 0 again: agent 0 owns no point in either of
    its observations, yet its second reward carries a capture term of
    [-1] and is [-1.01]. *)
Theorem C3_capture_term_uses_other_agents_snapshot :
  let env0 := GameEnvironment.init 3000 in
  let env1 := snd (GameEnvironment.calculate_reward env0 mock_state 0) in
  let env2 := snd (GameEnvironment.calculate_reward env1 mock_state 1) in
  let reward := fst (GameEnvironment.calculate_reward env2 mock_state 0) in
  current_owned mock_state 0 = 0%Z /\
  GameEnvironment.point_change env2 mock_state 0 = (-1)%Z /\
  reward == - (101 # 100).
Proof.
  intros env0 env1 env2 reward.
  destruct mock_owned as (H0 & H1 & _).
  split; [exact H0|]. split.
  - unfold env2. rewrite point_change_after_other, H0, H1. reflexivity.
  - unfold reward, GameEnvironment.calculate_reward. cbn [fst].
    replace (GameEnvironment.point_change env2 mock_state 0) with (-1)%Z
      by (unfold env2; now rewrite point_change_after_other, H0, H1).
    cbn [GameEnvironment.previous_position env2 snd
         GameEnvironment.calculate_reward].
    unfold GameEnvironment.get_proximity_reward.
    match goal with
    | |- context [proximity ?p ?p ?cps unclaimed ?s ?d + proximity ?p ?p ?cps enemy ?s' ?d'] =>
        pose proof (proximity_same_position p cps unclaimed s d) as Hu;
        pose proof (proximity_same_position p cps enemy s' d') as He;
        set (u := proximity p p cps unclaimed s d) in *;
        set (e := proximity p p cps enemy s' d') in *
    end.
    assert (Hp : point_reward (-1) == - (1)) by reflexivity.
    set (c := point_reward (-1)) in *.
    rewrite np_clip_inside; lra.
Qed.

(** The bridged environment keeps one snapshot for each agent: a call for
    another agent leaves the snapshot of agent [i] alone. *)
Lemma bridged_previous_of_other (self : BridgedGameEnvironment.t) s j i :
  i <> j ->
  BridgedGameEnvironment.previous_of
    (snd (BridgedGameEnvironment.calculate_reward self s j)) i
  = BridgedGameEnvironment.previous_of self i.
Proof.
  intros Hij. unfold BridgedGameEnvironment.previous_of,
    BridgedGameEnvironment.calculate_reward. cbn [snd
    BridgedGameEnvironment.previous_states].
  rewrite lookup_insert_ne by congruence. reflexivity.
Qed.

Lemma bridged_previous_of_own (self : BridgedGameEnvironment.t) s i :
  BridgedGameEnvironment.owned_points
    (BridgedGameEnvironment.previous_of
       (snd (BridgedGameEnvironment.calculate_reward self s i)) i)
  = current_owned s i.
Proof.
  unfold BridgedGameEnvironment.previous_of,
    BridgedGameEnvironment.calculate_reward. cbn [snd
    BridgedGameEnvironment.previous_states].
  rewrite lookup_insert_eq. reflexivity.
Qed.

Lemma bridged_calls_others (others : list (GameState * Z)) i :
  Forall (fun c => c.2 <> i) others ->
  forall env : BridgedGameEnvironment.t,
    BridgedGameEnvironment.previous_of (BridgedGameEnvironment.calls env others) i
    = BridgedGameEnvironment.previous_of env i.
Proof.
  induction 1 as [|[s j] others Hj _ IH]; intros env; [reflexivity|].
  unfold BridgedGameEnvironment.calls in *. cbn [fold_left fst snd].
  rewrite IH. apply bridged_previous_of_other. simpl in Hj. congruence.
Qed.

(** In the bridged environment the capture term of agent [i] compares its
    count with the count of its own previous observation, whatever calls
    were made for other agents in between. *)
Lemma bridged_capture_term_per_agent
  (self : BridgedGameEnvironment.t) s1 s2 i (others : list (GameState * Z)) :
  Forall (fun c => c.2 <> i) others ->
  BridgedGameEnvironment.point_change
    (BridgedGameEnvironment.calls
       (snd (BridgedGameEnvironment.calculate_reward self s1 i)) others)
    s2 i
  = (current_owned s2 i - current_owned s1 i)%Z.
Proof.
  intros Hothers. unfold BridgedGameEnvironment.point_change.
  rewrite (bridged_calls_others others i Hothers).
  now rewrite bridged_previous_of_own.
Qed.

End RewardClaims.

(** ** The reward in binary64: C6 *)

Section Binary64Facts.

Import SpecFloat Binary64.

(** *** Rounding never produces a NaN *)

Lemma shr_1_nonneg mrs : (0 <= shr_m mrs)%Z -> (0 <= shr_m (shr_1 mrs))%Z.
Proof.
  destruct mrs as [m r s]. cbn [shr_m]. intros Hm.
  destruct m as [|p|p]; [cbn; lia | destruct p; cbn; lia | lia].
Qed.

Lemma iter_shr_1_nonneg p : forall mrs,
  (0 <= shr_m mrs)%Z -> (0 <= shr_m (iter_pos shr_1 p mrs))%Z.
Proof.
  induction p as [p IH|p IH|]; intros mrs Hm; cbn [iter_pos].
  - apply IH, IH, shr_1_nonneg, Hm.
  - apply IH, IH, Hm.
  - apply shr_1_nonneg, Hm.
Qed.

Lemma shr_fexp_nonneg m e l :
  (0 <= m)%Z -> (0 <= shr_m (fst (shr_fexp prec emax m e l)))%Z.
Proof.
  intros Hm. unfold shr_fexp, shr.
  assert (H0 : (0 <= shr_m (shr_record_of_loc m l))%Z)
    by (destruct l as [|[]]; exact Hm).
  destruct (_ - e)%Z; cbn [fst]; [exact H0 | | exact H0].
  apply iter_shr_1_nonneg, H0.
Qed.

Lemma round_nearest_even_nonneg m l :
  (0 <= m)%Z -> (0 <= round_nearest_even m l)%Z.
Proof.
  intros Hm. destruct l as [|[]]; cbn [round_nearest_even]; try lia.
  destruct (Z.even m); lia.
Qed.

Lemma binary_round_aux_not_nan sx mx ex lx :
  (0 <= mx)%Z -> is_nan (binary_round_aux prec emax sx mx ex lx) = false.
Proof.
  intros Hm. unfold binary_round_aux.
  pose proof (shr_fexp_nonneg mx ex lx Hm) as H1.
  destruct (shr_fexp prec emax mx ex lx) as [mrs' e']. cbn [fst] in H1.
  pose proof (shr_fexp_nonneg
                (round_nearest_even (shr_m mrs') (loc_of_shr_record mrs')) e'
                loc_Exact (round_nearest_even_nonneg _ _ H1)) as H2.
  destruct (shr_fexp prec emax _ e' loc_Exact) as [mrs'' e'']. cbn [fst] in H2.
  destruct (shr_m mrs'') as [|p|p]; [reflexivity | | lia].
  destruct (_ <=? _)%Z; reflexivity.
Qed.

Lemma binary_normalize_not_nan m e :
  is_nan (binary_normalize prec emax m e false) = false.
Proof.
  unfold binary_normalize, binary_round.
  destruct m as [|p|p]; [reflexivity| |];
    destruct (shl_align _ _ _) as [mz ez]; apply binary_round_aux_not_nan; lia.
Qed.

(** *** The operations on numbers *)

Lemma add_finite_r x y :
  is_nan x = false -> is_finite y = true -> is_nan (add x y) = false.
Proof.
  unfold add.
  destruct x as [sx|sx| |sx mx ex], y as [sy|sy| |sy my ey];
    try discriminate; intros _ _; cbn [SFadd is_nan]; try reflexivity.
  - destruct sx, sy; reflexivity.
  - apply binary_normalize_not_nan.
Qed.

Lemma sub_finite_r x y :
  is_nan x = false -> is_finite y = true -> is_nan (sub x y) = false.
Proof.
  unfold sub.
  destruct x as [sx|sx| |sx mx ex], y as [sy|sy| |sy my ey];
    try discriminate; intros _ _; cbn [SFsub is_nan]; try reflexivity.
  - destruct sx, sy; reflexivity.
  - apply binary_normalize_not_nan.
Qed.

Lemma add_nan_r x y : is_nan y = true -> is_nan (add x y) = true.
Proof. destruct y; try discriminate. intros _. now destruct x. Qed.

Lemma sub_nan_l x y : is_nan x = true -> is_nan (sub x y) = true.
Proof. destruct x; try discriminate. intros _. reflexivity. Qed.

Lemma mul_finite x y :
  is_finite x = true -> is_finite y = true -> is_nan (mul x y) = false.
Proof.
  unfold mul.
  destruct x as [sx|sx| |sx mx ex], y as [sy|sy| |sy my ey];
    try discriminate; intros _ _; cbn [SFmul is_nan]; try reflexivity.
  apply binary_round_aux_not_nan. lia.
Qed.

Lemma of_int_finite z x : of_int z = Ok x -> is_finite x = true.
Proof.
  unfold of_int, of_Z. pose proof (binary_normalize_not_nan z 0) as Hn.
  destruct (binary_normalize prec emax z 0 false); try discriminate;
    intros [= <-]; reflexivity.
Qed.

Lemma of_int_raises z e : of_int z = Raise e -> e = OverflowError.
Proof.
  unfold of_int. destruct (of_Z z); try discriminate. now intros [= <-].
Qed.

(** *** Comparisons *)

Lemma SFcompare_antisym x y :
  SFcompare y x = option_map CompOpp (SFcompare x y).
Proof.
  destruct x as [sx|sx| |sx mx ex], y as [sy|sy| |sy my ey];
    cbn [SFcompare option_map]; try reflexivity;
    try (destruct sx; reflexivity); try (destruct sy; reflexivity);
    try (destruct sx, sy; reflexivity).
  destruct sx, sy; cbn [CompOpp]; try reflexivity;
    rewrite (Z.compare_antisym ex ey);
    destruct (ex ?= ey)%Z eqn:E; cbn [CompOpp]; try reflexivity.
  - rewrite CompOpp_involutive.
    rewrite (Pos.compare_cont_antisym my mx Eq). reflexivity.
  - rewrite (Pos.compare_cont_antisym mx my Eq). reflexivity.
Qed.

Lemma not_ltb_leb x y :
  is_nan x = false -> is_nan y = false -> ltb x y = false -> leb y x = true.
Proof.
  unfold ltb, leb, SFltb, SFleb. rewrite (SFcompare_antisym x y).
  intros Hx Hy.
  destruct (SFcompare x y) as [[]|] eqn:E; cbn [option_map CompOpp];
    try discriminate; try reflexivity.
  destruct x, y; try discriminate; cbn in E; try discriminate;
    repeat match goal with s : bool |- _ => destruct s end; discriminate.
Qed.

Lemma ltb_leb x y : ltb x y = true -> leb x y = true.
Proof.
  unfold ltb, leb, SFltb, SFleb. destruct (SFcompare x y) as [[]|]; auto.
Qed.

Lemma leb_refl x : is_nan x = false -> leb x x = true.
Proof.
  intros Hx. apply not_ltb_leb; [exact Hx|exact Hx|].
  unfold ltb, SFltb.
  destruct x as [s|s| |s m e]; try discriminate; cbn [SFcompare];
    try (destruct s; reflexivity).
  destruct s; rewrite Z.compare_refl, Pos.compare_cont_refl; reflexivity.
Qed.

(** [np.clip] brings every number between the bounds, the infinities
    included, and gives NaN for NaN. *)
Lemma np_clip_within x :
  is_nan x = false -> within_bounds (np_clip x (opp (literal 5)) (literal 5)).
Proof.
  intros Hx. unfold within_bounds, np_clip. rewrite Hx.
  set (lo := opp (literal 5)). set (hi := literal 5).
  assert (Hlo : is_nan lo = false) by reflexivity.
  assert (Hhi : is_nan hi = false) by reflexivity.
  assert (Hlh : leb lo hi = true) by (vm_compute; reflexivity).
  destruct (ltb x lo) eqn:E1.
  - assert (E2 : ltb hi lo = false) by (vm_compute; reflexivity).
    rewrite E2. split; [now apply leb_refl | exact Hlh].
  - pose proof (not_ltb_leb x lo Hx Hlo E1) as Hlx.
    destruct (ltb hi x) eqn:E2.
    + split; [exact Hlh | now apply leb_refl].
    + split; [exact Hlx | now apply not_ltb_leb].
Qed.

Lemma np_clip_nan x lo hi : is_nan x = true -> is_nan (np_clip x lo hi) = true.
Proof. unfold np_clip. now intros ->. Qed.

Lemma np_clip_cases x :
  is_nan (np_clip x (opp (literal 5)) (literal 5)) = true \/
  within_bounds (np_clip x (opp (literal 5)) (literal 5)).
Proof.
  destruct (is_nan x) eqn:E; [left; now apply np_clip_nan|].
  right. now apply np_clip_within.
Qed.

(** *** The exceptions *)

Lemma pow2_raises x e : pow2 x = Raise e -> e = OverflowError.
Proof.
  unfold pow2. destruct x; try discriminate.
  destruct (mul _ _); try discriminate. now intros [= <-].
Qed.

Lemma distance_raises p1 p2 e : distance p1 p2 = Raise e -> e = OverflowError.
Proof.
  destruct p1 as [[a0 a1] a2], p2 as [[b0 b1] b2]. unfold distance.
  destruct (pow2 (sub a0 b0)) as [s0|e0] eqn:E0; cbn [mbind result_bind];
    [|intros [= <-]; eapply pow2_raises, E0].
  destruct (pow2 (sub a1 b1)) as [s1|e1] eqn:E1; cbn [mbind result_bind];
    [|intros [= <-]; eapply pow2_raises, E1].
  destruct (pow2 (sub a2 b2)) as [s2|e2] eqn:E2; cbn [mbind result_bind];
    [discriminate|intros [= <-]; eapply pow2_raises, E2].
Qed.

Lemma mapM_distance_raises p tps e :
  mapM (distance p) tps = Raise e -> e = OverflowError.
Proof.
  induction tps as [|tp tps IH]; cbn [mapM]; [discriminate|].
  destruct (distance p tp) as [d|e0] eqn:E0; cbn [mbind result_bind];
    [|intros [= <-]; eapply distance_raises, E0].
  destruct (mapM (distance p) tps) as [ds|e1]; cbn [mbind result_bind];
    [discriminate|]. intros [= <-]. now apply IH.
Qed.

Lemma proximity_raises cur prev cps tt scale differs e :
  proximity cur prev cps tt scale differs = Raise e -> e = OverflowError.
Proof.
  unfold proximity. destruct cps as [|cp cps]; [discriminate|].
  destruct (targets (cp :: cps) tt differs) as [|tp tps]; [discriminate|].
  destruct (mapM (distance prev) (tp :: tps)) as [ps|e0] eqn:E0;
    cbn [mbind result_bind];
    [|intros [= <-]; eapply mapM_distance_raises, E0].
  destruct (mapM (distance cur) (tp :: tps)) as [cs|e1] eqn:E1;
    cbn [mbind result_bind];
    [discriminate|intros [= <-]; eapply mapM_distance_raises, E1].
Qed.

(** The capture term is a number. *)
Lemma add_point_reward_zero (point_change : Z) :
  match add_point_reward zero point_change with
  | Ok reward => is_nan reward = false
  | Raise e => e = OverflowError
  end.
Proof.
  assert (Hz : forall y, is_nan y = false -> is_nan (add zero y) = false).
  { intros y Hy. destruct y as [s|s| |s m e]; try discriminate;
      try reflexivity. destruct s; reflexivity. }
  unfold add_point_reward.
  destruct (0 <? point_change)%Z; [|destruct (point_change <? 0)%Z].
  - destruct (of_int point_change) as [x|e] eqn:E; cbn [mbind result_bind].
    + apply Hz, mul_finite; [reflexivity | eapply of_int_finite, E].
    + eapply of_int_raises, E.
  - destruct (of_int (Z.abs point_change)) as [x|e] eqn:E;
      cbn [mbind result_bind].
    + apply Hz, mul_finite; [reflexivity | eapply of_int_finite, E].
    + eapply of_int_raises, E.
  - reflexivity.
Qed.

End Binary64Facts.

Section RewardRange.

Import Binary64.

(** The outcome of [calculate_reward], without the object. *)
Lemma calculate_reward_outcome (self : Binary64.GameEnvironment.t) (state : Binary64.GameState)
  (agent_id : Z) :
  fst (Binary64.GameEnvironment.calculate_reward self state agent_id)
  = (reward ← add_point_reward zero
                (current_owned state agent_id
                 - Binary64.GameEnvironment.previous_owned_points self);
     reward ←
       match Binary64.GameEnvironment.previous_position self with
       | Some previous =>
           unclaimed_reward ←
             Binary64.GameEnvironment.get_proximity_reward (agent_position state)
               previous (critical_points state) unclaimed (literal (1 # 10))
               None;
           enemy_reward ←
             Binary64.GameEnvironment.get_proximity_reward (agent_position state)
               previous (critical_points state) enemy (literal (2 # 10))
               (Some agent_id);
           Ok (add reward (add unclaimed_reward enemy_reward))
       | None => Ok reward
       end;
     Ok (np_clip (sub reward (literal (1 # 100))) (opp (literal 5)) (literal 5))).
Proof.
  unfold Binary64.GameEnvironment.calculate_reward. cbv zeta.
  destruct (add_point_reward _ _) as [reward|e]; cbn [mbind result_bind fst];
    [|reflexivity].
  cbn [Binary64.GameEnvironment.previous_position
       Binary64.GameEnvironment.set_previous_owned_points].
  destruct (Binary64.GameEnvironment.previous_position self) as [previous|];
    [|reflexivity].
  destruct (Binary64.GameEnvironment.get_proximity_reward _ _ _ unclaimed _ _)
    as [u|e]; cbn [mbind result_bind fst]; [|reflexivity].
  destruct (Binary64.GameEnvironment.get_proximity_reward _ _ _ enemy _ _)
    as [v|e]; cbn [mbind result_bind fst]; reflexivity.
Qed.

Lemma bridged_calculate_reward_outcome (self : Binary64.BridgedGameEnvironment.t)
  (state : Binary64.GameState) (agent_id : Z) :
  fst (Binary64.BridgedGameEnvironment.calculate_reward self state agent_id)
  = (let prev_state := Binary64.BridgedGameEnvironment.previous_of self agent_id in
     reward ← add_point_reward zero
                (current_owned state agent_id
                 - Binary64.BridgedGameEnvironment.owned_points prev_state);
     unclaimed_reward ←
       Binary64.BridgedGameEnvironment.get_proximity_reward (agent_position state)
         (Binary64.BridgedGameEnvironment.prev_position prev_state)
         (critical_points state) unclaimed (literal (1 # 10)) None;
     enemy_reward ←
       Binary64.BridgedGameEnvironment.get_proximity_reward (agent_position state)
         (Binary64.BridgedGameEnvironment.prev_position prev_state)
         (critical_points state) enemy (literal (2 # 10)) (Some agent_id);
     Ok (np_clip (sub (add reward (add unclaimed_reward enemy_reward))
                      (literal (1 # 100)))
           (opp (literal 5)) (literal 5))).
Proof.
  unfold Binary64.BridgedGameEnvironment.calculate_reward. cbv zeta.
  destruct (add_point_reward _ _) as [reward|e]; cbn [mbind result_bind fst];
    [|reflexivity].
  destruct (Binary64.BridgedGameEnvironment.get_proximity_reward _ _ _ unclaimed _ _)
    as [u|e]; cbn [mbind result_bind fst]; [|reflexivity].
  destruct (Binary64.BridgedGameEnvironment.get_proximity_reward _ _ _ enemy _ _)
    as [v|e]; cbn [mbind result_bind fst]; reflexivity.
Qed.

(** The last two statements on a reward that is a number. *)
Lemma penalty_and_clip (reward : float) :
  is_nan reward = false ->
  within_bounds (np_clip (sub reward (literal (1 # 100)))
                   (opp (literal 5)) (literal 5)).
Proof.
  intros Hr. apply np_clip_within, sub_finite_r; [exact Hr | reflexivity].
Qed.

(** C6, as the claim states it, fails on finite coordinates.  With the
    agent at [2.0 ** 1023] and a point at [-2.0 ** 1023] both nearest
    distances are infinite, their difference is NaN and [np.clip] returns
    NaN, which is not within the bounds.  With the agent at [2.0 ** 600]
    the square of the coordinate difference is out of range and the call
    raises [OverflowError]. *)
Lemma C6_counterexample :
  is_finite far = true /\ is_finite (opp far) = true /\
  distance (far, zero, zero) (opp far, zero, zero) = Ok infinity /\
  fst (Binary64.GameEnvironment.calculate_reward far_environment far_state 0) = Ok nan /\
  ~ within_bounds nan /\
  is_finite (of_Z (2 ^ 600)) = true /\
  fst (Binary64.GameEnvironment.calculate_reward far_environment wide_state 0)
  = Raise OverflowError.
Proof.
  repeat split; try (vm_compute; reflexivity).
  intros [H _]. vm_compute in H. discriminate H.
Qed.

(** C6 (amended): whatever the observation, the agent and the snapshots
    of the environment, [calculate_reward] returns a value within
    [[-5, 5]], or returns NaN, or raises [OverflowError].  On the first
    call of an episode, which has no previous position, it does not return
    NaN.  On a later call that returns, the reward is within the bounds
    when the sum of the two proximity rewards is finite, and it is NaN
    when that sum is NaN. *)
Theorem C6_reward_within_bounds_unless_nan
  (self : Binary64.GameEnvironment.t) (state : Binary64.GameState) (agent_id : Z) :
  let outcome := fst (Binary64.GameEnvironment.calculate_reward self state agent_id) in
  match outcome with
  | Ok r => is_nan r = true \/ within_bounds r
  | Raise e => e = OverflowError
  end /\
  (Binary64.GameEnvironment.previous_position self = None ->
   forall r, outcome = Ok r -> within_bounds r) /\
  (forall previous unclaimed_reward enemy_reward r,
     Binary64.GameEnvironment.previous_position self = Some previous ->
     Binary64.GameEnvironment.get_proximity_reward (agent_position state) previous
       (critical_points state) unclaimed (literal (1 # 10)) None
     = Ok unclaimed_reward ->
     Binary64.GameEnvironment.get_proximity_reward (agent_position state) previous
       (critical_points state) enemy (literal (2 # 10)) (Some agent_id)
     = Ok enemy_reward ->
     outcome = Ok r ->
     (is_finite (add unclaimed_reward enemy_reward) = true ->
      within_bounds r) /\
     (is_nan (add unclaimed_reward enemy_reward) = true -> is_nan r = true)).
Proof.
  intros outcome. subst outcome. rewrite calculate_reward_outcome.
  pose proof (add_point_reward_zero
                (current_owned state agent_id
                 - Binary64.GameEnvironment.previous_owned_points self)) as Hc.
  destruct (add_point_reward zero _) as [reward|e0]; cbn [mbind result_bind].
  2:{ split; [exact Hc|]. split; [discriminate|]. discriminate. }
  split; [|split].
  - destruct (Binary64.GameEnvironment.previous_position self) as [previous|].
    + destruct (Binary64.GameEnvironment.get_proximity_reward _ _ _ unclaimed _ _)
        as [u|e] eqn:Eu; cbn [mbind result_bind];
        [|eapply proximity_raises, Eu].
      destruct (Binary64.GameEnvironment.get_proximity_reward _ _ _ enemy _ _)
        as [v|e] eqn:Ev; cbn [mbind result_bind];
        [|eapply proximity_raises, Ev].
      apply np_clip_cases.
    + cbn [mbind result_bind]. apply np_clip_cases.
  - intros -> r [= <-]. now apply penalty_and_clip.
  - intros previous u v r -> -> -> [= <-]. split.
    + intros Hfin. apply penalty_and_clip, add_finite_r; assumption.
    + intros Hnan. apply np_clip_nan, sub_nan_l, add_nan_r, Hnan.
Qed.

End RewardRange.

(** ** Properties of the agent *)

Ltac decide_tests :=
  repeat match goal with
  | H : (_ =? _)%Z = true |- _ => apply Z.eqb_eq in H
  | H : (_ =? _)%Z = false |- _ => apply Z.eqb_neq in H
  | H : (_ <? _)%nat = true |- _ => apply Nat.ltb_lt in H
  | H : (_ <? _)%nat = false |- _ => apply Nat.ltb_ge in H
  end.

(** Runs a method symbolically: every call that may raise is split into
    its two outcomes. *)
Ltac run :=
  unfold mbind, DQNAgent.M_bind, mret, DQNAgent.M_ret, DQNAgent.get,
    DQNAgent.modify, DQNAgent.lift, DQNAgent.raise, DQNAgent.with_random,
    DQNAgent.forward in *;
  repeat (case_match; simplify_eq;
          cbn [DQNAgent.self DQNAgent.py_random DQNAgent.tf_random
               DQNAgent.files fst snd
               DQNAgent.epsilon DQNAgent.epsilon_end DQNAgent.epsilon_decay
               DQNAgent.target_update_freq DQNAgent.step_count
               DQNAgent.sync_calls DQNAgent.loss_history DQNAgent.q_network
               DQNAgent.target_network DQNAgent.batch_size DQNAgent.memory
               DQNAgent.gamma DQNAgent.set_epsilon DQNAgent.set_q_network
               DQNAgent.set_target_network DQNAgent.set_optimizer
               DQNAgent.set_step_count DQNAgent.set_loss_history
               DQNAgent.count_sync] in * ).

Section AgentFacts.

Import DQNAgent.

Context `{Kernels}.

Lemma assign_get_weights : forall layers weights layers',
  DQNNetwork.assign layers weights = Ok layers' ->
  flat_map DQNNetwork.layer_weights layers' = weights.
Proof.
  induction layers as [|l layers IH]; intros weights layers'; simpl.
  - destruct weights; [intros [= <-]; reflexivity | discriminate].
  - destruct l as [units relu [[kernel bias]|]|rate].
    + destruct weights as [|[|kernel'] [|[bias'|] weights']]; try discriminate.
      case_match; [|discriminate].
      intros Hb. apply bind_ok in Hb. destruct Hb as (rest & Hrest & [= <-]).
      simpl. now rewrite (IH _ _ Hrest).
    + intros Hb. apply bind_ok in Hb. destruct Hb as (rest & Hrest & [= <-]).
      simpl. now apply IH.
    + intros Hb. apply bind_ok in Hb. destruct Hb as (rest & Hrest & [= <-]).
      simpl. now apply IH.
Qed.

Lemma set_weights_get_weights net weights net' :
  DQNNetwork.set_weights net weights = Ok net' ->
  DQNNetwork.get_weights net' = weights.
Proof.
  unfold DQNNetwork.set_weights, DQNNetwork.get_weights. intros Hs.
  apply bind_ok in Hs. destruct Hs as (layers & Hl & [= <-]).
  exact (assign_get_weights _ _ _ Hl).
Qed.

Lemma learn_frame (w : World) : same_schedule (self (snd (learn w))) (self w)
                                 /\ same_schedule (self w) (self (snd (learn w))).
Proof.
  destruct (learn w) as [r w'] eqn:E. cbn [snd].
  unfold learn, same_schedule in *. run. all: repeat split; reflexivity.
Qed.

(** The whole effect of one [train_step] call on the schedule, the
    counters and the loss history, whatever its outcome. *)
Lemma train_step_spec (w : World) r w' :
  train_step w = (r, w') ->
  let a := self w in
  let a' := self w' in
  epsilon_end a' = epsilon_end a /\ epsilon_decay a' = epsilon_decay a /\
  target_update_freq a' = target_update_freq a /\
  ((epsilon a' = epsilon a /\ step_count a' = step_count a /\
    sync_calls a' = sync_calls a /\ loss_history a' = loss_history a /\
    ((ReplayBuffer.len (memory a) < batch_size a)%nat \/
     exists e w1, learn w = (Raise e, w1)) /\
    forall loss, r <> Ok (Some loss)) \/
   (epsilon a' = py_max (epsilon_end a) (epsilon a * epsilon_decay a) /\
    step_count a' = (step_count a + 1)%Z /\
    ((target_update_freq a = 0%Z /\ r = Raise ZeroDivisionError /\
      sync_calls a' = sync_calls a) \/
     (target_update_freq a <> 0%Z /\
      ((step_count a + 1) mod target_update_freq a)%Z <> 0%Z /\
      sync_calls a' = sync_calls a /\
      exists loss, r = Ok (Some loss) /\
                   loss_history a' = loss_history a ++ [loss]) \/
     (target_update_freq a <> 0%Z /\
      ((step_count a + 1) mod target_update_freq a)%Z = 0%Z /\
      sync_calls a' = S (sync_calls a) /\
      ((exists loss, r = Ok (Some loss) /\
                     loss_history a' = loss_history a ++ [loss] /\
                     DQNNetwork.get_weights (target_network a')
                     = DQNNetwork.get_weights (q_network a')) \/
       exists e, r = Raise e))))).
Proof.
  intros E a a'. subst a a'. unfold train_step in E.
  unfold mbind at 1, M_bind at 1, get at 1 in E.
  destruct (ReplayBuffer.len _ <? _)%nat eqn:Hwarm.
  { injection E as <- <-. repeat (split; [reflexivity|]).
    apply Nat.ltb_lt in Hwarm.
    left. repeat split; (discriminate || auto). }
  clear Hwarm. unfold mbind at 1, M_bind at 1 in E.
  destruct (learn_frame w) as [_ Hf].
  destruct (learn w) as [[loss|e] w1]; cbn [snd] in Hf;
    destruct Hf as (He & Hee & Hd & Hfreq & Hs & Hsync & Hl & _ & _).
  2:{ injection E as <- <-. rewrite Hee, Hd, Hfreq, He, Hs, Hsync, Hl.
      repeat (split; [reflexivity|]).
      left. repeat split; (discriminate || eauto). }
  unfold update_target_network in E. run.
  all: decide_tests.
  all: rewrite ?Hee, ?Hd, ?Hfreq, ?He, ?Hs, ?Hsync, ?Hl in *.
  all: repeat (split; [reflexivity|]).
  all: right; repeat (split; [reflexivity|]).
  all: try (left; repeat split; (reflexivity || assumption)).
  all: right.
  all: try (left; repeat split; try assumption; eauto; fail).
  all: right; repeat split; try assumption.
  all: try (right; eauto; fail).
  all: left; eexists; repeat split.
  all: eauto using set_weights_get_weights.
Qed.

(** *** Forward passes *)

Lemma uniform_row_length n lo hi tf :
  length (fst (uniform_row n lo hi tf)) = n.
Proof.
  revert tf. induction n as [|n IH]; intros tf; cbn [uniform_row];
    [reflexivity|].
  destruct (random_uniform lo hi tf) as [x tf1].
  specialize (IH tf1). destruct (uniform_row n lo hi tf1) as [xs tf2].
  cbn [fst length] in *. now rewrite IH.
Qed.

Lemma uniform_matrix_shape rows cols lo hi tf :
  length (fst (uniform_matrix rows cols lo hi tf)) = rows /\
  Forall (fun row => length row = cols) (fst (uniform_matrix rows cols lo hi tf)).
Proof.
  revert tf. induction rows as [|rows IH]; intros tf; cbn [uniform_matrix];
    [split; [reflexivity | constructor]|].
  pose proof (uniform_row_length cols lo hi tf) as Hr.
  destruct (uniform_row cols lo hi tf) as [r tf1].
  specialize (IH tf1). destruct (uniform_matrix rows cols lo hi tf1) as [rs tf2].
  cbn [fst length] in *. destruct IH as [IH1 IH2]. split; [now rewrite IH1|].
  now constructor.
Qed.

Lemma dropout_row_length rate xs tf :
  length (fst (dropout_row rate xs tf)) = length xs.
Proof.
  revert tf. induction xs as [|x xs IH]; intros tf; cbn [dropout_row];
    [reflexivity|].
  destruct (dropout_entry rate x tf) as [y tf1].
  specialize (IH tf1). destruct (dropout_row rate xs tf1) as [ys tf2].
  cbn [fst length] in *. now rewrite IH.
Qed.

Lemma dropout_rows_shape rate n rows tf :
  Forall (fun x => length x = n) rows ->
  length (fst (dropout_rows rate rows tf)) = length rows /\
  Forall (fun x => length x = n) (fst (dropout_rows rate rows tf)).
Proof.
  intros Hrows. revert tf.
  induction Hrows as [|r rows Hr _ IH]; intros tf; cbn [dropout_rows];
    [split; [reflexivity | constructor]|].
  pose proof (dropout_row_length rate r tf) as Hy.
  destruct (dropout_row rate r tf) as [y tf1].
  specialize (IH tf1). destruct (dropout_rows rate rows tf1) as [ys tf2].
  cbn [fst length] in *. destruct IH as [IH1 IH2]. split; [now rewrite IH1|].
  constructor; [congruence | exact IH2].
Qed.

Lemma dense_row_ok kernel bias relu units x :
  length x = length kernel ->
  Forall (fun row => length row = units) kernel -> length bias = units ->
  exists y, DQNNetwork.dense_row kernel bias relu x = Ok y /\ length y = units.
Proof.
  intros Hx Hk Hb. unfold DQNNetwork.dense_row.
  apply Nat.eqb_eq in Hx. rewrite Hx. eexists. split; [reflexivity|].
  assert (Hfold : forall (x : list Q),
    length (fold_right
              (fun '(xi, row) acc => zip_with Qplus (map (Qmult xi) row) acc)
              bias (zip x kernel)) = units).
  { clear Hx x. induction Hk as [|row kernel Hrow _ IH]; intros x.
    - destruct x; exact Hb.
    - destruct x as [|xi x]; [exact Hb|]. simpl.
      rewrite length_zip_with, length_map, IH. lia. }
  destruct relu; [rewrite length_map|]; apply Hfold.
Qed.

Lemma dense_rows_ok kernel bias relu units n xs :
  length kernel = n ->
  Forall (fun row => length row = units) kernel -> length bias = units ->
  Forall (fun x => length x = n) xs ->
  exists ys, mapM (DQNNetwork.dense_row kernel bias relu) xs = Ok ys /\
             length ys = length xs /\ Forall (fun y => length y = units) ys.
Proof.
  intros Hn Hk Hb Hxs. induction Hxs as [|x xs Hx _ IH]; simpl.
  - exists []. auto.
  - destruct (dense_row_ok kernel bias relu units x) as (y & -> & Hy);
      [congruence | assumption | assumption |].
    destruct IH as (ys & -> & Hlen & Hys). simpl.
    exists (y :: ys). repeat split; [simpl; congruence | now constructor].
Qed.

Lemma uniform_row_pos n lo hi tf :
  Random.pos (snd (uniform_row n lo hi tf)) = (Random.pos tf + n)%nat.
Proof.
  revert tf. induction n as [|n IH]; intros tf; cbn [uniform_row];
    [cbn; lia|].
  unfold random_uniform, Random.random, Random.next. cbn [fst snd].
  match goal with |- context [uniform_row n lo hi ?t] =>
    specialize (IH t); destruct (uniform_row n lo hi t) as [xs tf2] end.
  cbn [snd Random.pos] in *. lia.
Qed.

Lemma uniform_matrix_pos rows cols lo hi tf :
  Random.pos (snd (uniform_matrix rows cols lo hi tf))
  = (Random.pos tf + rows * cols)%nat.
Proof.
  revert tf. induction rows as [|rows IH]; intros tf; cbn [uniform_matrix];
    [cbn; lia|].
  pose proof (uniform_row_pos cols lo hi tf) as Hr.
  destruct (uniform_row cols lo hi tf) as [r tf1].
  specialize (IH tf1). destruct (uniform_matrix rows cols lo hi tf1) as [rs tf2].
  cbn [snd] in *. lia.
Qed.

(** A forward pass on rows of the width that the layers fit returns, with
    one output row per input row; afterwards every layer has its
    variables, and the architecture is the one before.  In inference mode
    the pass takes from the random state what the initialisers need. *)
Lemma call_layers_ok : forall layers n xs training tf,
  DQNNetwork.fits n layers -> xs <> [] ->
  Forall (fun x => length x = n) xs ->
  exists ys layers' tf',
    DQNNetwork.call_layers layers xs training tf = Ok (ys, layers', tf') /\
    length ys = length xs /\
    Forall (fun y => length y = DQNNetwork.output_width n layers) ys /\
    DQNNetwork.fits n layers' /\ Forall DQNNetwork.built_layer layers' /\
    map DQNNetwork.erase layers' = map DQNNetwork.erase layers /\
    (training = false ->
     Random.pos tf' = (Random.pos tf + DQNNetwork.initial_draws n layers)%nat).
Proof.
  induction layers as [|[units relu vars|rate] layers IH];
    intros n xs training tf Hfit Hne Hxs.
  - exists xs, [], tf. simpl. repeat split; auto.
  - destruct Hfit as [Hvars Hfit].
    assert (Hv : exists kernel bias tf1,
      DQNNetwork.dense_vars units vars xs tf = (kernel, bias, tf1) /\
      length kernel = n /\ Forall (fun row => length row = units) kernel /\
      length bias = units /\
      Random.pos tf1
      = (Random.pos tf
         + match vars with None => n * units | Some _ => 0 end)%nat).
    { unfold DQNNetwork.dense_vars. destruct vars as [[kernel bias]|].
      - exists kernel, bias, tf. repeat split; try tauto. lia.
      - unfold glorot_uniform.
        assert (Hhd : length (hd [] xs) = n)
          by (destruct xs as [|x xs]; [congruence | now inversion Hxs]).
        rewrite Hhd.
        match goal with |- context [uniform_matrix ?r ?c ?lo ?hi ?t] =>
          pose proof (uniform_matrix_shape r c lo hi t) as [Hs1 Hs2];
          pose proof (uniform_matrix_pos r c lo hi t) as Hs3;
          destruct (uniform_matrix r c lo hi t) as [kernel tf1] end.
        exists kernel, (replicate units 0), tf1. cbn [fst snd] in *.
        repeat split; [assumption|assumption|apply length_replicate|assumption]. }
    destruct Hv as (kernel & bias & tf1 & Hv & Hk1 & Hk2 & Hb & Hpos).
    destruct (dense_rows_ok kernel bias relu units n xs Hk1 Hk2 Hb Hxs)
      as (ys & Hys & Hlen & Hw).
    destruct (IH units ys training tf1 Hfit) as
      (zs & rest & tf2 & Hcall & Hlen' & Hw' & Hfit' & Hbuilt & Harch & Hpos');
      [destruct ys; [destruct xs; simpl in *; congruence | discriminate]
      | assumption |].
    exists zs, (DQNNetwork.Dense units relu (Some (kernel, bias)) :: rest), tf2.
    cbn [DQNNetwork.call_layers]. rewrite Hv, Hys. cbn. rewrite Hcall. cbn.
    repeat split; try assumption; try congruence;
      try (now constructor); try (cbn; now rewrite Harch).
    intros Htr. rewrite (Hpos' Htr), Hpos. destruct vars; cbn; lia.
  - cbn [DQNNetwork.fits] in Hfit.
    assert (Hd : exists ys tf1,
      (if training then dropout_rows rate xs tf else (xs, tf)) = (ys, tf1) /\
      length ys = length xs /\ Forall (fun x => length x = n) ys /\
      (training = false -> tf1 = tf)).
    { destruct training.
      - pose proof (dropout_rows_shape rate n xs tf Hxs) as [H1 H2].
        destruct (dropout_rows rate xs tf) as [ys tf1].
        exists ys, tf1. repeat split; auto. discriminate.
      - eauto 10. }
    destruct Hd as (ys & tf1 & Hd & Hlen & Hys & Htf).
    destruct (IH n ys training tf1 Hfit) as
      (zs & rest & tf2 & Hcall & Hlen' & Hw' & Hfit' & Hbuilt & Harch & Hpos');
      [destruct ys; [destruct xs; simpl in *; congruence | discriminate]
      | assumption |].
    exists zs, (DQNNetwork.Dropout rate :: rest), tf2.
    cbn [DQNNetwork.call_layers]. rewrite Hd, Hcall. cbn.
    repeat split; try assumption; try congruence;
      try (now constructor); try (cbn; now rewrite Harch).
    intros Htr. rewrite (Hpos' Htr), (Htf Htr). reflexivity.
Qed.

(** In inference mode a network that has its variables is left as it is,
    and so is the random state. *)
Lemma call_layers_built : forall layers xs tf,
  Forall DQNNetwork.built_layer layers ->
  forall ys layers' tf',
    DQNNetwork.call_layers layers xs false tf = Ok (ys, layers', tf') ->
    layers' = layers /\ tf' = tf.
Proof.
  induction layers as [|[units relu vars|rate] layers IH];
    intros xs tf Hb ys layers' tf'; cbn [DQNNetwork.call_layers].
  - intros [= <- <- <-]. auto.
  - inversion Hb as [|? ? Hl Hrest]; subst.
    destruct vars as [[kernel bias]|]; [|contradiction].
    cbn [DQNNetwork.dense_vars]. intros Hc.
    apply bind_ok in Hc. destruct Hc as (zs & Hzs & Hc).
    apply bind_ok in Hc. destruct Hc as ([[zs' rest] tf2] & Hcall & [= <- <- <-]).
    destruct (IH _ _ Hrest _ _ _ Hcall) as [-> ->]. auto.
  - inversion Hb as [|? ? Hl Hrest]; subst. intros Hc.
    apply bind_ok in Hc. destruct Hc as ([[zs' rest] tf2] & Hcall & [= <- <- <-]).
    destruct (IH _ _ Hrest _ _ _ Hcall) as [-> ->]. auto.
Qed.

(** The values that an inference pass returns do not depend on the random
    state once the variables exist. *)
Lemma call_layers_deterministic : forall layers xs tf tf',
  Forall DQNNetwork.built_layer layers ->
  match DQNNetwork.call_layers layers xs false tf,
        DQNNetwork.call_layers layers xs false tf' with
  | Ok (ys, _, _), Ok (ys', _, _) => ys = ys'
  | Raise e, Raise e' => e = e'
  | _, _ => False
  end.
Proof.
  induction layers as [|[units relu vars|rate] layers IH];
    intros xs tf tf' Hb; cbn [DQNNetwork.call_layers]; [reflexivity| |].
  - inversion Hb as [|? ? Hl Hrest]; subst.
    destruct vars as [[kernel bias]|]; [|contradiction].
    cbn [DQNNetwork.dense_vars].
    destruct (mapM _ xs) as [ys|e]; cbn; [|reflexivity].
    specialize (IH ys tf tf' Hrest).
    destruct (DQNNetwork.call_layers layers ys false tf) as [[[? ?] ?]|?],
             (DQNNetwork.call_layers layers ys false tf') as [[[? ?] ?]|?];
      cbn; auto.
  - inversion Hb as [|? ? Hl Hrest]; subst.
    specialize (IH xs tf tf' Hrest).
    destruct (DQNNetwork.call_layers layers xs false tf) as [[[? ?] ?]|?],
             (DQNNetwork.call_layers layers xs false tf') as [[[? ?] ?]|?];
      cbn; auto.
Qed.

(** *** Setting weights *)

Lemma same_shape_refl a : same_shape a a.
Proof. destruct a; reflexivity. Qed.

Lemma same_shape_trans a b c : same_shape a b -> same_shape b c -> same_shape a c.
Proof. destruct a, b, c; simpl; try tauto; congruence. Qed.

Lemma map_array_shape f a : same_shape (map_array f a) a.
Proof.
  destruct a as [v|m]; simpl; [apply length_map|].
  rewrite map_map. apply map_ext. intros row. apply length_map.
Qed.

Lemma clip_by_norm_shape g clip : same_shape (clip_by_norm g clip) g.
Proof. apply map_array_shape. Qed.

(** [set_weights] accepts arrays of the shapes of the variables, and
    changes neither the architecture nor the fit. *)
Lemma assign_same_shape : forall layers weights n,
  Forall2 same_shape weights (flat_map DQNNetwork.layer_weights layers) ->
  DQNNetwork.fits n layers ->
  exists layers', DQNNetwork.assign layers weights = Ok layers' /\
    DQNNetwork.fits n layers' /\
    map DQNNetwork.erase layers' = map DQNNetwork.erase layers /\
    (Forall DQNNetwork.built_layer layers ->
     Forall DQNNetwork.built_layer layers').
Proof.
  induction layers as [|[units relu [[kernel bias]|]|rate] layers IH];
    intros weights n Hw Hfit; cbn [flat_map DQNNetwork.layer_weights app] in Hw.
  - inversion Hw; subst. exists []. simpl. auto.
  - inversion Hw as [|a ? ? ? Ha Hw1]; subst.
    inversion Hw1 as [|b ? ? ? Hb Hw2]; subst.
    destruct a as [|kernel']; [contradiction|].
    destruct b as [bias'|]; [|contradiction].
    simpl in Ha, Hb. destruct Hfit as [(Hk1 & Hk2 & Hb1) Hfit].
    destruct (IH _ _ Hw2 Hfit) as (rest & Hrest & Hfit' & Harch & Hbuilt).
    exists (DQNNetwork.Dense units relu (Some (kernel', bias')) :: rest).
    cbn [DQNNetwork.assign].
    assert (Hlen : length kernel' = length kernel)
      by (rewrite <- (length_map length kernel'), Ha; apply length_map).
    rewrite bool_decide_eq_true_2
      by (simpl; split; congruence).
    rewrite Hrest. cbn. repeat split; try assumption.
    + congruence.
    + apply Forall_forall. intros row Hrow.
      apply list_elem_of_lookup in Hrow. destruct Hrow as [i Hi].
      assert (Hi' : map length kernel' !! i = Some (length row))
        by (rewrite list_lookup_fmap, Hi; reflexivity).
      rewrite Ha, list_lookup_fmap in Hi'.
      destruct (kernel !! i) as [row'|] eqn:Er; [|discriminate].
      injection Hi' as <-. rewrite Forall_forall in Hk2. apply Hk2.
      apply list_elem_of_lookup. eauto.
    + congruence.
    + now rewrite Harch.
    + intros Hall. inversion Hall; subst. constructor; [exact I|auto].
  - destruct Hfit as [_ Hfit].
    destruct (IH _ _ Hw Hfit) as (rest & Hrest & Hfit' & Harch & Hbuilt).
    exists (DQNNetwork.Dense units relu None :: rest).
    cbn [DQNNetwork.assign]. rewrite Hrest. cbn.
    repeat split; try assumption.
    + now rewrite Harch.
    + intros Hall. inversion Hall; subst. contradiction.
  - cbn [DQNNetwork.fits] in Hfit.
    destruct (IH _ _ Hw Hfit) as (rest & Hrest & Hfit' & Harch & Hbuilt).
    exists (DQNNetwork.Dropout rate :: rest).
    cbn [DQNNetwork.assign]. rewrite Hrest. cbn.
    repeat split; try assumption.
    + now rewrite Harch.
    + intros Hall. inversion Hall; subst. constructor; [exact I|auto].
Qed.

(** Setting the weights of a network on itself changes nothing. *)
Lemma assign_own_weights : forall layers,
  DQNNetwork.assign layers (flat_map DQNNetwork.layer_weights layers) = Ok layers.
Proof.
  induction layers as [|[units relu [[kernel bias]|]|rate] layers IH];
    cbn [flat_map DQNNetwork.layer_weights app DQNNetwork.assign].
  - reflexivity.
  - rewrite bool_decide_eq_true_2 by auto. now rewrite IH.
  - now rewrite IH.
  - now rewrite IH.
Qed.

(** *** Progress of a training step *)

Lemma gather_nd_ok (A : nat) : forall rows actions,
  Forall (fun r => length r = A) rows ->
  Forall (fun a => (0 <= a < Z.of_nat A)%Z) actions ->
  exists qs, gather_nd rows actions = Ok qs.
Proof.
  induction rows as [|row rows IH]; intros actions Hr Ha; [exists []; reflexivity|].
  destruct actions as [|a actions]; [exists []; reflexivity|].
  inversion Hr; subst. inversion Ha; subst.
  destruct (IH actions) as [qs Hqs]; [assumption..|].
  cbn [gather_nd]. unfold gather_action.
  destruct (a <? 0)%Z eqn:E; [lia|].
  destruct (lookup_lt_is_Some_2 row (Z.to_nat a)) as [q ->]; [lia|].
  cbn. rewrite Hqs. cbn. eauto.
Qed.

Lemma output_width_erase : forall l l' n,
  map DQNNetwork.erase l = map DQNNetwork.erase l' ->
  DQNNetwork.output_width n l = DQNNetwork.output_width n l'.
Proof.
  induction l as [|[u r v|rate] l IH]; intros [|[u' r' v'|rate'] l'] n E;
    try discriminate; simpl in *; [reflexivity| |]; injection E; intros; subst; auto.
Qed.

Lemma call_ok (net : DQNNetwork.t) n xs training tf :
  DQNNetwork.fits n (DQNNetwork.layers_list net) -> xs <> [] ->
  Forall (fun x => length x = n) xs ->
  exists ys net' tf',
    DQNNetwork.call net xs training tf = Ok (ys, net', tf') /\
    length ys = length xs /\
    Forall (fun y => length y
                     = DQNNetwork.output_width n (DQNNetwork.layers_list net)) ys /\
    DQNNetwork.fits n (DQNNetwork.layers_list net') /\ DQNNetwork.built net' /\
    DQNNetwork.architecture net' = DQNNetwork.architecture net /\
    (training = false ->
     Random.pos tf'
     = (Random.pos tf
        + DQNNetwork.initial_draws n (DQNNetwork.layers_list net))%nat).
Proof.
  intros Hfit Hne Hxs.
  destruct (call_layers_ok _ n xs training tf Hfit Hne Hxs)
    as (ys & layers' & tf' & Hcall & Hlen & Hw & Hfit' & Hb & Harch & Hpos).
  exists ys, {| DQNNetwork.layers_list := layers' |}, tf'.
  unfold DQNNetwork.call. rewrite Hcall. cbn. auto 10.
Qed.

(** A training step that finds the agent ready learns: the first part of
    [train_step] returns a loss, and the agent is ready again, now with
    the variables of both networks created. *)
Lemma learn_ok (w : World) (n : nat) :
  lawful H -> ready n (self w) ->
  exists loss w1, learn w = (Ok loss, w1) /\ ready n (self w1) /\
    DQNNetwork.built (q_network (self w1)) /\
    DQNNetwork.built (target_network (self w1)) /\
    DQNNetwork.architecture (q_network (self w1))
    = DQNNetwork.architecture (q_network (self w)) /\
    DQNNetwork.architecture (target_network (self w1))
    = DQNNetwork.architecture (target_network (self w)).
Proof.
  intros [Hgrad Hopt] ((Hb1 & Hb2) & Hbuf & Hfq & Hft).
  assert (Hstack : ReplayBuffer.stackable (memory (self w))).
  { rewrite Forall_forall in Hbuf.
    split; intros x y Hx Hy; destruct (Hbuf x Hx) as (? & ? & _);
      destruct (Hbuf y Hy) as (? & ? & _); congruence. }
  destruct (sample_ok (memory (self w)) (batch_size (self w)) (py_random w)
              Hb1 Hb2 Hstack)
    as (idxs & picked & rng' & _ & Hlen & _ & Hpick & Hsample).
  assert (Hin : Forall (fun x => x ∈ ReplayBuffer.buffer (memory (self w))) picked).
  { apply Forall_forall. intros x Hx. apply list_elem_of_lookup in Hx.
    destruct Hx as [j Hj].
    destruct (Forall2_lookup_r _ _ _ _ _ Hpick Hj) as (i & _ & Hi).
    apply list_elem_of_lookup. eauto. }
  assert (Hne : picked <> []).
  { intros ->. apply Forall2_length in Hpick. simpl in Hpick. lia. }
  assert (Hpicked : Forall (fun x => length (t_state x) = n /\
            length (t_next_state x) = n /\
            (0 <= t_action x < Z.of_nat (DQNNetwork.output_width n
                 (DQNNetwork.layers_list (q_network (self w)))))%Z) picked).
  { rewrite Forall_forall in *. auto. }
  destruct (call_ok (q_network (self w)) n (map t_state picked) true
              (tf_random w) Hfq)
    as (cur & q1 & tf1 & Hq & Hqlen & Hqw & Hfq1 & Hbq1 & Haq1 & _).
  { destruct picked; [congruence | discriminate]. }
  { apply Forall_map. eapply Forall_impl; [exact Hpicked|]. simpl. tauto. }
  destruct (gather_nd_ok _ cur (map t_action picked) Hqw) as [qs Hqs].
  { apply Forall_map. eapply Forall_impl; [exact Hpicked|]. simpl. tauto. }
  destruct (call_ok (target_network (self w)) n (map t_next_state picked) false
              tf1 Hft)
    as (nxt & t1 & tf2 & Ht & Htlen & Htw & Hft1 & Hbt1 & Hat1 & _).
  { destruct picked; [congruence | discriminate]. }
  { apply Forall_map. eapply Forall_impl; [exact Hpicked|]. simpl. tauto. }
  unfold learn.
  unfold mbind at 1, M_bind at 1, get at 1.
  unfold mbind at 1, M_bind at 1, with_random at 1. rewrite Hsample.
  unfold mbind at 1, M_bind at 1.
  unfold mbind at 1, M_bind at 1, forward at 1.
  cbn [self tf_random py_random files b_states b_actions b_rewards
       b_next_states b_dones].
  rewrite Hq.
  unfold mbind at 1, M_bind at 1, lift at 1. rewrite Hqs.
  unfold mbind at 1, M_bind at 1, forward at 1.
  cbn [self tf_random py_random files target_network set_q_network].
  rewrite Ht.
  unfold mbind at 1, M_bind at 1, get at 1.
  cbn [self tf_random py_random files target_network q_network optimizer
       set_q_network set_target_network].
  match goal with |- context [apply_gradients ?o ?g ?v] =>
    pose proof (Hopt o g v) as Hshape;
    destruct (apply_gradients o g v) as [opt variables'] end.
  cbn [snd] in Hshape.
  destruct (assign_same_shape (DQNNetwork.layers_list q1) variables' n)
    as (layers2 & Hassign & Hfit2 & Harch2 & Hbuilt2).
  { apply Hshape. clear Hshape.
    apply Forall2_fmap_l.
    eapply Forall2_impl; [apply Hgrad|]. intros g v Hgv.
    eapply same_shape_trans; [apply clip_by_norm_shape | exact Hgv]. }
  { exact Hfq1. }
  unfold mbind at 1, M_bind at 1, modify at 1.
  unfold mbind at 1, M_bind at 1, lift at 1.
  cbn [self]. unfold DQNNetwork.set_weights. rewrite Hassign. cbn [mbind result_bind].
  unfold mbind, M_bind, modify, mret, M_ret. cbn.
  eexists _, _. split; [reflexivity|]. cbn.
  assert (Harch : map DQNNetwork.erase layers2
                  = map DQNNetwork.erase (DQNNetwork.layers_list (q_network (self w))))
    by (rewrite Harch2; exact Haq1).
  repeat split; try assumption.
  - eapply Forall_impl; [exact Hbuf|]. cbn. intros x (Hx1 & Hx2 & Hx3).
    rewrite (output_width_erase _ _ n Harch). auto.
  - unfold DQNNetwork.built. cbn. auto.
Qed.

Lemma zip_array_shape f g v : same_shape g v -> same_shape (zip_array f g v) v.
Proof.
  destruct g as [g|g], v as [v|v]; simpl; try tauto.
  - intros Hl. rewrite length_zip_with. lia.
  - revert v. induction g as [|r g IH]; intros [|r' v]; simpl; try discriminate;
      [reflexivity|].
    intros [= Hr Hg]. rewrite length_zip_with, (IH _ Hg). f_equal. lia.
Qed.

Lemma example_kernels_lawful : lawful example_kernels.
Proof.
  split.
  - intros variables tape states actions targets. simpl.
    apply Forall2_fmap_l, Forall_Forall2_diag, Forall_forall.
    intros a _. apply map_array_shape.
  - intros opt gradients variables Hg. simpl.
    induction Hg as [|g v gs vs Hgv _ IH]; simpl; constructor; [|exact IH].
    now apply zip_array_shape.
Qed.

(** A training step that finds the agent ready decays the exploration
    rate and counts a step. *)
Lemma train_step_learns (w : World) (n : nat) r w' :
  lawful H -> ready n (self w) -> train_step w = (r, w') ->
  epsilon (self w')
  = py_max (epsilon_end (self w)) (epsilon (self w) * epsilon_decay (self w)) /\
  step_count (self w') = (step_count (self w) + 1)%Z.
Proof.
  intros Hlaw Hready E.
  destruct (learn_ok w n Hlaw Hready) as (loss & w1 & Hlearn & _).
  destruct (train_step_spec w r w' E) as (_ & _ & _ & [HA | HB]).
  - destruct HA as (_ & _ & _ & _ & [Hwarm | (e & w2 & He)] & _).
    + destruct Hready as ((_ & Hlen) & _). lia.
    + congruence.
  - tauto.
Qed.

(** *** The exploration schedule *)

Lemma py_max_cases a b : py_max a b = a \/ py_max a b = b.
Proof. unfold py_max. destruct (Qle_bool b a); auto. Qed.

Lemma py_max_ge_l a b : a <= py_max a b.
Proof.
  unfold py_max. destruct (Qle_bool b a) eqn:E; [apply Qle_refl|].
  destruct (Qlt_le_dec a b) as [Hlt|Hle]; [now apply Qlt_le_weak|].
  apply Qle_bool_iff in Hle. congruence.
Qed.

Lemma py_max_lub a b c : a <= c -> b <= c -> py_max a b <= c.
Proof. unfold py_max. destruct (Qle_bool b a); auto. Qed.

Lemma decay_le e d : 0 <= e -> d <= 1 -> e * d <= e.
Proof. intros He Hd. nra. Qed.

(** One call: the exploration rate stays, or becomes the larger of the
    floor and the decayed rate. *)
Lemma train_step_epsilon (w : World) r w' :
  train_step w = (r, w') ->
  epsilon_end (self w') = epsilon_end (self w) /\
  epsilon_decay (self w') = epsilon_decay (self w) /\
  (epsilon (self w') = epsilon (self w) \/
   epsilon (self w')
   = py_max (epsilon_end (self w)) (epsilon (self w) * epsilon_decay (self w))).
Proof.
  intros E. destruct (train_step_spec w r w' E) as (He & Hd & _ & [HA | HB]);
    tauto.
Qed.

Lemma trained_schedule (w w' : World) :
  trained w w' ->
  0 <= epsilon_end (self w) -> epsilon_end (self w) <= epsilon (self w) ->
  epsilon_decay (self w) <= 1 ->
  epsilon_end (self w') = epsilon_end (self w) /\
  epsilon_decay (self w') = epsilon_decay (self w) /\
  epsilon (self w') <= epsilon (self w) /\
  epsilon_end (self w) <= epsilon (self w').
Proof.
  intros Hrun Hfloor Hstart Hdecay.
  induction Hrun as [w | w w1 r w2 _ IH Hstep | w w1 w2 _ IH Hother].
  - repeat split; (reflexivity || apply Qle_refl || assumption).
  - destruct (IH Hfloor Hstart Hdecay) as (He & Hd & Hle & Hge).
    destruct (train_step_epsilon w1 r w2 Hstep) as (He' & Hd' & [Hsame | Hmax]).
    + rewrite He', Hd', Hsame. auto.
    + rewrite He', Hd', Hmax, He, Hd. repeat split; try reflexivity.
      * apply py_max_lub; [lra|].
        apply Qle_trans with (epsilon (self w1)); [|exact Hle].
        apply decay_le; lra.
      * apply py_max_ge_l.
  - destruct (IH Hfloor Hstart Hdecay) as (He & Hd & Hle & Hge).
    destruct Hother as (Hs1 & Hs2 & Hs3 & _).
    rewrite Hs1, Hs2, Hs3. auto.
Qed.

(** *** Synchronisation *)

Lemma assign_erase : forall layers weights layers',
  DQNNetwork.assign layers weights = Ok layers' ->
  map DQNNetwork.erase layers' = map DQNNetwork.erase layers.
Proof.
  induction layers as [|l layers IH]; intros weights layers'; simpl.
  - destruct weights; [intros [= <-]; reflexivity | discriminate].
  - destruct l as [units relu [[kernel bias]|]|rate].
    + destruct weights as [|[|kernel'] [|[bias'|] weights']]; try discriminate.
      case_match; [|discriminate].
      intros Hb. apply bind_ok in Hb. destruct Hb as (rest & Hrest & [= <-]).
      simpl. now rewrite (IH _ _ Hrest).
    + intros Hb. apply bind_ok in Hb. destruct Hb as (rest & Hrest & [= <-]).
      simpl. now rewrite (IH _ _ Hrest).
    + intros Hb. apply bind_ok in Hb. destruct Hb as (rest & Hrest & [= <-]).
      simpl. now rewrite (IH _ _ Hrest).
Qed.

(** The weight list of a network is at most two arrays per dense layer,
    and exactly two once the variables exist. *)
Lemma dense_count_erase l l' :
  map DQNNetwork.erase l = map DQNNetwork.erase l' -> DQNNetwork.dense_count l = DQNNetwork.dense_count l'.
Proof.
  revert l'. induction l as [|[u r v|rate] l IH]; intros [|[u' r' v'|rate'] l'] E;
    try discriminate; simpl in *; [reflexivity| |];
    injection E; intros; rewrite (IH l'); auto.
Qed.

Lemma weights_length_le l :
  (length (flat_map DQNNetwork.layer_weights l) <= 2 * DQNNetwork.dense_count l)%nat.
Proof.
  induction l as [|[u r [[k b]|]|rate] l IH]; simpl in *; lia.
Qed.

Lemma weights_length_built l :
  Forall DQNNetwork.built_layer l ->
  length (flat_map DQNNetwork.layer_weights l) = (2 * DQNNetwork.dense_count l)%nat.
Proof.
  induction 1 as [|[u r [[k b]|]|rate] l Hl _ IH]; simpl in *;
    try contradiction; lia.
Qed.

(** Two networks of one architecture with the same weights are the same
    network, when one of them has all its variables. *)
Lemma layers_eq_of_weights : forall l1 l2,
  map DQNNetwork.erase l1 = map DQNNetwork.erase l2 ->
  Forall DQNNetwork.built_layer l2 ->
  flat_map DQNNetwork.layer_weights l1 = flat_map DQNNetwork.layer_weights l2 ->
  l1 = l2.
Proof.
  induction l1 as [|[u1 r1 v1|rate1] l1 IH];
    intros [|[u2 r2 v2|rate2] l2] Harch Hb Hw; try discriminate;
    [reflexivity| |].
  - injection Harch as -> -> Harch. inversion Hb as [|? ? Hl Hb']; subst.
    destruct v2 as [[k2 b2]|]; [|contradiction].
    destruct v1 as [[k1 b1]|]; cbn [flat_map DQNNetwork.layer_weights app] in Hw.
    + injection Hw as -> -> Hw. f_equal. auto.
    + exfalso. apply (f_equal length) in Hw. simpl in Hw.
      pose proof (weights_length_le l1) as Hle.
      rewrite (weights_length_built l2 Hb') in Hw.
      rewrite (dense_count_erase _ _ Harch) in Hle. lia.
  - injection Harch as -> Harch. inversion Hb; subst. f_equal. auto.
Qed.

(** A sync that returns has made the weight list of the target network
    the one of the online network, and has left the online network
    alone. *)
Lemma sync_copies_weights (w w' : World) :
  update_target_network w = (Ok tt, w') ->
  q_network (self w') = q_network (self w) /\
  DQNNetwork.get_weights (target_network (self w'))
  = DQNNetwork.get_weights (q_network (self w)) /\
  DQNNetwork.architecture (target_network (self w'))
  = DQNNetwork.architecture (target_network (self w)).
Proof.
  unfold update_target_network. intros E. run.
  match goal with Hs : DQNNetwork.set_weights _ _ = Ok _ |- _ =>
    pose proof (set_weights_get_weights _ _ _ Hs) as Hw;
    unfold DQNNetwork.set_weights in Hs; apply bind_ok in Hs;
    destruct Hs as (layers & Hl & [= <-]);
    pose proof (assign_erase _ _ _ Hl) as Ha end.
  cbn. auto.
Qed.

(** When the online network has its variables and the two networks have
    one architecture, the sync makes them the same network. *)
Lemma sync_networks_equal (w w' : World) :
  update_target_network w = (Ok tt, w') ->
  DQNNetwork.built (q_network (self w)) ->
  DQNNetwork.architecture (target_network (self w))
  = DQNNetwork.architecture (q_network (self w)) ->
  target_network (self w') = q_network (self w').
Proof.
  intros E Hb Harch.
  destruct (sync_copies_weights w w' E) as (Hq & Hw & Ha).
  rewrite Hq.
  destruct (target_network (self w')) as [lt], (q_network (self w)) as [lq].
  f_equal. apply layers_eq_of_weights; [|exact Hb|exact Hw].
  unfold DQNNetwork.architecture in *. cbn in *. congruence.
Qed.

(** *** Probes and the constructor *)

Lemma call_built (net : DQNNetwork.t) xs tf ys net' tf' :
  DQNNetwork.built net ->
  DQNNetwork.call net xs false tf = Ok (ys, net', tf') ->
  net' = net /\ tf' = tf.
Proof.
  intros Hb Hc. unfold DQNNetwork.call in Hc.
  apply bind_ok in Hc. destruct Hc as ([[zs layers] tf2] & Hcall & [= <- <- <-]).
  destruct (call_layers_built _ _ _ Hb _ _ _ Hcall) as [-> ->].
  now destruct net.
Qed.

Lemma call_deterministic (net : DQNNetwork.t) xs tf tf' :
  DQNNetwork.built net ->
  match DQNNetwork.call net xs false tf, DQNNetwork.call net xs false tf' with
  | Ok (ys, _, _), Ok (ys', _, _) => ys = ys'
  | Raise e, Raise e' => e = e'
  | _, _ => False
  end.
Proof.
  intros Hb. unfold DQNNetwork.call.
  pose proof (call_layers_deterministic (DQNNetwork.layers_list net) xs tf tf' Hb)
    as Hd.
  destruct (DQNNetwork.call_layers _ xs false tf) as [[[? ?] ?]|?],
           (DQNNetwork.call_layers _ xs false tf') as [[[? ?] ?]|?]; cbn; auto.
Qed.

(** Putting a network back where it was read changes nothing. *)
Lemma set_q_network_same (a : t) : set_q_network (q_network a) a = a.
Proof. now destruct a. Qed.

Lemma set_target_network_same (a : t) : set_target_network (target_network a) a = a.
Proof. now destruct a. Qed.

(** An inference pass of a network that has its variables leaves the
    world as it is. *)
Lemma forward_q_built (w : World) xs :
  DQNNetwork.built (q_network (self w)) ->
  snd (forward q_network set_q_network xs false w) = w.
Proof.
  intros Hb. unfold forward.
  destruct (DQNNetwork.call _ xs false _) as [[[ys net'] tf']|e] eqn:E;
    [|reflexivity].
  destruct (call_built _ _ _ _ _ _ Hb E) as [-> ->].
  cbn. rewrite set_q_network_same. now destruct w.
Qed.

Lemma forward_target_built (w : World) xs :
  DQNNetwork.built (target_network (self w)) ->
  snd (forward target_network set_target_network xs false w) = w.
Proof.
  intros Hb. unfold forward.
  destruct (DQNNetwork.call _ xs false _) as [[[ys net'] tf']|e] eqn:E;
    [|reflexivity].
  destruct (call_built _ _ _ _ _ _ Hb E) as [-> ->].
  cbn. rewrite set_target_network_same. now destruct w.
Qed.

(** Two networks that are the same network, with all variables, give the
    same values on every probe. *)
Lemma probe_agrees (w : World) (state : list Q) :
  DQNNetwork.built (q_network (self w)) ->
  target_network (self w) = q_network (self w) ->
  match fst (probe state w) with
  | Ok (online, target) => online = target
  | Raise _ => True
  end.
Proof.
  intros Hb Heq. unfold probe, q_values.
  unfold mbind at 1, M_bind at 1. unfold mbind at 1, M_bind at 1.
  pose proof (forward_q_built w [state] Hb) as Hw.
  destruct (forward q_network set_q_network [state] false w) as [[ys|e] w1] eqn:E1;
    cbn [snd] in Hw; subst w1; [|exact I].
  unfold mret at 1, M_ret at 1.
  unfold mbind at 1, M_bind at 1. unfold mbind at 1, M_bind at 1.
  unfold forward in *. rewrite Heq.
  destruct (DQNNetwork.call (q_network (self w)) [state] false (tf_random w))
    as [[[zs net'] tf']|e']; [|discriminate].
  injection E1 as <-. reflexivity.
Qed.

(** A sync of networks that have no variables changes nothing but the
    count of syncs. *)
Lemma sync_without_variables (w : World) :
  DQNNetwork.get_weights (q_network (self w)) = [] ->
  DQNNetwork.get_weights (target_network (self w)) = [] ->
  update_target_network w
  = (Ok tt, {| self := count_sync (self w); py_random := py_random w;
               tf_random := tf_random w; files := files w |}).
Proof.
  intros Hq Ht. unfold update_target_network.
  unfold mbind, M_bind, modify, get, lift. cbn [self py_random tf_random files].
  cbn [q_network target_network count_sync]. rewrite Hq.
  unfold DQNNetwork.set_weights, DQNNetwork.get_weights in *.
  rewrite <- Ht, assign_own_weights. cbn.
  f_equal. f_equal. destruct w as [a py tf fs]. cbn. destruct a. cbn.
  now destruct target_network0.
Qed.

Lemma init_network_weights sd ad hd :
  DQNNetwork.get_weights (DQNNetwork.init sd ad hd) = [].
Proof.
  unfold DQNNetwork.get_weights, DQNNetwork.init. cbn.
  rewrite flat_map_app. cbn.
  induction hd as [|h hd IH]; [reflexivity|]. cbn. exact IH.
Qed.

Lemma init_network_fits sd ad hd n :
  DQNNetwork.fits n (DQNNetwork.layers_list (DQNNetwork.init sd ad hd)).
Proof.
  unfold DQNNetwork.init. cbn. revert n.
  induction hd as [|h hd IH]; intros n; cbn; auto.
Qed.

(** The constructor returns, and the agent it leaves is the fresh one
    with one sync counted. *)
Lemma init_with_world hd sd ad lr e0 e1 ed g freq bs py tf fs :
  init_with hd sd ad lr e0 e1 ed g freq bs py tf fs
  = (Ok tt, {| self := count_sync (fresh hd sd ad lr e0 e1 ed g freq bs);
               py_random := py; tf_random := tf; files := fs |}).
Proof.
  unfold init_with.
  rewrite sync_without_variables; [reflexivity| |];
    apply init_network_weights.
Qed.

(** *** The cadence of the sync *)

Lemma train_step_sync_cadence (w : World) r w' :
  train_step w = (r, w') -> (0 <= step_count (self w))%Z ->
  (sync_calls (self w') = sync_calls (self w) \/
   sync_calls (self w') = S (sync_calls (self w))) /\
  (sync_calls (self w') = S (sync_calls (self w)) <->
   step_count (self w') = (step_count (self w) + 1)%Z /\
   (target_update_freq (self w) | step_count (self w'))%Z).
Proof.
  intros E Hstep.
  destruct (train_step_spec w r w' E) as (_ & _ & _ & [HA | HB]).
  - destruct HA as (_ & Hs & Hc & _). split; [auto|].
    rewrite Hs, Hc. split; intros; lia.
  - destruct HB as (_ & Hs & [(Hf & _ & Hc) | [(Hf & Hm & Hc & _) | (Hf & Hm & Hc & _)]]);
      rewrite Hs, Hc.
    + split; [auto|]. split; [lia|]. intros [_ Hd]. rewrite Hf in Hd.
      apply Z.divide_0_l in Hd. lia.
    + split; [auto|]. split; [lia|]. intros [_ Hd].
      apply Z.mod_divide in Hd; [contradiction | exact Hf].
    + split; [auto|]. split; [|reflexivity]. intros _. split; [reflexivity|].
      apply Z.mod_divide; assumption.
Qed.

(** After a training step that synchronised and returned, the two
    networks are the same network and agree on every probe. *)
Lemma train_step_sync_agrees (w : World) (n : nat) r w' (state : list Q) :
  lawful H -> ready n (self w) ->
  DQNNetwork.architecture (target_network (self w))
  = DQNNetwork.architecture (q_network (self w)) ->
  train_step w = (r, w') ->
  sync_calls (self w') = S (sync_calls (self w)) ->
  (exists loss, r = Ok (Some loss)) ->
  target_network (self w') = q_network (self w') /\
  match fst (probe state w') with
  | Ok (online, target) => online = target
  | Raise _ => True
  end.
Proof.
  intros Hlaw Hready Harch E Hsync [loss ->].
  destruct (learn_ok w n Hlaw Hready)
    as (loss1 & w1 & Hlearn & _ & Hbq & _ & Haq & Hat).
  unfold train_step in E.
  unfold mbind at 1, M_bind at 1, get at 1 in E.
  destruct Hready as ((_ & Hlen) & _).
  apply Nat.ltb_ge in Hlen. rewrite Hlen in E.
  unfold mbind at 1, M_bind at 1 in E. rewrite Hlearn in E.
  destruct (learn_frame w) as [_ Hf]. rewrite Hlearn in Hf. cbn [snd] in Hf.
  destruct Hf as (_ & _ & _ & _ & _ & Hc & _).
  unfold mbind at 1, M_bind at 1, modify at 1 in E.
  unfold mbind at 1, M_bind at 1, modify at 1 in E.
  unfold mbind at 1, M_bind at 1, get at 1 in E.
  cbn [self target_update_freq step_count set_step_count set_epsilon] in E.
  unfold mbind at 1, M_bind at 1 in E.
  destruct (target_update_freq (self w1) =? 0)%Z; [discriminate E|].
  destruct (_ mod _ =? 0)%Z.
  2:{ unfold mret at 1, M_ret at 1 in E. run; cbn in Hsync; lia. }
  match type of E with context [update_target_network ?v] =>
    destruct (update_target_network v) as [[[]|e] w2] eqn:Hu;
      [|discriminate E];
    pose proof (sync_networks_equal v w2 Hu) as Heq;
    pose proof (sync_copies_weights v w2 Hu) as (Hq2 & _) end.
  cbn [self q_network target_network set_step_count set_epsilon] in Heq, Hq2.
  specialize (Heq Hbq ltac:(congruence)).
  unfold mbind, M_bind, modify, mret, M_ret in E. injection E as _ <-.
  cbn [self q_network target_network set_loss_history].
  split; [exact Heq|].
  apply probe_agrees; cbn [self q_network target_network set_loss_history];
    [congruence | exact Heq].
Qed.

(** *** The first forward passes of a new agent *)

Lemma weights_nonempty l :
  Forall DQNNetwork.built_layer l -> (0 < DQNNetwork.dense_count l)%nat ->
  flat_map DQNNetwork.layer_weights l <> [].
Proof.
  intros Hb Hc Hw. apply (f_equal length) in Hw.
  rewrite (weights_length_built l Hb) in Hw. simpl in Hw. lia.
Qed.

Lemma init_network_dense_count sd ad hd :
  (0 < DQNNetwork.dense_count (DQNNetwork.layers_list (DQNNetwork.init sd ad hd)))%nat.
Proof.
  unfold DQNNetwork.init. cbn.
  induction hd as [|h hd IH]; cbn; lia.
Qed.

Lemma single_row {A : Type} (ys : list A) : length ys = 1%nat -> exists y, ys = [y].
Proof. destruct ys as [|y [|? ?]]; try discriminate. eauto. Qed.

(** A probe of an agent whose networks are new and equal: each network
    creates its variables in its own forward pass, the target network
    from the random state that the online network left behind. *)
Lemma probe_new_networks (w : World) (net : DQNNetwork.t) (state : list Q) :
  q_network (self w) = net -> target_network (self w) = net ->
  DQNNetwork.get_weights net = [] ->
  DQNNetwork.fits (length state) (DQNNetwork.layers_list net) ->
  exists online target q' t' tf1 tf2,
    DQNNetwork.call net [state] false (tf_random w) = Ok ([online], q', tf1) /\
    DQNNetwork.call net [state] false tf1 = Ok ([target], t', tf2) /\
    probe state w
    = (Ok (online, target),
       {| self := set_target_network t' (set_q_network q' (self w));
          py_random := py_random w; tf_random := tf2; files := files w |}) /\
    Random.pos tf1
    = (Random.pos (tf_random w)
       + DQNNetwork.initial_draws (length state) (DQNNetwork.layers_list net))%nat.
Proof.
  intros Hq Ht Hw Hfit.
  destruct (call_ok net (length state) [state] false (tf_random w) Hfit)
    as (ys & q' & tf1 & Hc1 & Hl1 & _ & _ & _ & _ & Hpos);
    [discriminate | repeat constructor |].
  destruct (single_row ys Hl1) as [online ->].
  destruct (call_ok net (length state) [state] false tf1 Hfit)
    as (zs & t' & tf2 & Hc2 & Hl2 & _);
    [discriminate | repeat constructor |].
  destruct (single_row zs Hl2) as [target ->].
  exists online, target, q', t', tf1, tf2.
  repeat split; [exact Hc1 | exact Hc2 | | exact (Hpos eq_refl)].
  unfold probe, q_values.
  unfold mbind at 1, M_bind at 1. unfold mbind at 1, M_bind at 1.
  unfold forward at 1. rewrite Hq, Hc1.
  unfold mret at 1, M_ret at 1.
  unfold mbind at 1, M_bind at 1. unfold mbind at 1, M_bind at 1.
  unfold forward at 1. cbn [self tf_random py_random files target_network set_q_network].
  rewrite Ht, Hc2. reflexivity.
Qed.

Lemma default_initial_draws sd ad n :
  (0 < DQNNetwork.initial_draws n
         (DQNNetwork.layers_list (DQNNetwork.init sd ad default_hidden_dims)))%nat.
Proof.
  unfold DQNNetwork.init, default_hidden_dims.
  cbn [DQNNetwork.layers_list flat_map app DQNNetwork.initial_draws].
  assert (0 < 512 * 256)%nat by (apply Nat.mul_pos_pos; lia). lia.
Qed.

(** The greedy branch of [select_action], spelled out. *)
Lemma select_action_greedy (w : World) (state : list Q) :
  select_action state false w
  = match DQNNetwork.call (q_network (self w)) [state] false (tf_random w) with
    | Ok (ys, net', tf') =>
        let w1 := {| self := set_q_network net' (self w);
                     py_random := py_random w; tf_random := tf';
                     files := files w |} in
        match argmax (hd [] ys) with
        | Ok i => (Ok (Z.of_nat i), w1)
        | Raise e => (Raise e, w1)
        end
    | Raise e => (Raise e, w)
    end.
Proof.
  unfold select_action, mbind, M_bind, get, mret, M_ret, forward, lift.
  destruct (DQNNetwork.call _ _ _ _) as [[[ys net'] tf']|e]; [|reflexivity].
  destruct (argmax (hd [] ys)); reflexivity.
Qed.

(** *** Checkpoints *)

Lemma append_inj_prefix (p a b : string) : p +:+ a = p +:+ b -> a = b.
Proof.
  induction p as [|c p IH]; simpl; [auto|]. intros [= E]. auto.
Qed.

Lemma mapM_as_float (l : list Q) : mapM as_float (map JFloat l) = Ok l.
Proof. induction l as [|q l IH]; simpl; [reflexivity|]. now rewrite IH. Qed.

(** [save] returns, and writes the three files. *)
Lemma save_world (w : World) (filepath : string) :
  save filepath w
  = (Ok tt,
     {| self := self w; py_random := py_random w; tf_random := tf_random w;
        files :=
          <[filepath +:+ "_state.json" :=
              JsonFile (JObject
                [ ("epsilon"%string, JFloat (epsilon (self w)));
                  ("step_count"%string, JInt (step_count (self w)));
                  ("loss_history"%string,
                   JList (map JFloat (loss_history (self w)))) ])]>
          (<[filepath +:+ "_target_network" :=
               WeightsFile (DQNNetwork.get_weights (target_network (self w)))]>
           (<[filepath +:+ "_q_network" :=
                WeightsFile (DQNNetwork.get_weights (q_network (self w)))]>
            (files w))) |}).
Proof. reflexivity. Qed.

Lemma load_weights_ok (w : World) net put path weights n :
  files w !! path = Some (WeightsFile weights) ->
  DQNNetwork.restore (net (self w)) weights = Ok n ->
  load_weights net put path w
  = (Ok tt, {| self := put n (self w); py_random := py_random w;
               tf_random := tf_random w; files := files w |}).
Proof.
  intros Hf Hr. unfold load_weights, mbind, M_bind, read_file, get, lift, modify.
  rewrite Hf. cbn. rewrite Hr. reflexivity.
Qed.

Lemma is_ok_inv {A : Type} (r : result A) : is_ok r -> exists a, r = Ok a.
Proof. destruct r; [eauto | contradiction]. Qed.

(** What [load] does with the checkpoint that [save] wrote, on an agent
    whose networks take the stored weights: it returns, the networks hold
    the stored weights, and the exploration rate, the step counter and the
    loss history are those of the agent that saved. *)
Lemma load_after_save (w : World) (filepath : string) (loader : t) nq nt :
  DQNNetwork.restore (q_network loader)
    (DQNNetwork.get_weights (q_network (self w))) = Ok nq ->
  DQNNetwork.restore (target_network loader)
    (DQNNetwork.get_weights (target_network (self w))) = Ok nt ->
  let saved := snd (save filepath w) in
  load filepath {| self := loader; py_random := py_random saved;
                   tf_random := tf_random saved; files := files saved |}
  = (Ok tt,
     {| self := set_loss_history (loss_history (self w))
                  (set_step_count (step_count (self w))
                     (set_epsilon (epsilon (self w))
                        (set_target_network nt (set_q_network nq loader))));
        py_random := py_random saved; tf_random := tf_random saved;
        files := files saved |}).
Proof.
  intros Hq Ht saved. subst saved. rewrite save_world. cbn [snd files
    py_random tf_random].
  unfold load.
  unfold mbind at 1, M_bind at 1.
  erewrite load_weights_ok; [| |exact Hq].
  2:{ cbn [files].
      rewrite lookup_insert_ne by (intros E; apply append_inj_prefix in E;
                                   discriminate E).
      rewrite lookup_insert_ne by (intros E; apply append_inj_prefix in E;
                                   discriminate E).
      apply lookup_insert_eq. }
  unfold mbind at 1, M_bind at 1.
  erewrite load_weights_ok; [| |exact Ht].
  2:{ cbn [files].
      rewrite lookup_insert_ne by (intros E; apply append_inj_prefix in E;
                                   discriminate E).
      apply lookup_insert_eq. }
  unfold mbind at 1, M_bind at 1, read_file at 1. cbn [files].
  rewrite lookup_insert_eq.
  unfold mbind, M_bind, lift, modify, result_bind, json_item, as_float,
    as_int, as_float_list.
  cbn [json_get String.eqb Ascii.eqb Bool.eqb].
  rewrite mapM_as_float. reflexivity.
Qed.

(** A network takes its own weights back when all its variables exist or
    none does. *)
Lemma restore_layers_own : forall layers,
  Forall DQNNetwork.built_layer layers ->
  DQNNetwork.restore_layers layers (flat_map DQNNetwork.layer_weights layers)
  = Ok layers.
Proof.
  induction 1 as [|[units relu [[kernel bias]|]|rate] layers Hl _ IH];
    cbn [flat_map DQNNetwork.layer_weights app DQNNetwork.restore_layers].
  - reflexivity.
  - rewrite bool_decide_eq_true_2 by auto. now rewrite IH.
  - contradiction.
  - now rewrite IH.
Qed.

Lemma restore_own (net : DQNNetwork.t) :
  DQNNetwork.built net \/ DQNNetwork.get_weights net = [] ->
  DQNNetwork.restore net (DQNNetwork.get_weights net) = Ok net.
Proof.
  unfold DQNNetwork.restore, DQNNetwork.get_weights.
  intros [Hb | ->]; [|reflexivity].
  rewrite (restore_layers_own _ Hb).
  destruct (flat_map _ _); destruct net; reflexivity.
Qed.

(** A network without variables takes the weights of a network of its
    architecture and becomes that network. *)
Lemma restore_layers_new : forall layers,
  Forall DQNNetwork.built_layer layers ->
  DQNNetwork.restore_layers (map DQNNetwork.erase layers)
    (flat_map DQNNetwork.layer_weights layers) = Ok layers.
Proof.
  induction 1 as [|[units relu [[kernel bias]|]|rate] layers Hl _ IH];
    cbn [map DQNNetwork.erase flat_map DQNNetwork.layer_weights app
         DQNNetwork.restore_layers].
  - reflexivity.
  - now rewrite IH.
  - contradiction.
  - now rewrite IH.
Qed.

End AgentFacts.

(** ** The exploration rate: C4 *)

Section ScheduleExample.

Import DQNAgent.
Lemma near_floor_agent :
  let a := self near_floor_world in
  ReplayBuffer.buffer (memory a) = [example_transition 4 1] /\
  batch_size a = 1%nat /\
  q_network a = DQNNetwork.init 4 5 default_hidden_dims /\
  target_network a = DQNNetwork.init 4 5 default_hidden_dims /\
  epsilon a = 501 # 10000 /\ epsilon_end a = 5 # 100 /\
  epsilon_decay a = 995 # 1000.
Proof. vm_compute. repeat split; reflexivity. Qed.

Lemma near_floor_ready : @ready example_kernels 4 (self near_floor_world).
Proof.
  destruct near_floor_agent as (Hb & Hk & Hq & Ht & _).
  unfold ready, ReplayBuffer.len. rewrite Hb, Hk, Hq, Ht. cbn.
  repeat split; try lia. constructor; [|constructor]. cbn. repeat split; lia.
Qed.

(** C4, as the claim states it, fails: with the exploration rate at
    0.0501, just above the floor of 0.05, one training step sets it to
    the floor, which is neither the rate before nor that rate times the
    decay factor 0.995. *)
Lemma C4_counterexample :
  let a := self near_floor_world in
  let a' := self (snd (@train_step example_kernels near_floor_world)) in
  epsilon a' == 5 # 100 /\
  ~ epsilon a' == epsilon a /\ ~ epsilon a' == epsilon a * epsilon_decay a.
Proof.
  intros a a'.
  destruct (@train_step example_kernels near_floor_world) as [r w'] eqn:E.
  destruct (train_step_learns near_floor_world 4 r w'
              example_kernels_lawful near_floor_ready E) as [He _].
  subst a a'. cbn [snd]. rewrite He.
  destruct near_floor_agent as (_ & _ & _ & _ & -> & -> & ->).
  vm_compute. repeat split; discriminate.
Qed.

End ScheduleExample.

Section ScheduleClaims.

Import DQNAgent.

Context `{Kernels}.

(** C4 (amended): a [train_step] call leaves the exploration rate
    unchanged or sets it to [max(epsilon_end, epsilon * epsilon_decay)],
    the decayed rate or the floor itself.  With a floor that is not
    negative, a rate that starts at or above the floor and a decay factor
    of at most one, the rate never rises and never falls below the floor
    across any sequence of successive calls. *)
Theorem C4_epsilon_decays_to_the_floor (w w' : World) :
  trained w w' ->
  0 <= epsilon_end (self w) -> epsilon_end (self w) <= epsilon (self w) ->
  epsilon_decay (self w) <= 1 ->
  epsilon (self w') <= epsilon (self w) /\
  epsilon_end (self w) <= epsilon (self w') /\
  (forall v r v', train_step v = (r, v') ->
     epsilon (self v') = epsilon (self v) \/
     epsilon (self v')
     = py_max (epsilon_end (self v)) (epsilon (self v) * epsilon_decay (self v))).
Proof.
  intros Hrun Hfloor Hstart Hdecay.
  destruct (trained_schedule w w' Hrun Hfloor Hstart Hdecay)
    as (_ & _ & Hle & Hge).
  repeat split; try assumption.
  intros v r v' Hstep. now destruct (train_step_epsilon v r v' Hstep) as (_ & _ & ?).
Qed.

End ScheduleClaims.

Lemma C4_epsilon_decays_to_the_floor_witness :
  let w := near_floor_world in
  let w' := snd (@DQNAgent.train_step example_kernels w) in
  DQNAgent.epsilon (DQNAgent.self w') <= DQNAgent.epsilon (DQNAgent.self w) /\
  DQNAgent.epsilon_end (DQNAgent.self w) <= DQNAgent.epsilon (DQNAgent.self w') /\
  (forall v r v', @DQNAgent.train_step example_kernels v = (r, v') ->
     DQNAgent.epsilon (DQNAgent.self v') = DQNAgent.epsilon (DQNAgent.self v) \/
     DQNAgent.epsilon (DQNAgent.self v')
     = py_max (DQNAgent.epsilon_end (DQNAgent.self v))
         (DQNAgent.epsilon (DQNAgent.self v)
          * DQNAgent.epsilon_decay (DQNAgent.self v))).
Proof.
  intros w w'.
  destruct (@DQNAgent.train_step example_kernels w) as [r w1] eqn:E.
  apply (C4_epsilon_decays_to_the_floor w w').
  - subst w'. eapply DQNAgent.trained_step; [apply DQNAgent.trained_refl|].
    rewrite E. reflexivity.
  - vm_compute. discriminate.
  - vm_compute. discriminate.
  - vm_compute. discriminate.
Defined.

(** ** The two networks: C5, C9 and C10 *)

Section NetworkClaims.

Import DQNAgent.

Context `{Kernels}.

(** C5: a sync of networks that have not yet been called copies nothing.
    After [DQNAgent(state_dim)], an explicit [update_target_network]
    returns and leaves both networks without variables; the first probe
    then makes each network create its own: the online values come from
    the initialiser at the random state of the probe, the target values
    from the initialiser at a later state.  The claim holds for the syncs
    of [train_step], which run after both networks were called (lemmas
    [train_step_sync_cadence] and [train_step_sync_agrees]). *)
Theorem C5_sync_before_the_first_call_copies_nothing
  (state_dim : nat) (py tf : Random.state) (fs : gmap string File)
  (state : list Q) :
  let w := snd (init state_dim py tf fs) in
  let w' := snd (update_target_network w) in
  fst (update_target_network w) = Ok tt /\
  DQNNetwork.get_weights (q_network (self w')) = [] /\
  DQNNetwork.get_weights (target_network (self w')) = [] /\
  exists online target q' t' tf1 tf2,
    DQNNetwork.call (q_network (self w')) [state] false tf
    = Ok ([online], q', tf1) /\
    DQNNetwork.call (q_network (self w')) [state] false tf1
    = Ok ([target], t', tf2) /\
    fst (probe state w') = Ok (online, target) /\
    (Random.pos tf < Random.pos tf1)%nat.
Proof.
  intros w w'. subst w w'. unfold init. rewrite init_with_world. cbn [snd].
  rewrite sync_without_variables by apply init_network_weights.
  cbn [fst snd self q_network target_network count_sync fresh].
  split; [reflexivity|].
  split; [apply init_network_weights|]. split; [apply init_network_weights|].
  match goal with |- context [probe state ?v] =>
    destruct (probe_new_networks v
                (DQNNetwork.init state_dim 5 default_hidden_dims) state
                eq_refl eq_refl (init_network_weights _ _ _)
                (init_network_fits _ _ _ _))
      as (online & target & q' & t' & tf1 & tf2 & Hc1 & Hc2 & Hp & Hpos) end.
  exists online, target, q', t', tf1, tf2. cbn [tf_random] in *.
  repeat split; [exact Hc1 | exact Hc2 | now rewrite Hp |].
  rewrite Hpos. pose proof (default_initial_draws state_dim 5 (length state)). lia.
Qed.

(** C9: the constructor's [update_target_network] runs before either
    network has variables and copies an empty weight list: the new agent
    holds two networks without variables and has counted one sync.  Each
    network creates its variables in its first forward pass, so a probe
    reads online values initialised at the random state of the probe and
    target values initialised at a later state of the stream. *)
Theorem C9_constructor_sync_copies_no_weights
  (state_dim : nat) (py tf : Random.state) (fs : gmap string File)
  (state : list Q) :
  let w := snd (init state_dim py tf fs) in
  fst (init state_dim py tf fs) = Ok tt /\
  sync_calls (self w) = 1%nat /\
  DQNNetwork.get_weights (q_network (self w)) = [] /\
  DQNNetwork.get_weights (target_network (self w)) = [] /\
  target_network (self w) = q_network (self w) /\
  exists online target q' t' tf1 tf2,
    DQNNetwork.call (q_network (self w)) [state] false tf
    = Ok ([online], q', tf1) /\
    DQNNetwork.call (q_network (self w)) [state] false tf1
    = Ok ([target], t', tf2) /\
    fst (probe state w) = Ok (online, target) /\
    (Random.pos tf < Random.pos tf1)%nat.
Proof.
  intros w. subst w. unfold init. rewrite init_with_world.
  cbn [fst snd self q_network target_network count_sync fresh sync_calls].
  split; [reflexivity|]. split; [reflexivity|].
  split; [apply init_network_weights|]. split; [apply init_network_weights|].
  split; [reflexivity|].
  match goal with |- context [probe state ?v] =>
    destruct (probe_new_networks v
                (DQNNetwork.init state_dim 5 default_hidden_dims) state
                eq_refl eq_refl (init_network_weights _ _ _)
                (init_network_fits _ _ _ _))
      as (online & target & q' & t' & tf1 & tf2 & Hc1 & Hc2 & Hp & Hpos) end.
  exists online, target, q', t', tf1, tf2. cbn [tf_random] in *.
  repeat split; [exact Hc1 | exact Hc2 | now rewrite Hp |].
  rewrite Hpos. pose proof (default_initial_draws state_dim 5 (length state)). lia.
Qed.

(** C10 (amended): on an agent whose online network has its variables,
    [select_action(state, training=False)] leaves the whole world as it
    is (agent, random sources, files), and the action it returns
    depends on the online network and the state only. *)
Theorem C10_greedy_action_is_pure_once_built (w : World) (state : list Q) :
  DQNNetwork.built (q_network (self w)) ->
  snd (select_action state false w) = w /\
  forall w2, q_network (self w2) = q_network (self w) ->
    fst (select_action state false w2) = fst (select_action state false w).
Proof.
  intros Hb. split.
  - rewrite select_action_greedy.
    destruct (DQNNetwork.call _ _ _ _) as [[[ys net'] tf']|e] eqn:E;
      [|reflexivity].
    destruct (call_built _ _ _ _ _ _ Hb E) as [-> ->].
    rewrite set_q_network_same.
    destruct (argmax (hd [] ys)); cbn; now destruct w.
  - intros w2 Hq. rewrite !select_action_greedy, Hq.
    pose proof (call_deterministic (q_network (self w)) [state]
                  (tf_random w2) (tf_random w) Hb) as Hd.
    destruct (DQNNetwork.call _ [state] false (tf_random w2)) as [[[ys ?] ?]|e],
             (DQNNetwork.call _ [state] false (tf_random w)) as [[[ys' ?] ?]|e'];
      try contradiction; subst; [|reflexivity].
    destruct (argmax (hd [] ys')); reflexivity.
Qed.

End NetworkClaims.

Section NetworkExamples.

Import DQNAgent.

#[local] Existing Instance example_kernels.

Lemma new_agent_world_eq :
  new_agent_world
  = {| self := count_sync (fresh default_hidden_dims 4 5 (1 # 10000) 1
                             (5 # 100) (995 # 1000) (99 # 100) 1000 64);
       py_random := example_random; tf_random := example_tf; files := ∅ |}.
Proof. unfold new_agent_world, init. now rewrite init_with_world. Qed.

(** C10, as the claim states it, fails: on a new agent the greedy action
    is returned by a forward pass that creates the parameters of the
    online network, drawing from TensorFlow's random state. *)
Lemma C10_counterexample :
  let w := new_agent_world in
  DQNNetwork.get_weights (q_network (self w)) = [] /\
  exists action w',
    select_action [1; 1; 1; 1] false w = (Ok action, w') /\
    DQNNetwork.get_weights (q_network (self w')) <> [] /\
    (Random.pos (tf_random w) < Random.pos (tf_random w'))%nat.
Proof.
  intros w. subst w. rewrite new_agent_world_eq.
  cbn [self q_network count_sync fresh tf_random].
  split; [apply init_network_weights|].
  rewrite select_action_greedy.
  cbn [self q_network count_sync fresh tf_random py_random files].
  destruct (call_ok (DQNNetwork.init 4 5 default_hidden_dims) 4
              [[1; 1; 1; 1]] false example_tf (init_network_fits _ _ _ _))
    as (ys & q' & tf1 & Hc & Hl & Hw & _ & Hb & Ha & Hpos);
    [discriminate | repeat constructor |].
  rewrite Hc. destruct (single_row ys Hl) as [y ->].
  inversion Hw as [|? ? Hy _]; subst.
  destruct y as [|y0 y]; [discriminate Hy|].
  cbn [hd argmax]. eexists _, _. split; [reflexivity|].
  cbn [self q_network set_q_network tf_random]. split.
  - apply weights_nonempty; [exact Hb|].
    unfold DQNNetwork.architecture in Ha.
    rewrite (dense_count_erase _ _ Ha). apply init_network_dense_count.
  - rewrite (Hpos eq_refl).
    pose proof (default_initial_draws 4 5 4). lia.
Qed.

Lemma C10_greedy_action_is_pure_once_built_witness :
  let w := snd (select_action [1; 1] false small_world) in
  snd (select_action [1; 1] false w) = w /\
  forall w2, q_network (self w2) = q_network (self w) ->
    fst (select_action [1; 1] false w2) = fst (select_action [1; 1] false w).
Proof.
  intros w. apply (C10_greedy_action_is_pure_once_built w [1; 1]).
  vm_compute. repeat constructor.
Defined.

(** On the small agent the two networks, never synchronised on existing
    weights, return different values on the state [(1, 1)]: the target
    network returns zeros, the online network does not. *)
Example new_networks_disagree :
  exists online target,
    fst (probe [1; 1] small_world) = Ok (online, target) /\
    Forall (fun q => q == 0) target /\ ~ Forall (fun q => q == 0) online.
Proof.
  destruct (fst (probe [1; 1] small_world)) as [[online target]|e] eqn:E;
    vm_compute in E; [|discriminate E].
  injection E as <- <-. eexists _, _. split; [reflexivity|]. split.
  - repeat constructor.
  - intros Hall. inversion Hall as [|? ? Hq _]. discriminate Hq.
Qed.

(** An explicit sync of the new small agent changes nothing of that. *)
Example sync_of_new_networks_is_void :
  fst (probe [1; 1] (snd (update_target_network small_world)))
  = fst (probe [1; 1] small_world).
Proof. vm_compute. reflexivity. Qed.

(** Once the online network alone has been called, a sync raises. *)
Example sync_after_one_call_raises :
  fst (update_target_network (snd (select_action [1; 1] false small_world)))
  = Raise ValueError.
Proof. vm_compute. reflexivity. Qed.

End NetworkExamples.

(** ** Checkpoints: C8 *)

Section CheckpointClaims.

Import DQNAgent.

Context `{Kernels}.

(** C8: [save] followed by [load] on the same path, by an agent whose
    networks take the stored weights (the agent that saved, or a new
    agent of its architecture), returns and restores the exploration
    rate, the step counter and the loss history of the moment of the
    save. *)
Theorem C8_checkpoint_round_trip (w : World) (filepath : string) (loader : t) :
  is_ok (DQNNetwork.restore (q_network loader)
           (DQNNetwork.get_weights (q_network (self w)))) ->
  is_ok (DQNNetwork.restore (target_network loader)
           (DQNNetwork.get_weights (target_network (self w)))) ->
  let saved := snd (save filepath w) in
  let loaded := load filepath {| self := loader; py_random := py_random saved;
                                 tf_random := tf_random saved;
                                 files := files saved |} in
  fst loaded = Ok tt /\
  epsilon (self (snd loaded)) = epsilon (self w) /\
  step_count (self (snd loaded)) = step_count (self w) /\
  loss_history (self (snd loaded)) = loss_history (self w).
Proof.
  intros Hq Ht saved loaded. subst saved loaded.
  apply is_ok_inv in Hq, Ht. destruct Hq as [nq Hq], Ht as [nt Ht].
  rewrite (load_after_save w filepath loader nq nt Hq Ht). cbn. auto.
Qed.

(** The agent that saved can load: every field that [save] wrote comes
    back, and the networks keep their weights. *)
Lemma save_then_load_same_agent (w : World) (filepath : string) :
  (DQNNetwork.built (q_network (self w))
   \/ DQNNetwork.get_weights (q_network (self w)) = []) ->
  (DQNNetwork.built (target_network (self w))
   \/ DQNNetwork.get_weights (target_network (self w)) = []) ->
  load filepath (snd (save filepath w)) = (Ok tt, snd (save filepath w)).
Proof.
  intros Hq Ht.
  pose proof (load_after_save w filepath (self w) _ _
                (restore_own _ Hq) (restore_own _ Ht)) as Hl.
  cbn zeta in Hl. rewrite save_world in *. cbn [snd self py_random tf_random
    files] in *. rewrite Hl. f_equal. f_equal.
  destruct w as [a py tf fs]. cbn. now destruct a.
Qed.

End CheckpointClaims.

Section CheckpointExamples.

Import DQNAgent.

#[local] Existing Instance example_kernels.

Lemma C8_checkpoint_round_trip_witness :
  let w := snd (select_action [1; 1] false small_world) in
  let saved := snd (save "agent_0" w) in
  let loaded := load "agent_0" {| self := self w; py_random := py_random saved;
                                  tf_random := tf_random saved;
                                  files := files saved |} in
  fst loaded = Ok tt /\
  epsilon (self (snd loaded)) = epsilon (self w) /\
  step_count (self (snd loaded)) = step_count (self w) /\
  loss_history (self (snd loaded)) = loss_history (self w).
Proof.
  intros w.
  apply (C8_checkpoint_round_trip w "agent_0" (self w)).
  - vm_compute. exact I.
  - vm_compute. exact I.
Defined.

End CheckpointExamples.

(** * Further properties of the code *)

(** ** The replay buffer *)

Section BufferExtras.

Lemma push_buffer (b : ReplayBuffer.t) x :
  (ReplayBuffer.len b <= ReplayBuffer.capacity b)%nat ->
  ReplayBuffer.buffer (ReplayBuffer.push b x)
  = drop (length (ReplayBuffer.buffer b ++ [x]) - ReplayBuffer.capacity b)
         (ReplayBuffer.buffer b ++ [x]) /\
  ReplayBuffer.capacity (ReplayBuffer.push b x) = ReplayBuffer.capacity b.
Proof.
  unfold ReplayBuffer.len, ReplayBuffer.push. intros Hle.
  cbn [ReplayBuffer.buffer ReplayBuffer.capacity].
  split; [|reflexivity].
  rewrite length_app. cbn [length].
  destruct (Nat.ltb_spec (ReplayBuffer.capacity b)
              (length (ReplayBuffer.buffer b) + 1)) as [Hlt|Hge].
  - replace (length (ReplayBuffer.buffer b) + 1 - ReplayBuffer.capacity b)%nat
      with 1%nat by lia. reflexivity.
  - replace (length (ReplayBuffer.buffer b) + 1 - ReplayBuffer.capacity b)%nat
      with 0%nat by lia. reflexivity.
Qed.

Lemma pushes_buffer (xs : list Transition) : forall b : ReplayBuffer.t,
  (ReplayBuffer.len b <= ReplayBuffer.capacity b)%nat ->
  ReplayBuffer.buffer (fold_left ReplayBuffer.push xs b)
  = drop (length (ReplayBuffer.buffer b ++ xs) - ReplayBuffer.capacity b)
         (ReplayBuffer.buffer b ++ xs) /\
  ReplayBuffer.capacity (fold_left ReplayBuffer.push xs b) = ReplayBuffer.capacity b.
Proof.
  induction xs as [|x xs IH]; intros b Hle.
  - cbn. rewrite app_nil_r.
    replace (length (ReplayBuffer.buffer b) - ReplayBuffer.capacity b)%nat
      with 0%nat by (unfold ReplayBuffer.len in Hle; lia).
    auto.
  - cbn [fold_left].
    destruct (push_buffer b x Hle) as [Hb Hc].
    assert (Hle' : (ReplayBuffer.len (ReplayBuffer.push b x)
                    <= ReplayBuffer.capacity (ReplayBuffer.push b x))%nat).
    { unfold ReplayBuffer.len in *. rewrite Hb, Hc, length_drop, length_app.
      cbn. lia. }
    destruct (IH _ Hle') as [IHb IHc]. rewrite IHb, IHc, Hc, Hb.
    split; [|reflexivity].
    rewrite (cons_middle x (ReplayBuffer.buffer b) xs), app_assoc.
    set (l := ReplayBuffer.buffer b ++ [x]).
    set (c := ReplayBuffer.capacity b).
    assert (Hl : (length l <= c + 1)%nat).
    { subst l. rewrite length_app. cbn. unfold ReplayBuffer.len in Hle. lia. }
    rewrite <- (drop_app_le l xs (length l - c)) by lia.
    rewrite drop_drop. f_equal.
    rewrite length_drop, !length_app. lia.
Qed.

(** X1: a replay buffer of capacity [c] that has received the transitions
    [xs], in this order, holds the last [c] of them, oldest first; its
    length is the smaller of the two counts and never exceeds [c]. *)
Theorem X1_buffer_keeps_the_latest (c : nat) (xs : list Transition) :
  let self := fold_left ReplayBuffer.push xs (ReplayBuffer.init c) in
  ReplayBuffer.buffer self = drop (length xs - c) xs /\
  ReplayBuffer.len self = Nat.min (length xs) c.
Proof.
  intros self.
  destruct (pushes_buffer xs (ReplayBuffer.init c)) as [Hb _].
  { cbn. lia. }
  cbn in Hb. fold self in Hb.
  split; [exact Hb|].
  unfold ReplayBuffer.len. rewrite Hb, length_drop. lia.
Qed.

End BufferExtras.

(** ** The state encoder *)

Section EncoderExtras.

Import GameStateProcessor.

Lemma normalize_value x y z m :
  ~ m == 0 ->
  normalize (x, y, z) m = Ok [(x + m / 2) / m; y / 5; (z + m / 2) / m].
Proof.
  intros Hm. unfold normalize.
  rewrite !py_div_ok by (assumption || (intros E; discriminate E)).
  cbn. rewrite !py_div_ok by (assumption || (intros E; discriminate E)).
  reflexivity.
Qed.

Lemma normalize_raise p m : m == 0 -> normalize p m = Raise ZeroDivisionError.
Proof.
  intros Hm. destruct p as [[x y] z]. unfold normalize.
  rewrite (py_div_ok m 2) by (intros E; discriminate E). cbn.
  rewrite (py_div_raise (x + m / 2) m) by exact Hm. reflexivity.
Qed.

Lemma mapM_ok_inv {A B : Type} (f : A -> result B) (l : list A) bs :
  mapM f l = Ok bs -> forall a, a ∈ l -> exists b, f a = Ok b.
Proof.
  revert bs. induction l as [|a l IH]; intros bs Hm x Hx.
  - inversion Hx.
  - cbn in Hm. apply bind_ok in Hm as (b & Hb & Hm).
    apply bind_ok in Hm as (bs' & Hbs & _).
    apply elem_of_cons in Hx as [->|Hx]; eauto.
Qed.

Lemma mapM_ext {A B : Type} (f g : A -> result B) (l : list A) :
  (forall a, a ∈ l -> f a = g a) -> mapM f l = mapM g l.
Proof.
  induction l as [|a l IH]; intros Hfg; [reflexivity|].
  cbn. rewrite (Hfg a) by constructor.
  rewrite IH; [reflexivity|].
  intros x Hx. apply Hfg. now constructor.
Qed.

Lemma cp_row_ok_color M G cps m i cp v :
  cps !! i = Some cp -> cp_row (init M G) cps m i = Ok v ->
  color_accepted (color cp).
Proof.
  intros Hi Hv. unfold cp_row in Hv. rewrite Hi in Hv.
  apply bind_ok in Hv as (pos & _ & Hv).
  apply bind_ok in Hv as (onehot & Ho & _).
  destruct (color cp) as [c|]; [|exact I]. cbn.
  destruct (Z_le_dec (-5) c) as [Hc|Hc]; [exact Hc|].
  rewrite color_onehot_raise in Ho by exact Hc. discriminate.
Qed.

Lemma cp_row_raise_color M G cps m i e :
  ~ m == 0 -> cp_row (init M G) cps m i = Raise e -> e = IndexError.
Proof.
  intros Hm He. unfold cp_row in He.
  destruct (cps !! i) as [cp|]; [|discriminate].
  destruct (position cp) as [[x y] z].
  rewrite normalize_value in He by exact Hm. cbn in He.
  destruct (color_onehot (color cp)) as [o|e'] eqn:Ho; [discriminate|].
  cbn in He. injection He as <-.
  destruct (color cp) as [c|]; cbn in Ho;
    eapply py_setitem_error; exact Ho.
Qed.

Lemma process_state_accepted M G gs v :
  process_state (init M G) gs = Ok v -> observation_accepted (init M G) gs.
Proof.
  intros Hv. unfold process_state in Hv.
  apply bind_ok in Hv as (pos & Hpos & Hv).
  apply bind_ok in Hv as (rows & Hrows & _).
  assert (Hm : ~ default 10 (map_size gs) == 0).
  { intros E. rewrite normalize_raise in Hpos by exact E. discriminate. }
  split; [exact Hm|].
  apply Forall_lookup. intros i cp Hi.
  apply lookup_take_Some in Hi as [Hi Hlt].
  destruct (mapM_ok_inv _ _ _ Hrows i) as [row Hrow].
  { apply elem_of_seq. cbn in *. lia. }
  eapply cp_row_ok_color; eassumption.
Qed.

(** X2: [process_state] returns exactly on the observations whose map
    size is not zero and whose first [max_cps] points carry a colour of
    at least [-5].  A zero map size raises [ZeroDivisionError]; with a
    nonzero map size, a colour below [-5] among the encoded points raises
    [IndexError]. *)
Theorem X2_process_state_returns_iff_accepted M G gs :
  (is_ok (process_state (init M G) gs) <-> observation_accepted (init M G) gs) /\
  (default 10 (map_size gs) == 0 ->
   process_state (init M G) gs = Raise ZeroDivisionError) /\
  (~ default 10 (map_size gs) == 0 ->
   ~ Forall (fun cp => color_accepted (color cp))
            (take M (critical_points gs)) ->
   process_state (init M G) gs = Raise IndexError).
Proof.
  split; [|split].
  - split.
    + intros Hok. destruct (process_state (init M G) gs) as [v|e] eqn:E;
        [|destruct Hok].
      eapply process_state_accepted; exact E.
    + intros Hacc. destruct (process_state_ok M G gs Hacc) as [v ->]. exact I.
  - intros Hm. unfold process_state. now rewrite normalize_raise.
  - intros Hm Hc.
    destruct (process_state (init M G) gs) as [v|e] eqn:E.
    + apply process_state_accepted in E as [_ Hall]. contradiction.
    + f_equal. unfold process_state in E.
      destruct (agent_position gs) as [[x y] z].
      rewrite normalize_value in E by exact Hm. cbn in E.
      destruct (mapM _ _) as [rows|e'] eqn:Hrows in E; [discriminate|].
      cbn in E. injection E as <-.
      apply mapM_error in Hrows as (i & _ & Hi).
      eapply cp_row_raise_color; eassumption.
Qed.

(** X3: [process_state] looks at the first [max_cps] critical points
    only: the points beyond them change neither the vector nor the
    outcome. *)
Theorem X3_points_beyond_max_cps_are_ignored M G gs :
  process_state (init M G) gs
  = process_state (init M G)
      {| agent_position := agent_position gs;
         critical_points := take M (critical_points gs);
         agent_owned_points := agent_owned_points gs;
         time_remaining := time_remaining gs;
         navigation_grid := navigation_grid gs;
         nearest_unclaimed_distance := nearest_unclaimed_distance gs;
         nearest_enemy_distance := nearest_enemy_distance gs;
         map_size := map_size gs |}.
Proof.
  unfold process_state.
  cbn [agent_position critical_points time_remaining navigation_grid
       nearest_unclaimed_distance nearest_enemy_distance map_size max_cps init].
  rewrite (mapM_ext
             (cp_row (init M G) (critical_points gs) (default 10 (map_size gs)))
             (cp_row (init M G) (take M (critical_points gs))
                     (default 10 (map_size gs)))); [reflexivity|].
  intros i Hi. apply elem_of_seq in Hi. unfold cp_row.
  rewrite lookup_take_lt by lia. reflexivity.
Qed.

(** X5: the colour slots.  A neutral point sets slot 0, the colours 0 and
    1 set the slots 1 and 2, and every colour from 2 upwards sets slot 3,
    so that these colours are encoded alike; the colour [-1] is encoded
    as a neutral point. *)
Theorem X5_colour_slots :
  color_onehot None = Ok [1; 0; 0; 0] /\
  color_onehot (Some 0%Z) = Ok [0; 1; 0; 0] /\
  color_onehot (Some 1%Z) = Ok [0; 0; 1; 0] /\
  (forall c, (2 <= c)%Z -> color_onehot (Some c) = Ok [0; 0; 0; 1]) /\
  color_onehot (Some (-1)%Z) = color_onehot None.
Proof.
  repeat split; try reflexivity.
  intros c Hc. unfold color_onehot, py_min_int.
  destruct (Z.ltb_spec 3 (c + 1)) as [H3|H3].
  - reflexivity.
  - assert (c = 2%Z) as -> by lia. reflexivity.
Qed.

End EncoderExtras.

(** ** The selection of actions *)

Section ActionExtras.

Import DQNAgent.

Context `{K : Kernels}.

Lemma random_range r : 0 <= fst (Random.random r) /\ fst (Random.random r) < 1.
Proof.
  unfold Random.random, Random.next. cbn [fst].
  set (x := Random.draws r (Random.pos r)).
  assert (Hx : (0 <= Z.of_N (x mod 2 ^ 53) < 2 ^ 53)%Z).
  { pose proof (N.mod_upper_bound x (2 ^ 53)) as Hu.
    assert ((x mod 2 ^ 53 < 2 ^ 53)%N) as Hlt by (apply Hu; discriminate).
    split; [apply N2Z.is_nonneg|].
    change (2 ^ 53)%Z with (Z.of_N (2 ^ 53)). now apply N2Z.inj_lt. }
  unfold Qle, Qlt. cbn [Qnum Qden]. split; lia.
Qed.

Lemma argmax_from_lt : forall xs best best_i i,
  (best_i < i)%nat -> (argmax_from best best_i i xs < i + length xs)%nat.
Proof.
  induction xs as [|x xs IH]; intros best best_i i Hlt; cbn.
  - lia.
  - destruct (Qle_bool x best).
    + specialize (IH best best_i (S i)). lia.
    + specialize (IH x i (S i)). lia.
Qed.

Lemma argmax_lt row i : argmax row = Ok i -> (i < length row)%nat.
Proof.
  destruct row as [|x xs]; [discriminate|]. cbn. intros [= <-].
  pose proof (argmax_from_lt xs x 0%nat 1%nat). lia.
Qed.

Lemma select_action_training (w : World) (state : list Q) :
  select_action state true w
  = let w1 := {| self := self w; py_random := snd (Random.random (py_random w));
                 tf_random := tf_random w; files := files w |} in
    if Qle_bool (epsilon (self w)) (fst (Random.random (py_random w)))
    then select_action state false w1
    else match Random.randint 0 (Z.of_nat (action_dim (self w)) - 1)
                 (py_random w1) with
         | Ok (a, r2) => (Ok a, {| self := self w; py_random := r2;
                                   tf_random := tf_random w; files := files w |})
         | Raise e => (Raise e, w1)
         end.
Proof.
  unfold select_action at 1.
  unfold mbind, M_bind, mret, M_ret, get, with_random.
  cbn [self py_random tf_random files].
  destruct (Random.random (py_random w)) as [u r1] eqn:Hu. cbn [fst snd].
  destruct (Qle_bool (epsilon (self w)) u); cbn [negb].
  - reflexivity.
  - cbn [self py_random tf_random files].
    destruct (Random.randint 0 (Z.of_nat (action_dim (self w)) - 1) r1)
      as [[a r2]|e]; reflexivity.
Qed.

Lemma randint_range a b r x r' :
  Random.randint a b r = Ok (x, r') -> (a <= x <= b)%Z.
Proof.
  unfold Random.randint. destruct (Z.ltb_spec b a) as [Hlt|Hge]; [discriminate|].
  destruct (Random.randbelow (Z.to_nat (b - a + 1)) r) as [j r1] eqn:Hj.
  intros [= <- <-].
  pose proof (randbelow_lt (Z.to_nat (b - a + 1)) r ltac:(lia)) as Hlt.
  rewrite Hj in Hlt. cbn in Hlt. lia.
Qed.

Lemma select_action_greedy_range (w : World) (state : list Q) a w' :
  DQNNetwork.fits (length state) (DQNNetwork.layers_list (q_network (self w))) ->
  DQNNetwork.output_width (length state)
    (DQNNetwork.layers_list (q_network (self w))) = action_dim (self w) ->
  select_action state false w = (Ok a, w') ->
  (0 <= a < Z.of_nat (action_dim (self w)))%Z.
Proof.
  intros Hfit Hout. rewrite select_action_greedy.
  destruct (call_ok (q_network (self w)) (length state) [state] false
              (tf_random w) Hfit) as (ys & net' & tf' & Hcall & Hlen & Hw & _).
  { discriminate. }
  { constructor; [reflexivity|constructor]. }
  rewrite Hcall.
  destruct (single_row ys Hlen) as [y ->]. cbn [hd].
  apply Forall_inv in Hw. rewrite Hout in Hw.
  destruct (argmax y) as [i|e] eqn:Hi; intros [= <- <-].
  apply argmax_lt in Hi. lia.
Qed.

(** X6: an action that [select_action] returns is one of the agent's
    actions, [0 <= action < action_dim], in exploration as in
    exploitation, provided the online network fits the state and ends in
    [action_dim] outputs. *)
Theorem X6_selected_action_is_in_range (w : World) (state : list Q)
  (training : bool) a w' :
  DQNNetwork.fits (length state) (DQNNetwork.layers_list (q_network (self w))) ->
  DQNNetwork.output_width (length state)
    (DQNNetwork.layers_list (q_network (self w))) = action_dim (self w) ->
  select_action state training w = (Ok a, w') ->
  (0 <= a < Z.of_nat (action_dim (self w)))%Z.
Proof.
  intros Hfit Hout. destruct training.
  - rewrite select_action_training. cbv zeta.
    destruct (Qle_bool _ _).
    + apply (select_action_greedy_range
               {| self := self w; py_random := snd (Random.random (py_random w));
                  tf_random := tf_random w; files := files w |});
        assumption.
    + cbn [py_random].
      destruct (Random.randint _ _ _) as [[x r2]|e] eqn:Hx; intros [= <- <-].
      apply randint_range in Hx. lia.
  - now apply select_action_greedy_range.
Qed.

(** X7: the ends of the exploration schedule.  With [epsilon >= 1] a
    training-mode call always explores: it leaves the agent and the
    TensorFlow random state alone, the network is not called.  With
    [epsilon <= 0] a training-mode call draws once and then acts as the
    greedy call does.  A call with [training = False] leaves Python's
    random state alone. *)
Theorem X7_exploration_at_the_ends_of_the_schedule (w : World) (state : list Q) :
  (1 <= epsilon (self w) ->
   self (snd (select_action state true w)) = self w /\
   tf_random (snd (select_action state true w)) = tf_random w) /\
  (epsilon (self w) <= 0 ->
   select_action state true w
   = select_action state false
       {| self := self w; py_random := snd (Random.random (py_random w));
          tf_random := tf_random w; files := files w |}) /\
  py_random (snd (select_action state false w)) = py_random w.
Proof.
  pose proof (random_range (py_random w)) as [Hu0 Hu1].
  split; [|split].
  - intros He. rewrite select_action_training. cbv zeta.
    destruct (Qle_bool _ _) eqn:Hq.
    + apply Qle_bool_iff in Hq. lra.
    + cbn [py_random]. destruct (Random.randint _ _ _) as [[x r2]|e]; auto.
  - intros He. rewrite select_action_training. cbv zeta.
    destruct (Qle_bool _ _) eqn:Hq; [reflexivity|].
    assert (Hle : epsilon (self w) <= fst (Random.random (py_random w))) by lra.
    apply Qle_bool_iff in Hle. congruence.
  - rewrite select_action_greedy.
    destruct (DQNNetwork.call _ _ _ _) as [[[ys net'] tf']|e]; [|reflexivity].
    cbv zeta. destruct (argmax _); reflexivity.
Qed.

End ActionExtras.

(** ** Training steps and target synchronisation *)

Section TrainingExtras.

Import DQNAgent.

Context `{K : Kernels}.

Lemma square_nonneg (x : Q) : 0 <= x * x.
Proof.
  destruct (Qlt_le_dec x 0) as [Hneg|Hpos].
  - assert (E : x * x == (- x) * (- x)) by ring.
    rewrite E. apply Qmult_le_0_compat; lra.
  - apply Qmult_le_0_compat; assumption.
Qed.

Lemma huber_entry_nonneg t p : 0 <= huber_entry t p.
Proof.
  unfold huber_entry. cbv zeta.
  destruct (Qle_bool (Qabs (p - t)) 1) eqn:E.
  - pose proof (square_nonneg (p - t)). lra.
  - assert (~ Qabs (p - t) <= 1) as Hn.
    { intros Hle. apply Qle_bool_iff in Hle. congruence. }
    lra.
Qed.

Lemma sum_list_nonneg l : Forall (fun x => 0 <= x) l -> 0 <= sum_list l.
Proof.
  induction 1 as [|x l Hx _ IH]; unfold sum_list in *; cbn [fold_right]; lra.
Qed.

Lemma huber_nonneg ts ps : 0 <= huber ts ps.
Proof.
  unfold huber. apply Qmult_le_0_compat.
  - apply sum_list_nonneg. revert ps.
    induction ts as [|t ts IH]; intros [|p ps]; cbn; constructor;
      auto using huber_entry_nonneg.
  - apply Qinv_le_0_compat.
    change 0 with (inject_Z 0). rewrite <- Zle_Qle. lia.
Qed.

Lemma learn_loss_nonneg (w : World) loss w1 :
  learn w = (Ok loss, w1) -> 0 <= loss.
Proof.
  unfold learn. intros E. run. apply huber_nonneg.
Qed.

Lemma lengths_replicate (m : list (list Q)) (u : nat) :
  Forall (fun row => length row = u) m -> map length m = replicate (length m) u.
Proof. induction 1 as [|row m Hr _ IH]; cbn; [reflexivity|]. now rewrite Hr, IH. Qed.

Lemma fits_same_shape : forall l1 l2 n,
  map DQNNetwork.erase l1 = map DQNNetwork.erase l2 ->
  Forall DQNNetwork.built_layer l1 -> Forall DQNNetwork.built_layer l2 ->
  DQNNetwork.fits n l1 -> DQNNetwork.fits n l2 ->
  Forall2 same_shape (flat_map DQNNetwork.layer_weights l1)
                     (flat_map DQNNetwork.layer_weights l2).
Proof.
  induction l1 as [|a l1 IH]; intros [|b l2] n He Hb1 Hb2 Hf1 Hf2;
    try discriminate He; [constructor|].
  cbn in He. injection He as Hab He.
  inversion Hb1 as [|? ? Ha Hb1']; inversion Hb2 as [|? ? Hb Hb2']; subst.
  destruct a as [u r [[k bi]|]|ra], b as [u' r' [[k' bi']|]|rb];
    cbn in Hab, Ha, Hb; try discriminate Hab; try contradiction.
  - injection Hab as <- <-.
    destruct Hf1 as ((Hk & Hrows & Hbi) & Hf1), Hf2 as ((Hk' & Hrows' & Hbi') & Hf2).
    cbn [flat_map DQNNetwork.layer_weights app].
    constructor; [|constructor].
    + cbn. rewrite (lengths_replicate k u Hrows), (lengths_replicate k' u Hrows').
      congruence.
    + cbn. congruence.
    + eapply IH; eassumption.
  - cbn [flat_map DQNNetwork.layer_weights app]. eapply IH; eassumption.
Qed.

(** A sync of two networks that both have their variables, for one
    architecture and one input width. *)
Lemma sync_ok (w : World) (n : nat) :
  DQNNetwork.built (q_network (self w)) ->
  DQNNetwork.built (target_network (self w)) ->
  DQNNetwork.fits n (DQNNetwork.layers_list (q_network (self w))) ->
  DQNNetwork.fits n (DQNNetwork.layers_list (target_network (self w))) ->
  DQNNetwork.architecture (target_network (self w))
  = DQNNetwork.architecture (q_network (self w)) ->
  update_target_network w
  = (Ok tt, {| self := set_target_network (q_network (self w))
                         (count_sync (self w));
               py_random := py_random w; tf_random := tf_random w;
               files := files w |}).
Proof.
  intros Hbq Hbt Hfq Hft Harch.
  destruct (assign_same_shape
              (DQNNetwork.layers_list (target_network (self w)))
              (DQNNetwork.get_weights (q_network (self w))) n)
    as (layers' & Hassign & _ & _ & _).
  { apply (fits_same_shape _ _ n); auto. }
  { exact Hft. }
  destruct (update_target_network w) as [r w'] eqn:E.
  assert (Hr : r = Ok tt /\ w' = {| self := set_target_network {| DQNNetwork.layers_list := layers' |} (count_sync (self w));
               py_random := py_random w; tf_random := tf_random w;
               files := files w |}).
  { unfold update_target_network, DQNNetwork.set_weights in E.
    unfold mbind, M_bind, modify, get, lift, mret, M_ret in E.
    cbn [self count_sync q_network target_network py_random tf_random files] in E.
    rewrite Hassign in E. cbn in E. injection E as <- <-. auto. }
  destruct Hr as [-> ->].
  pose proof (sync_networks_equal w _ E Hbq Harch) as Heq.
  cbn [self target_network q_network set_target_network count_sync] in Heq.
  rewrite Heq. reflexivity.
Qed.

Lemma train_step_after_learn (w : World) loss w1 :
  (batch_size (self w) <= ReplayBuffer.len (memory (self w)))%nat ->
  learn w = (Ok loss, w1) ->
  train_step w
  = if (target_update_freq (self w1) =? 0)%Z
    then (Raise ZeroDivisionError, counted w1)
    else if ((step_count (self w1) + 1) mod target_update_freq (self w1) =? 0)%Z
         then match update_target_network (counted w1) with
              | (Ok _, w2) => (Ok (Some loss), recorded loss w2)
              | (Raise e, w2) => (Raise e, w2)
              end
         else (Ok (Some loss), recorded loss (counted w1)).
Proof.
  intros Hlen Hlearn. unfold train_step.
  unfold mbind at 1, M_bind at 1, get at 1.
  apply Nat.ltb_ge in Hlen. rewrite Hlen.
  unfold mbind at 1, M_bind at 1. rewrite Hlearn.
  unfold mbind at 1, M_bind at 1, modify at 1.
  unfold mbind at 1, M_bind at 1, modify at 1.
  unfold mbind at 1, M_bind at 1, get at 1.
  cbn [self target_update_freq step_count set_step_count set_epsilon
       py_random tf_random files].
  unfold mbind at 1, M_bind at 1. fold (counted w1).
  destruct (target_update_freq (self w1) =? 0)%Z; [reflexivity|].
  destruct (_ mod _ =? 0)%Z.
  - destruct (update_target_network (counted w1)) as [[[]|e] w2]; reflexivity.
  - reflexivity.
Qed.

Lemma learn_keeps_action_dim (w : World) :
  action_dim (self (snd (learn w))) = action_dim (self w).
Proof.
  destruct (learn w) as [r w'] eqn:E. cbn [snd].
  unfold learn in E. run. all: reflexivity.
Qed.

(** A training step on a ready agent, in full. *)
Lemma train_step_ready (w : World) (n : nat) :
  lawful K -> ready n (self w) ->
  target_update_freq (self w) <> 0%Z ->
  DQNNetwork.architecture (target_network (self w))
  = DQNNetwork.architecture (q_network (self w)) ->
  exists loss w',
    train_step w = (Ok (Some loss), w') /\ 0 <= loss /\
    loss_history (self w') = loss_history (self w) ++ [loss] /\
    step_count (self w') = (step_count (self w) + 1)%Z /\
    ready n (self w') /\
    target_update_freq (self w') = target_update_freq (self w) /\
    DQNNetwork.architecture (target_network (self w'))
    = DQNNetwork.architecture (q_network (self w')) /\
    DQNNetwork.architecture (q_network (self w'))
    = DQNNetwork.architecture (q_network (self w)) /\
    action_dim (self w') = action_dim (self w) /\
    batch_size (self w') = batch_size (self w) /\
    memory (self w') = memory (self w).
Proof.
  intros Hlaw Hready Hfreq Harch.
  destruct (learn_ok w n Hlaw Hready)
    as (loss & w1 & Hlearn & Hready1 & Hbq & Hbt & Haq & Hat).
  pose proof (learn_loss_nonneg w loss w1 Hlearn) as Hloss.
  pose proof (learn_keeps_action_dim w) as Had. rewrite Hlearn in Had.
  cbn [snd] in Had.
  destruct (learn_frame w) as [_ Hf]. rewrite Hlearn in Hf. cbn [snd] in Hf.
  destruct Hf as (_ & _ & _ & Hfr & Hs & _ & Hl & Hmem & Hbsz).
  assert (Hlen : (batch_size (self w) <= ReplayBuffer.len (memory (self w)))%nat)
    by (destruct Hready as ((_ & Hlen) & _); exact Hlen).
  rewrite (train_step_after_learn w loss w1 Hlen Hlearn).
  destruct (Z.eqb_spec (target_update_freq (self w1)) 0) as [E0|_];
    [congruence|].
  destruct Hready1 as (Hbs & Hbuf & Hfq & Hft).
  destruct (_ mod _ =? 0)%Z.
  - rewrite (sync_ok (counted w1) n); cbn [counted self q_network target_network
      set_step_count set_epsilon]; try assumption; [|congruence].
    eexists _, _. split; [reflexivity|].
    unfold ready.
    cbn [recorded self loss_history step_count target_update_freq q_network
         target_network set_loss_history set_target_network count_sync
         set_step_count set_epsilon batch_size memory action_dim].
    repeat split; try assumption; try congruence; apply Hbs.
  - eexists _, _. split; [reflexivity|].
    unfold ready.
    cbn [recorded counted self loss_history step_count target_update_freq
         q_network target_network set_loss_history set_step_count set_epsilon
         batch_size memory action_dim].
    repeat split; try assumption; try congruence; apply Hbs.
Qed.

(** X8: a training step on a ready agent whose networks share their
    architecture, with a nonzero sync period, returns a loss that is not
    negative, appends it to the loss history and counts one step; the
    agent is ready for the next step afterwards. *)
Theorem X8_train_step_returns_a_loss_and_stays_ready (w : World) (n : nat) :
  lawful K -> ready n (self w) ->
  target_update_freq (self w) <> 0%Z ->
  DQNNetwork.architecture (target_network (self w))
  = DQNNetwork.architecture (q_network (self w)) ->
  exists loss w',
    train_step w = (Ok (Some loss), w') /\ 0 <= loss /\
    loss_history (self w') = loss_history (self w) ++ [loss] /\
    step_count (self w') = (step_count (self w) + 1)%Z /\
    ready n (self w') /\
    target_update_freq (self w') = target_update_freq (self w) /\
    DQNNetwork.architecture (target_network (self w'))
    = DQNNetwork.architecture (q_network (self w')).
Proof.
  intros Hlaw Hready Hfreq Harch.
  destruct (train_step_ready w n Hlaw Hready Hfreq Harch)
    as (loss & w' & Ht & Hloss & Hl & Hs & Hr & Hf & Ha & _).
  exists loss, w'. repeat (split; [assumption|]). assumption.
Qed.

(** X9: with a sync period of zero, a training step on a ready agent
    raises [ZeroDivisionError] after the optimizer step: the online
    network is the one that the update left, the exploration rate has
    decayed and the step is counted, but no loss is recorded. *)
Theorem X9_zero_sync_period_raises_after_the_update (w : World) (n : nat) :
  lawful K -> ready n (self w) -> target_update_freq (self w) = 0%Z ->
  exists w',
    train_step w = (Raise ZeroDivisionError, w') /\
    is_ok (fst (learn w)) /\
    q_network (self w') = q_network (self (snd (learn w))) /\
    epsilon (self w')
    = py_max (epsilon_end (self w)) (epsilon (self w) * epsilon_decay (self w)) /\
    step_count (self w') = (step_count (self w) + 1)%Z /\
    loss_history (self w') = loss_history (self w).
Proof.
  intros Hlaw Hready Hfreq.
  destruct (learn_ok w n Hlaw Hready) as (loss & w1 & Hlearn & _).
  destruct (learn_frame w) as [_ Hf]. rewrite Hlearn in Hf. cbn [snd] in Hf.
  destruct Hf as (He & Hee & Hd & Hfr & Hs & _ & Hl & _ & _).
  assert (Hlen : (batch_size (self w) <= ReplayBuffer.len (memory (self w)))%nat)
    by (destruct Hready as ((_ & Hlen) & _); exact Hlen).
  rewrite (train_step_after_learn w loss w1 Hlen Hlearn), Hlearn.
  rewrite Hfr, Hfreq. cbn [Z.eqb fst snd].
  eexists. split; [reflexivity|].
  cbn [counted self q_network epsilon step_count loss_history set_step_count
       set_epsilon].
  rewrite He, Hee, Hd, Hs, Hl. repeat split.
Qed.

Lemma div_succ (s f : Z) :
  (0 < f)%Z ->
  ((s + 1) / f = s / f + if ((s + 1) mod f =? 0)%Z then 1 else 0)%Z.
Proof.
  intros Hf.
  destruct (Z.eqb_spec ((s + 1) mod f) 0) as [E|E];
    Z.div_mod_to_equations; nia.
Qed.

(** X10: along any sequence of training steps with a positive sync
    period, the number of [update_target_network] calls grows with the
    step counter: it increases by the number of multiples of the period
    that the counter has passed. *)
Theorem X10_sync_calls_follow_the_step_counter (w w' : World) :
  trained w w' -> (0 < target_update_freq (self w))%Z ->
  target_update_freq (self w') = target_update_freq (self w) /\
  (Z.of_nat (sync_calls (self w')) - Z.of_nat (sync_calls (self w))
   = step_count (self w') / target_update_freq (self w)
     - step_count (self w) / target_update_freq (self w))%Z.
Proof.
  intros Ht Hf. induction Ht as [w|w w1 r w2 _ IH E|w w1 w2 _ IH Hs].
  - split; [reflexivity|lia].
  - destruct (IH Hf) as [IHf IHc].
    destruct (train_step_spec w1 r w2 E) as (_ & _ & Hfr & [HA | HB]).
    + destruct HA as (_ & Hs & Hc & _). rewrite Hfr, Hs, Hc. auto.
    + destruct HB as (_ & Hs & Hcase). rewrite Hfr, Hs. split; [exact IHf|].
      rewrite <- IHf in *. rewrite (div_succ _ _ Hf).
      destruct Hcase as [(H0 & _) | [(_ & Hm & Hc & _) | (_ & Hm & Hc & _)]].
      * lia.
      * apply Z.eqb_neq in Hm. rewrite Hm, Hc. lia.
      * apply Z.eqb_eq in Hm. rewrite Hm, Hc. lia.
  - destruct (IH Hf) as [IHf IHc].
    destruct Hs as (_ & _ & _ & Hfr & Hs & Hc & _).
    rewrite Hfr, Hs, Hc. auto.
Qed.

Lemma probe_built (w : World) (n : nat) (state : list Q) :
  DQNNetwork.built (q_network (self w)) ->
  target_network (self w) = q_network (self w) ->
  DQNNetwork.fits n (DQNNetwork.layers_list (q_network (self w))) ->
  length state = n ->
  exists values, probe state w = (Ok (values, values), w).
Proof.
  intros Hb Heq Hfit Hn. destruct w as [a py tf fs]. cbn [self] in *.
  destruct (call_ok (q_network a) n [state] false tf Hfit)
    as (ys & net' & tf' & Hcall & _).
  { discriminate. }
  { constructor; [exact Hn|constructor]. }
  destruct (call_built _ _ _ _ _ _ Hb Hcall) as [-> ->].
  exists (hd [] ys).
  unfold probe, q_values, forward, mbind, M_bind, mret, M_ret.
  cbn [self tf_random py_random files]. rewrite Hcall.
  cbn [self tf_random py_random files target_network set_q_network].
  rewrite Heq, Hcall.
  cbn [self tf_random py_random files].
  do 2 f_equal. rewrite set_q_network_same.
  rewrite <- Heq. apply set_target_network_same.
Qed.

(** X11: when both networks have their variables, for one architecture
    and one input width, [update_target_network] returns, leaves the
    online network alone and makes the target network equal to it: from
    then on the two networks return the same values on every state of
    that width. *)
Theorem X11_sync_of_built_networks_makes_them_equal (w : World) (n : nat) :
  DQNNetwork.built (q_network (self w)) ->
  DQNNetwork.built (target_network (self w)) ->
  DQNNetwork.fits n (DQNNetwork.layers_list (q_network (self w))) ->
  DQNNetwork.fits n (DQNNetwork.layers_list (target_network (self w))) ->
  DQNNetwork.architecture (target_network (self w))
  = DQNNetwork.architecture (q_network (self w)) ->
  exists w',
    update_target_network w = (Ok tt, w') /\
    q_network (self w') = q_network (self w) /\
    target_network (self w') = q_network (self w) /\
    forall state, length state = n ->
      exists values, probe state w' = (Ok (values, values), w').
Proof.
  intros Hbq Hbt Hfq Hft Harch.
  rewrite (sync_ok w n Hbq Hbt Hfq Hft Harch).
  eexists. split; [reflexivity|].
  cbn [self q_network target_network set_target_network count_sync].
  split; [reflexivity|]. split; [reflexivity|].
  intros state Hn. apply (probe_built _ n); cbn [self q_network target_network
    set_target_network count_sync]; auto.
Qed.

Lemma output_width_init sd ad hd n :
  DQNNetwork.output_width n (DQNNetwork.layers_list (DQNNetwork.init sd ad hd)) = ad.
Proof.
  unfold DQNNetwork.init. cbn [DQNNetwork.layers_list].
  revert n. induction hd as [|h hd IH]; intros n; cbn; auto.
Qed.

Lemma assign_without_variables : forall layers weights,
  flat_map DQNNetwork.layer_weights layers = [] -> weights <> [] ->
  DQNNetwork.assign layers weights = Raise ValueError.
Proof.
  induction layers as [|l layers IH]; intros weights Hnone Hw.
  - destruct weights; [contradiction|reflexivity].
  - cbn in Hnone. apply app_eq_nil in Hnone as [Hl Hrest].
    destruct l as [u r [[k b]|]|rate]; [discriminate Hl| |];
      cbn; rewrite IH by assumption; reflexivity.
Qed.

(** X12: on a new agent, one greedy [select_action] creates the
    variables of the online network alone; an [update_target_network]
    right after it raises [ValueError] and leaves the target network as
    the constructor made it. *)
Theorem X12_sync_after_the_first_action_raises
  (sd : nat) (py tf : Random.state) (fs : gmap string File) (state : list Q) :
  let w0 := snd (init sd py tf fs) in
  let w1 := snd (select_action state false w0) in
  is_ok (fst (select_action state false w0)) /\
  DQNNetwork.built (q_network (self w1)) /\
  fst (update_target_network w1) = Raise ValueError /\
  target_network (self (snd (update_target_network w1)))
  = target_network (self w0).
Proof.
  cbv zeta. unfold init. rewrite init_with_world. cbn [snd].
  rewrite select_action_greedy.
  cbn [self q_network count_sync fresh tf_random py_random files].
  destruct (call_ok (DQNNetwork.init sd 5 default_hidden_dims) (length state)
              [state] false tf (init_network_fits _ _ _ _))
    as (ys & q' & tf1 & Hc & Hl & Hw & _ & Hb & Ha & _);
    [discriminate | repeat constructor |].
  rewrite Hc. destruct (single_row ys Hl) as [y ->].
  apply Forall_inv in Hw. rewrite output_width_init in Hw.
  destruct y as [|y0 y]; [discriminate Hw|].
  cbn [hd argmax fst snd]. split; [exact I|].
  cbn [self q_network set_q_network]. split; [exact Hb|].
  assert (Hq : DQNNetwork.get_weights q' <> []).
  { apply weights_nonempty; [exact Hb|].
    unfold DQNNetwork.architecture in Ha.
    rewrite (dense_count_erase _ _ Ha). apply init_network_dense_count. }
  unfold update_target_network, DQNNetwork.set_weights.
  unfold mbind, M_bind, modify, get, lift, mret, M_ret.
  cbn [self q_network target_network set_q_network count_sync fresh
       py_random tf_random files].
  rewrite assign_without_variables;
    [| apply (init_network_weights sd 5 default_hidden_dims) | exact Hq].
  cbn. split; reflexivity.
Qed.

End TrainingExtras.

(** ** Checkpoints *)

Section CheckpointExtras.

Import DQNAgent.

Context `{K : Kernels}.

Lemma load_weights_missing (w : World) net put path :
  files w !! path = None ->
  load_weights net put path w = (Raise NotFoundError, w).
Proof.
  intros Hf. unfold load_weights, mbind, M_bind, read_file. now rewrite Hf.
Qed.

(** X13: [load] is not atomic.  When the file of the online network is
    missing, it raises and changes nothing.  When both weight files are
    there but the JSON file is missing, or holds an object without the
    key [epsilon], it raises after both networks have taken the stored
    weights, the exploration rate, the step counter and the loss history
    still being the old ones. *)
Theorem X13_load_is_not_atomic (w : World) (filepath : string) :
  (files w !! (filepath +:+ "_q_network") = None ->
   load filepath w = (Raise NotFoundError, w)) /\
  (forall wq wt nq nt,
     files w !! (filepath +:+ "_q_network") = Some (WeightsFile wq) ->
     files w !! (filepath +:+ "_target_network") = Some (WeightsFile wt) ->
     DQNNetwork.restore (q_network (self w)) wq = Ok nq ->
     DQNNetwork.restore (target_network (self w)) wt = Ok nt ->
     let w' := {| self := set_target_network nt (set_q_network nq (self w));
                  py_random := py_random w; tf_random := tf_random w;
                  files := files w |} in
     (files w !! (filepath +:+ "_state.json") = None ->
      load filepath w = (Raise NotFoundError, w')) /\
     (forall fields,
        files w !! (filepath +:+ "_state.json") = Some (JsonFile (JObject fields)) ->
        json_get "epsilon" fields = None ->
        load filepath w = (Raise KeyError, w'))).
Proof.
  split.
  - intros Hq. unfold load. unfold mbind at 1, M_bind at 1.
    now rewrite load_weights_missing.
  - intros wq wt nq nt Hq Ht Hnq Hnt w'.
    assert (Hstart : forall r,
      (f ← read_file (filepath +:+ "_state.json");
       match f with
       | JsonFile checkpoint =>
           e ← lift (json_item checkpoint "epsilon" ≫= as_float);
           _ ← modify (set_epsilon e);
           n ← lift (json_item checkpoint "step_count" ≫= as_int);
           _ ← modify (set_step_count n);
           l ← lift (json_item checkpoint "loss_history" ≫= as_float_list);
           modify (set_loss_history l)
       | WeightsFile _ => raise ValueError
       end) w' = r -> load filepath w = r).
    { intros r <-. unfold load.
      unfold mbind at 1, M_bind at 1.
      rewrite (load_weights_ok w q_network set_q_network _ wq nq Hq Hnq).
      unfold mbind at 1, M_bind at 1.
      erewrite load_weights_ok; [reflexivity | exact Ht | exact Hnt]. }
    split.
    + intros Hs. apply Hstart.
      unfold mbind, M_bind, read_file. subst w'. cbn [files]. now rewrite Hs.
    + intros fields Hs He. apply Hstart.
      unfold mbind, M_bind, read_file. subst w'. cbn [files]. rewrite Hs.
      unfold lift, json_item. rewrite He. reflexivity.
Qed.

Lemma restore_layers_built : forall l l' n,
  map DQNNetwork.erase l = map DQNNetwork.erase l' ->
  Forall DQNNetwork.built_layer l -> Forall DQNNetwork.built_layer l' ->
  DQNNetwork.fits n l -> DQNNetwork.fits n l' ->
  DQNNetwork.restore_layers l (flat_map DQNNetwork.layer_weights l') = Ok l'.
Proof.
  induction l as [|a l IH]; intros [|b l'] n He Hb1 Hb2 Hf1 Hf2;
    try discriminate He; [reflexivity|].
  cbn in He. injection He as Hab He.
  inversion Hb1 as [|? ? Ha Hb1']; inversion Hb2 as [|? ? Hb Hb2']; subst.
  destruct a as [u r [[k bi]|]|ra], b as [u' r' [[k' bi']|]|rb];
    cbn in Hab, Ha, Hb; try discriminate Hab; try contradiction.
  - injection Hab as <- <-.
    destruct Hf1 as ((Hk & Hrows & Hbi) & Hf1), Hf2 as ((Hk' & Hrows' & Hbi') & Hf2).
    cbn [flat_map DQNNetwork.layer_weights app DQNNetwork.restore_layers].
    rewrite bool_decide_true.
    + rewrite (IH l' u He Hb1' Hb2' Hf1 Hf2). reflexivity.
    + cbn [shape].
      rewrite (lengths_replicate k u Hrows), (lengths_replicate k' u Hrows').
      split; congruence.
  - injection Hab as <-.
    cbn [flat_map DQNNetwork.layer_weights app DQNNetwork.restore_layers].
    rewrite (IH l' n He Hb1' Hb2' Hf1 Hf2). reflexivity.
Qed.

(** A network with variables takes the stored arrays of a network of its
    architecture and input width, and is that network then. *)
Lemma restore_built (net loader : DQNNetwork.t) (n : nat) :
  DQNNetwork.built net -> DQNNetwork.built loader ->
  DQNNetwork.architecture loader = DQNNetwork.architecture net ->
  DQNNetwork.fits n (DQNNetwork.layers_list net) ->
  DQNNetwork.fits n (DQNNetwork.layers_list loader) ->
  DQNNetwork.restore loader (DQNNetwork.get_weights net) = Ok net.
Proof.
  intros Hb Hbl Harch Hf Hfl.
  pose proof (restore_layers_built _ _ n Harch Hbl Hb Hfl Hf) as Hr.
  unfold DQNNetwork.restore, DQNNetwork.get_weights.
  destruct (flat_map DQNNetwork.layer_weights (DQNNetwork.layers_list net))
    as [|a ws] eqn:Hw.
  - f_equal. destruct net as [layers], loader as [layers'].
    unfold DQNNetwork.architecture, DQNNetwork.built in *.
    cbn [DQNNetwork.layers_list] in *. f_equal.
    apply layers_eq_of_weights; [exact Harch | exact Hb |].
    rewrite Hw.
    pose proof (fits_same_shape layers' layers n Harch Hbl Hb Hfl Hf) as Hs.
    rewrite Hw in Hs. now inversion Hs.
  - rewrite Hr. now destruct net.
Qed.

(** X14: a checkpoint restores the networks.  When the agent that saves
    and the agent that loads have both called both of their networks, so
    that the variables exist, on inputs of one width and with one
    architecture, the agent that loads holds the two networks of the
    saving agent afterwards, weights included. *)
Theorem X14_checkpoint_restores_the_networks
  (w : World) (filepath : string) (loader : t) (n : nat) :
  DQNNetwork.built (q_network (self w)) ->
  DQNNetwork.built (target_network (self w)) ->
  DQNNetwork.built (q_network loader) ->
  DQNNetwork.built (target_network loader) ->
  DQNNetwork.architecture (q_network loader)
  = DQNNetwork.architecture (q_network (self w)) ->
  DQNNetwork.architecture (target_network loader)
  = DQNNetwork.architecture (target_network (self w)) ->
  DQNNetwork.fits n (DQNNetwork.layers_list (q_network (self w))) ->
  DQNNetwork.fits n (DQNNetwork.layers_list (target_network (self w))) ->
  DQNNetwork.fits n (DQNNetwork.layers_list (q_network loader)) ->
  DQNNetwork.fits n (DQNNetwork.layers_list (target_network loader)) ->
  let saved := snd (save filepath w) in
  let loaded := load filepath {| self := loader; py_random := py_random saved;
                                 tf_random := tf_random saved;
                                 files := files saved |} in
  fst loaded = Ok tt /\
  q_network (self (snd loaded)) = q_network (self w) /\
  target_network (self (snd loaded)) = target_network (self w).
Proof.
  intros Hbq Hbt Hlq Hlt Haq Hat Hfq Hft Hflq Hflt saved loaded.
  subst saved loaded.
  pose proof (restore_built _ _ n Hbq Hlq Haq Hfq Hflq) as Hrq.
  pose proof (restore_built _ _ n Hbt Hlt Hat Hft Hflt) as Hrt.
  rewrite (load_after_save w filepath loader _ _ Hrq Hrt). cbn. auto.
Qed.

End CheckpointExtras.

(** ** Rewards *)

Section BridgedRewardRange.

Import Binary64.

(** X15: the reward of [Binary64.BridgedGameEnvironment.calculate_reward] is
    within [[-5, 5]], or NaN, or the call raises [OverflowError]; a call
    that returns gives a reward within the bounds when the sum of the two
    proximity rewards is finite, and NaN when that sum is NaN. *)
Theorem X15_bridged_reward_within_bounds_unless_nan
  (self : Binary64.BridgedGameEnvironment.t) (state : Binary64.GameState) (agent_id : Z) :
  let outcome :=
    fst (Binary64.BridgedGameEnvironment.calculate_reward self state agent_id) in
  let prev_pos :=
    Binary64.BridgedGameEnvironment.prev_position
      (Binary64.BridgedGameEnvironment.previous_of self agent_id) in
  match outcome with
  | Ok r => is_nan r = true \/ within_bounds r
  | Raise e => e = OverflowError
  end /\
  (forall unclaimed_reward enemy_reward r,
     Binary64.BridgedGameEnvironment.get_proximity_reward (agent_position state)
       prev_pos (critical_points state) unclaimed (literal (1 # 10)) None
     = Ok unclaimed_reward ->
     Binary64.BridgedGameEnvironment.get_proximity_reward (agent_position state)
       prev_pos (critical_points state) enemy (literal (2 # 10)) (Some agent_id)
     = Ok enemy_reward ->
     outcome = Ok r ->
     (is_finite (add unclaimed_reward enemy_reward) = true ->
      within_bounds r) /\
     (is_nan (add unclaimed_reward enemy_reward) = true -> is_nan r = true)).
Proof.
  intros outcome prev_pos. subst outcome prev_pos.
  rewrite bridged_calculate_reward_outcome. cbv zeta.
  pose proof (add_point_reward_zero
                (current_owned state agent_id
                 - Binary64.BridgedGameEnvironment.owned_points
                     (Binary64.BridgedGameEnvironment.previous_of self agent_id))) as Hc.
  destruct (add_point_reward zero _) as [reward|e0]; cbn [mbind result_bind].
  2:{ split; [exact Hc|]. discriminate. }
  split.
  - destruct (Binary64.BridgedGameEnvironment.get_proximity_reward _ _ _ unclaimed _ _)
      as [u|e] eqn:Eu; cbn [mbind result_bind];
      [|eapply proximity_raises, Eu].
    destruct (Binary64.BridgedGameEnvironment.get_proximity_reward _ _ _ enemy _ _)
      as [v|e] eqn:Ev; cbn [mbind result_bind];
      [|eapply proximity_raises, Ev].
    apply np_clip_cases.
  - intros u v r -> -> [= <-]. split.
    + intros Hfin. apply penalty_and_clip, add_finite_r; assumption.
    + intros Hnan. apply np_clip_nan, sub_nan_l, add_nan_r, Hnan.
Qed.

End BridgedRewardRange.

Section RewardExtras.

Context `{K : Kernels}.

(** X16: in [BridgedGameEnvironment] the reward of an agent does not
    depend on the reward calls made for other agents in between: it is
    the reward that the same call returns without them. *)
Theorem X16_bridged_reward_ignores_calls_for_other_agents
  (self : BridgedGameEnvironment.t) (others : list (GameState * Z))
  (state : GameState) (agent_id : Z) :
  Forall (fun c => c.2 <> agent_id) others ->
  fst (BridgedGameEnvironment.calculate_reward
         (BridgedGameEnvironment.calls self others) state agent_id)
  = fst (BridgedGameEnvironment.calculate_reward self state agent_id).
Proof.
  intros Hothers.
  unfold BridgedGameEnvironment.calculate_reward,
    BridgedGameEnvironment.point_change. cbn [fst].
  now rewrite (bridged_calls_others others agent_id Hothers self).
Qed.

Lemma targets_unclaimed cps d d' :
  targets cps unclaimed d = targets cps unclaimed d'.
Proof. reflexivity. Qed.

Lemma proximity_unclaimed cur prev cps scale d d' :
  proximity cur prev cps unclaimed scale d
  = proximity cur prev cps unclaimed scale d'.
Proof.
  unfold proximity. now rewrite (targets_unclaimed cps d d').
Qed.

(** X17: the two reward implementations agree.  When the shared snapshot
    of [GameEnvironment] holds a previous position and the count that the
    snapshot of the agent holds in [BridgedGameEnvironment], the two
    [calculate_reward] methods return the same reward. *)
Theorem X17_the_two_reward_implementations_agree
  (g : GameEnvironment.t) (b : BridgedGameEnvironment.t)
  (state : GameState) (agent_id : Z) (p : Vec3) :
  GameEnvironment.previous_position g = Some p ->
  BridgedGameEnvironment.previous_of b agent_id
  = {| BridgedGameEnvironment.owned_points := GameEnvironment.previous_owned_points g;
       BridgedGameEnvironment.prev_position := p |} ->
  fst (GameEnvironment.calculate_reward g state agent_id)
  = fst (BridgedGameEnvironment.calculate_reward b state agent_id).
Proof.
  intros Hp Hb.
  unfold GameEnvironment.calculate_reward, BridgedGameEnvironment.calculate_reward,
    GameEnvironment.point_change, BridgedGameEnvironment.point_change.
  cbn [fst]. rewrite Hp, Hb.
  cbn [BridgedGameEnvironment.owned_points BridgedGameEnvironment.prev_position].
  unfold GameEnvironment.get_proximity_reward,
    BridgedGameEnvironment.get_proximity_reward.
  rewrite (proximity_unclaimed _ _ _ _
             (fun _ => true) (fun c => negb (c =? default (-1) None)%Z)).
  reflexivity.
Qed.




End RewardExtras.

(** ** The steps of the environment *)

Section EnvironmentExtras.

Context `{K : Kernels}.

Import GameEnvironment.

Lemma actions_lookup (action : Z) :
  (0 <= action <= 4)%Z -> exists name, actions !! action = Some name.
Proof.
  intros Ha.
  assert (action = 0 \/ action = 1 \/ action = 2 \/ action = 3 \/ action = 4)%Z
    as [-> | [-> | [-> | [-> | ->]]]] by lia; eexists; reflexivity.
Qed.

Lemma actions_lookup_none (action : Z) :
  ~ (0 <= action <= 4)%Z -> actions !! action = None.
Proof.
  intros Ha. unfold actions.
  rewrite !lookup_insert_ne by lia. apply lookup_empty.
Qed.

(** X20: [step] with an action outside [0..4] raises [KeyError]; the
    step has been counted by then, and nothing else has changed. *)
Theorem X20_step_counts_before_it_rejects_an_action
  (self : t) (action agent_id : Z) :
  ~ (0 <= action <= 4)%Z ->
  step self action agent_id
  = (Raise KeyError,
     {| max_episode_steps := max_episode_steps self;
        current_step := current_step self + 1;
        processor := processor self;
        previous_owned_points := previous_owned_points self;
        previous_position := previous_position self |}).
Proof.
  intros Ha. unfold step. now rewrite (actions_lookup_none action Ha).
Qed.

Lemma mock_accepted M G :
  GameStateProcessor.observation_accepted (GameStateProcessor.init M G) mock_state.
Proof.
  split.
  - cbn. discriminate.
  - cbn [critical_points mock_state GameStateProcessor.max_cps
         GameStateProcessor.init].
    apply Forall_take. repeat constructor. cbn. lia.
Qed.

Lemma calculate_reward_bounds (self : t) (state : GameState) (agent_id : Z) :
  - (5) <= fst (calculate_reward self state agent_id) <= 5.
Proof.
  unfold calculate_reward. cbn [fst]. apply np_clip_bounds. discriminate.
Qed.

Lemma calculate_reward_frame (self : t) (state : GameState) (agent_id : Z) :
  let self' := snd (calculate_reward self state agent_id) in
  max_episode_steps self' = max_episode_steps self /\
  current_step self' = current_step self /\
  processor self' = processor self.
Proof. cbn. auto. Qed.

(** [step] on one of the five actions. *)
Lemma step_ok
  (self : t) (action agent_id : Z) (M G : nat) :
  processor self = GameStateProcessor.init M G ->
  (0 <= action <= 4)%Z ->
  exists obs reward info self',
    step self action agent_id
    = (Ok (obs, reward, (max_episode_steps self <=? current_step self + 1)%Z, info),
       self') /\
    GameStateProcessor.process_state (GameStateProcessor.init M G) mock_state
    = Ok obs /\
    length obs = (3 + M * 7 + Nat.min 2 M + 225 + 1 + 2)%nat /\
    - (5) <= reward <= 5 /\
    current_step self' = (current_step self + 1)%Z /\
    max_episode_steps self' = max_episode_steps self /\
    processor self' = processor self /\
    info_step info = (current_step self + 1)%Z /\
    info_owned_points info = current_owned mock_state agent_id /\
    info_total_points info = 2%nat.
Proof.
  intros Hp Ha. unfold step, send_command_to_game.
  destruct (actions_lookup action Ha) as [name ->].
  cbn [processor]. rewrite Hp.
  destruct (process_state_ok M G mock_state (mock_accepted M G)) as [obs Hobs].
  rewrite Hobs.
  pose proof (process_state_length M G mock_state obs Hobs) as Hlen.
  match goal with |- context [calculate_reward ?e ?s ?i] =>
    pose proof (calculate_reward_bounds e s i) as Hr;
    pose proof (calculate_reward_frame e s i) as Hf;
    destruct (calculate_reward e s i) as [reward self'] eqn:Hc
  end.
  cbn [fst snd max_episode_steps current_step processor] in Hr, Hf.
  destruct Hf as (Hmax & Hstep & Hproc).
  eexists obs, reward, _, self'. split.
  { rewrite Hmax, Hstep.
    cbn [time_remaining mock_state default].
    rewrite orb_false_r. reflexivity. }
  split; [reflexivity|]. split.
  { rewrite Hlen. unfold GameStateProcessor.encoded_length,
      GameStateProcessor.nav_grid_of. cbn. lia. }
  split; [exact Hr|].
  rewrite Hmax, Hstep, Hproc. cbn. repeat split.
Qed.


Lemma reset_ok (self : t) (M G : nat) :
  processor self = GameStateProcessor.init M G ->
  exists obs self',
    reset self = (Ok obs, self') /\
    GameStateProcessor.process_state (GameStateProcessor.init M G) mock_state
    = Ok obs /\
    length obs = (3 + M * 7 + Nat.min 2 M + 225 + 1 + 2)%nat /\
    current_step self' = 0%Z /\
    max_episode_steps self' = max_episode_steps self /\
    processor self' = processor self.
Proof.
  intros Hp. unfold reset, send_command_to_game. cbn [processor]. rewrite Hp.
  destruct (process_state_ok M G mock_state (mock_accepted M G)) as [obs Hobs].
  rewrite Hobs.
  pose proof (process_state_length M G mock_state obs Hobs) as Hlen.
  eexists _, _. split; [reflexivity|]. split; [reflexivity|]. split.
  { rewrite Hlen. unfold GameStateProcessor.encoded_length,
      GameStateProcessor.nav_grid_of. cbn. lia. }
  cbn. auto.
Qed.

End EnvironmentExtras.

(** ** Agents under a training manager *)

Section AgentInvariant.

Import DQNAgent.

Context `{K : Kernels}.

Lemma select_action_ok (w : World) (n : nat) (state : list Q) (training : bool) :
  agent_ok n (self w) -> length state = n ->
  exists action w',
    select_action state training w = (Ok action, w') /\
    (0 <= action < Z.of_nat (action_dim (self w)))%Z /\
    agent_ok n (self w') /\
    self w' = set_q_network (q_network (self w')) (self w) /\
    files w' = files w /\
    (training = false -> py_random w' = py_random w).
Proof.
  intros Hok Hn.
  assert (Hgreedy : forall v : World, self v = self w ->
    exists action w',
      select_action state false v = (Ok action, w') /\
      (0 <= action < Z.of_nat (action_dim (self w)))%Z /\
      agent_ok n (self w') /\
      self w' = set_q_network (q_network (self w')) (self w) /\
      files w' = files v /\ py_random w' = py_random v).
  { intros v Hv. rewrite select_action_greedy, Hv.
    destruct Hok as (Had & Hbs & Hfr & Hfq & Hft & Hout & Harch & Hbuf).
    destruct (call_ok (q_network (self w)) n [state] false (tf_random v) Hfq)
      as (ys & net' & tf' & Hcall & Hlen & Hw & Hfit' & Hb' & Ha' & _).
    { discriminate. }
    { constructor; [exact Hn|constructor]. }
    rewrite Hcall. destruct (single_row ys Hlen) as [y ->]. cbn [hd].
    apply Forall_inv in Hw. rewrite Hout in Hw.
    destruct (argmax y) as [i|e] eqn:Hi.
    2:{ destruct y; [cbn in Hw; lia | discriminate Hi]. }
    apply argmax_lt in Hi.
    eexists _, _. split; [reflexivity|].
    cbn [self q_network set_q_network files py_random].
    split; [lia|]. split; [|auto].
    unfold agent_ok.
    cbn [action_dim batch_size target_update_freq q_network target_network
         memory set_q_network].
    unfold DQNNetwork.architecture in Ha'.
    rewrite (output_width_erase _ _ n Ha').
    repeat (split; [assumption || lia || congruence|]).
    split; [unfold DQNNetwork.architecture in *; congruence|]. exact Hbuf. }
  destruct training.
  - rewrite select_action_training. cbv zeta.
    destruct (Qle_bool _ _).
    + destruct (Hgreedy {| self := self w;
                           py_random := snd (Random.random (py_random w));
                           tf_random := tf_random w; files := files w |} eq_refl)
        as (action & w' & Hs & Hr & Hok' & Hself & Hfiles & _).
      exists action, w'. repeat (split; [assumption|]). discriminate.
    + cbn [py_random].
      destruct Hok as (Had & Hrest).
      destruct (Random.randint 0 (Z.of_nat (action_dim (self w)) - 1) _)
        as [[x r2]|e] eqn:Hx.
      * apply randint_range in Hx.
        eexists _, _. split; [reflexivity|]. cbn [self files].
        split; [lia|]. split; [exact (conj Had Hrest)|].
        split; [now rewrite set_q_network_same|]. split; [reflexivity|].
        discriminate.
      * unfold Random.randint in Hx.
        destruct (Z.ltb_spec (Z.of_nat (action_dim (self w)) - 1) 0); [lia|].
        destruct (Random.randbelow _ _); discriminate Hx.
  - destruct (Hgreedy w eq_refl) as (action & w' & Hs & Hr & Hok' & Hself & Hf & Hpy).
    exists action, w'. auto 10.
Qed.

Lemma store_experience_ok (w : World) (n : nat) (x : Transition) :
  agent_ok n (self w) ->
  length (t_state x) = n -> length (t_next_state x) = n ->
  (0 <= t_action x < Z.of_nat (action_dim (self w)))%Z ->
  exists w', store_experience x w = (Ok tt, w') /\ agent_ok n (self w') /\
    self w' = set_memory (ReplayBuffer.push (memory (self w)) x) (self w) /\
    py_random w' = py_random w /\ tf_random w' = tf_random w /\
    files w' = files w.
Proof.
  intros Hok Hs Hns Ha. eexists. split; [reflexivity|].
  cbn [self py_random tf_random files]. split; [|auto].
  destruct Hok as (Had & Hbs & Hfr & Hfq & Hft & Hout & Harch & Hbuf).
  unfold agent_ok.
  cbn [action_dim batch_size target_update_freq q_network target_network
       memory set_memory].
  repeat (split; [assumption|]).
  unfold ReplayBuffer.push. cbn [ReplayBuffer.buffer].
  assert (Hall : Forall (fun x => length (t_state x) = n /\
                                  length (t_next_state x) = n /\
                   (0 <= t_action x < Z.of_nat (action_dim (self w)))%Z)
                  (ReplayBuffer.buffer (memory (self w)) ++ [x])).
  { apply Forall_app. split; [exact Hbuf|]. constructor; [auto|constructor]. }
  destruct (_ <? _)%nat; [apply Forall_drop|]; exact Hall.
Qed.

Lemma train_step_ok (w : World) (n : nat) :
  lawful K -> agent_ok n (self w) ->
  (1000 < ReplayBuffer.len (memory (self w)))%nat ->
  exists r w', train_step w = (Ok r, w') /\ agent_ok n (self w') /\
    memory (self w') = memory (self w) /\
    step_count (self w') = (step_count (self w) + 1)%Z /\
    length (loss_history (self w')) = S (length (loss_history (self w))).
Proof.
  intros Hlaw Hok Hlen.
  destruct Hok as (Had & Hbs & Hfr & Hfq & Hft & Hout & Harch & Hbuf).
  assert (Hready : ready n (self w)).
  { unfold ready. split; [lia|]. split; [|auto].
    rewrite Hout. exact Hbuf. }
  destruct (train_step_ready w n Hlaw Hready Hfr Harch)
    as (loss & w' & Ht & _ & Hlh & Hsc & Hr' & Hfr' & Ha' & Haq & Had' & Hbs' & Hm').
  exists (Some loss), w'. split; [exact Ht|]. split.
  2:{ split; [exact Hm'|]. split; [exact Hsc|].
      rewrite Hlh, length_app. cbn. lia. }
  destruct Hr' as (_ & Hbuf' & Hfq' & Hft').
  unfold agent_ok. rewrite Had', Hbs', Hfr', Hm'.
  unfold DQNNetwork.architecture in Haq.
  rewrite (output_width_erase _ _ n Haq).
  repeat (split; [assumption|]). exact Hbuf.
Qed.

End AgentInvariant.

(** ** Episodes *)

Section ManagerFacts.

Import TrainingManager.

Context `{K : Kernels}.

Lemma same_books_refl m : same_books m m.
Proof. repeat split. Qed.

Lemma same_books_trans m1 m2 m3 :
  same_books m1 m2 -> same_books m2 m3 -> same_books m1 m3.
Proof. unfold same_books. intuition congruence. Qed.

Lemma only_q_refl a : only_q a a.
Proof. unfold only_q. now destruct a. Qed.

Lemma only_q_trans a b c : only_q a b -> only_q b c -> only_q a c.
Proof. unfold only_q. intros Hb Hc. rewrite Hc at 1. rewrite Hb. reflexivity. Qed.

Lemma Forall2_only_q_refl l : Forall2 only_q l l.
Proof. induction l; constructor; auto using only_q_refl. Qed.

Lemma Forall2_only_q_trans l1 l2 l3 :
  Forall2 only_q l1 l2 -> Forall2 only_q l2 l3 -> Forall2 only_q l1 l3.
Proof.
  intros H12. revert l3. induction H12; intros l3 H23; inversion H23; subst;
    constructor; eauto using only_q_trans.
Qed.

Lemma Forall2_only_q_insert l i a a' :
  l !! i = Some a -> only_q a a' -> Forall2 only_q l (<[i := a']> l).
Proof.
  revert i. induction l as [|b l IH]; intros [|i] Hi Hq; try discriminate Hi.
  - cbn in Hi. injection Hi as ->. cbn. constructor;
      [exact Hq | apply Forall2_only_q_refl].
  - cbn in *. constructor; [apply only_q_refl | eauto].
Qed.

Lemma on_agent_run {X A : Type} (i : nat) (args : result X) (x : X)
  (method : X -> DQNAgent.M A) (w : World) (a : DQNAgent.t) r v :
  agents (self w) !! i = Some a -> args = Ok x ->
  method x {| DQNAgent.self := a; DQNAgent.py_random := py_random w;
              DQNAgent.tf_random := tf_random w; DQNAgent.files := files w |}
  = (r, v) ->
  on_agent i args method w
  = (r, {| self := set_agents (<[i := DQNAgent.self v]> (agents (self w))) (self w);
           py_random := DQNAgent.py_random v;
           tf_random := DQNAgent.tf_random v;
           files := DQNAgent.files v |}).
Proof.
  intros Ha -> Hm. unfold on_agent. now rewrite Ha, Hm.
Qed.

Lemma manager_ok_set_agent (m : t) i a' :
  manager_ok m -> agent_ok 583 a' ->
  manager_ok (set_agents (<[i := a']> (agents m)) m).
Proof.
  intros (Hlen & Hall & Hkeys & Hp & Hmax) Ha'. unfold manager_ok.
  cbn [agents num_agents episode_rewards env set_agents].
  rewrite length_insert. repeat (split; [assumption|]).
  split; [|auto]. now apply Forall_insert.
Qed.

Lemma same_books_set_agent (m : t) i a' :
  same_books m (set_agents (<[i := a']> (agents m)) m).
Proof.
  unfold same_books. cbn. rewrite length_insert. auto 10.
Qed.

(** The first loop of an iteration. *)
Lemma select_actions_ok (training : bool) (states : gmap nat (list Q)) :
  forall (ids : list nat) (actions : gmap nat Z) (w : World),
  manager_ok (self w) ->
  (forall i, i ∈ ids -> (i < num_agents (self w))%nat /\
     exists s, states !! i = Some s /\ length s = 583%nat) ->
  exists actions' w',
    select_actions ids states training actions w = (Ok actions', w') /\
    manager_ok (self w') /\ same_books (self w) (self w') /\
    env (self w') = env (self w) /\ files w' = files w /\
    Forall2 only_q (agents (self w)) (agents (self w')) /\
    (training = false -> py_random w' = py_random w) /\
    (forall i, i ∈ ids -> exists a, actions' !! i = Some a /\ (0 <= a <= 4)%Z) /\
    (forall i, i ∉ ids -> actions' !! i = actions !! i).
Proof.
  induction ids as [|i ids IH]; intros actions w Hok Hids.
  - exists actions, w. split; [reflexivity|].
    split; [exact Hok|]. split; [apply same_books_refl|].
    split; [reflexivity|]. split; [reflexivity|].
    split; [apply Forall2_only_q_refl|]. split; [reflexivity|].
    split; [intros j Hj; inversion Hj | reflexivity].
  - destruct (Hids i ltac:(left)) as (Hi & s & Hs & Hlen).
    pose proof Hok as (Hl & Hall & Hkeys & Hp & Hmax).
    destruct (lookup_lt_is_Some_2 (agents (self w)) i ltac:(lia)) as [a Ha].
    pose proof (proj1 (Forall_lookup _ _) Hall i a Ha) as Haok.
    destruct (select_action_ok
                {| DQNAgent.self := a; DQNAgent.py_random := py_random w;
                   DQNAgent.tf_random := tf_random w;
                   DQNAgent.files := files w |} 583 s training Haok Hlen)
      as (action & v & Hsel & Hrange & Hok' & Honly & Hfiles & Hpy).
    cbn [DQNAgent.self DQNAgent.py_random DQNAgent.files] in *.
    cbn [select_actions]. unfold mbind at 1, M_bind at 1.
    rewrite (on_agent_run i (dict_item states i) s _ w a (Ok action) v Ha
               ltac:(unfold dict_item; now rewrite Hs) Hsel).
    match goal with |- context [select_actions ids states training ?acts ?w1] =>
      destruct (IH acts w1) as (actions' & w' & Hrun & Hok2 & Hb2 & He2 & Hf2
                                & Hq2 & Hpy2 & Hin & Hout)
    end.
    { apply manager_ok_set_agent; assumption. }
    { intros j Hj. cbn [self num_agents set_agents].
      apply Hids. now right. }
    exists actions', w'. split; [exact Hrun|]. split; [exact Hok2|].
    cbn [self env set_agents agents files py_random] in *.
    split; [eapply same_books_trans; [apply same_books_set_agent | exact Hb2]|].
    split; [exact He2|]. split; [congruence|].
    split.
    { eapply Forall2_only_q_trans; [|exact Hq2].
      eapply Forall2_only_q_insert; [exact Ha | exact Honly]. }
    split; [intros Ht; rewrite (Hpy2 Ht); auto|].
    destruct Haok as (Had & _). rewrite Had in Hrange. split.
    + intros j Hj. destruct (decide (j ∈ ids)) as [Hjin|Hjout]; [auto|].
      apply elem_of_cons in Hj as [->|Hj]; [|contradiction].
      rewrite (Hout i Hjout), lookup_insert_eq.
      exists action. split; [reflexivity|lia].
    + intros j Hj. apply not_elem_of_cons in Hj as [Hne Hj].
      rewrite (Hout j Hj). now rewrite lookup_insert_ne.
Qed.

Lemma manager_ok_set_env (m : t) e :
  manager_ok m ->
  GameEnvironment.processor e = GameEnvironment.processor (env m) ->
  GameEnvironment.max_episode_steps e = GameEnvironment.max_episode_steps (env m) ->
  manager_ok (set_env e m).
Proof.
  intros (Hlen & Hall & Hkeys & Hp & Hmax) Hpe Hme. unfold manager_ok.
  cbn [agents num_agents episode_rewards env set_env].
  repeat (split; [assumption|]). split; congruence.
Qed.

(** The body of the second loop of an iteration, for one agent. *)
Lemma push_warm (m : ReplayBuffer.t) (x : Transition) :
  (1000 <= ReplayBuffer.len m)%nat -> (1001 <= ReplayBuffer.capacity m)%nat ->
  (1001 <= ReplayBuffer.len (ReplayBuffer.push m x))%nat /\
  ReplayBuffer.capacity (ReplayBuffer.push m x) = ReplayBuffer.capacity m.
Proof.
  unfold ReplayBuffer.len, ReplayBuffer.push. intros Hlen Hcap.
  cbn [ReplayBuffer.buffer ReplayBuffer.capacity]. split; [|reflexivity].
  destruct (Nat.ltb_spec (ReplayBuffer.capacity m)
              (length (ReplayBuffer.buffer m ++ [x]))) as [Hc|Hc].
  - rewrite length_drop. rewrite length_app in *. cbn [length] in *. lia.
  - rewrite length_app. cbn [length]. lia.
Qed.

Lemma drilled_trans j k a b c :
  drilled j a b -> drilled k b c -> drilled (j + k) a c.
Proof.
  unfold drilled. intros (Hs & Hl & _) (Hs' & Hl' & Hw).
  split; [lia|]. split; [lia|exact Hw].
Qed.

Lemma only_q_drilled a a' : only_q a a' -> warm a -> drilled 0 a a'.
Proof.
  unfold only_q, drilled, warm. intros -> Hw.
  cbn [DQNAgent.step_count DQNAgent.loss_history DQNAgent.memory
       DQNAgent.set_q_network].
  split; [lia|]. split; [lia|exact Hw].
Qed.

Lemma Forall2_drilled_trans j k l1 l2 l3 :
  Forall2 (drilled j) l1 l2 -> Forall2 (drilled k) l2 l3 ->
  Forall2 (drilled (j + k)) l1 l3.
Proof.
  intros H. revert l3. induction H; intros l3 H'; inversion H'; subst;
    constructor; eauto using drilled_trans.
Qed.

Lemma Forall2_drilled_refl l : Forall warm l -> Forall2 (drilled 0) l l.
Proof.
  induction 1; constructor; [|assumption].
  unfold drilled. split; [lia|]. split; [lia|assumption].
Qed.

Lemma Forall2_drilled_warm k l l' : Forall2 (drilled k) l l' -> Forall warm l'.
Proof. induction 1 as [|a a' l l' (_ & _ & Hw)]; constructor; assumption. Qed.

Lemma Forall2_only_q_drilled l l' :
  Forall2 only_q l l' -> Forall warm l -> Forall2 (drilled 0) l l'.
Proof.
  induction 1; intros Hw; inversion Hw; subst; constructor;
    auto using only_q_drilled.
Qed.

Lemma step_agent_ok (training : bool) (states : gmap nat (list Q))
  (actions : gmap nat Z) (i : nat) (l : Locals) (w : World)
  (s : list Q) (act : Z) (rs : list Q) :
  lawful K -> manager_ok (self w) -> (i < num_agents (self w))%nat ->
  states !! i = Some s -> length s = 583%nat ->
  actions !! i = Some act -> (0 <= act <= 4)%Z ->
  l_episode_rewards l !! i = Some rs ->
  exists l' w' obs r,
    step_agent i states actions training l w = (Ok l', w') /\
    manager_ok (self w') /\ same_books (self w) (self w') /\
    GameEnvironment.current_step (env (self w'))
    = (GameEnvironment.current_step (env (self w)) + 1)%Z /\
    l_done l' = (3000 <=? GameEnvironment.current_step (env (self w)) + 1)%Z /\
    GameStateProcessor.process_state (GameStateProcessor.init 50 15) mock_state
    = Ok obs /\
    l_next_states l' = <[i := obs]> (l_next_states l) /\
    - (5) <= r <= 5 /\
    l_episode_rewards l' = <[i := rs ++ [r]]> (l_episode_rewards l) /\
    (training = false ->
     agents (self w') = agents (self w) /\ py_random w' = py_random w /\
     tf_random w' = tf_random w) /\
    (forall j, j <> i -> agents (self w') !! j = agents (self w) !! j) /\
    (training = true -> forall a, agents (self w) !! i = Some a -> warm a ->
     exists a', agents (self w') !! i = Some a' /\ drilled 1 a a').
Proof.
  intros Hlaw Hok Hi Hs Hlen Hact Hrange Hrs.
  pose proof Hok as (Hl & Hall & Hkeys & Hp & Hmax).
  destruct (step_ok (env (self w)) act (Z.of_nat i) 50 15 Hp Hrange)
    as (obs & r & info & e' & Hstep & Hobs & Hobslen & Hr & Hcur & Hmax' & Hp' & _).
  unfold step_agent.
  unfold mbind at 1, M_bind at 1, lift at 1, dict_item at 1. rewrite Hact.
  unfold mbind at 1, M_bind at 1, on_env at 1. rewrite Hstep.
  unfold mbind at 1, M_bind at 1, lift at 1, dict_item at 1.
  cbn [l_episode_rewards]. rewrite Hrs.
  set (w1 := {| self := set_env e' (self w); py_random := py_random w;
                tf_random := tf_random w; files := files w |}).
  assert (Hok1 : manager_ok (self w1)) by (now apply manager_ok_set_env).
  assert (Hb1 : same_books (self w) (self w1)) by (repeat split).
  exists {| l_next_states := <[i := obs]> (l_next_states l);
            l_rewards := <[i := r]> (l_rewards l);
            l_episode_rewards := <[i := rs ++ [r]]> (l_episode_rewards l);
            l_done := (GameEnvironment.max_episode_steps (env (self w))
                       <=? GameEnvironment.current_step (env (self w)) + 1)%Z |}.
  destruct training.
  - destruct (lookup_lt_is_Some_2 (agents (self w)) i ltac:(lia)) as [a Ha].
    pose proof (proj1 (Forall_lookup _ _) Hall i a Ha) as Haok.
    pose proof Haok as (Had & _).
    set (x := {| t_state := s; t_action := act; t_reward := r;
                 t_next_state := obs;
                 t_done := (GameEnvironment.max_episode_steps (env (self w))
                            <=? GameEnvironment.current_step (env (self w)) + 1)%Z |}).
    destruct (store_experience_ok
                {| DQNAgent.self := a; DQNAgent.py_random := py_random w1;
                   DQNAgent.tf_random := tf_random w1;
                   DQNAgent.files := files w1 |} 583 x Haok)
      as (v & Hstore & Hok' & Hself & Hpy & Htf & Hfiles).
    { exact Hlen. }
    { cbn. rewrite Hobslen. reflexivity. }
    { cbn [t_action x DQNAgent.self]. rewrite Had. lia. }
    unfold mbind at 1, M_bind at 1.
    unfold mbind at 1, M_bind at 1.
    erewrite (on_agent_run i _ (s, act) _ w1 a (Ok tt) v Ha);
      [ | unfold dict_item; rewrite Hs, Hact; reflexivity | exact Hstore].
    set (w2 := {| self := set_agents (<[i := DQNAgent.self v]> (agents (self w1)))
                            (self w1);
                  py_random := DQNAgent.py_random v;
                  tf_random := DQNAgent.tf_random v;
                  files := DQNAgent.files v |}).
    assert (Hok2 : manager_ok (self w2)) by (now apply manager_ok_set_agent).
    assert (Ha2 : agents (self w2) !! i = Some (DQNAgent.self v)).
    { cbn [w2 self agents set_agents w1 set_env].
      apply list_lookup_insert_eq. apply lookup_lt_Some in Ha. exact Ha. }
    unfold mbind at 1, M_bind at 1, agent at 1. rewrite Ha2.
    destruct (Nat.ltb_spec 1000 (ReplayBuffer.len (DQNAgent.memory (DQNAgent.self v))))
      as [Hfull|Hnot].
    + destruct (train_step_ok
                  {| DQNAgent.self := DQNAgent.self v;
                     DQNAgent.py_random := py_random w2;
                     DQNAgent.tf_random := tf_random w2;
                     DQNAgent.files := files w2 |} 583 Hlaw Hok' Hfull)
        as (res & v' & Htrain & Hok'' & Hmem' & Hsc' & Hlh').
      unfold mbind at 1, M_bind at 1.
      rewrite (on_agent_run i (Ok tt) tt _ w2 (DQNAgent.self v) (Ok res) v' Ha2
                 eq_refl Htrain).
      eexists _, obs, r. split; [reflexivity|].
      cbn [self]. split; [now apply manager_ok_set_agent|].
      split.
      { eapply same_books_trans; [exact Hb1|].
        eapply same_books_trans; [apply (same_books_set_agent (self w1))|].
        apply (same_books_set_agent (self w2)). }
      cbn [env set_agents w2 w1 self set_env l_done l_next_states
           l_episode_rewards].
      rewrite Hmax. repeat (split; [assumption || reflexivity|]).
      cbn [agents set_agents set_env].
      split; [discriminate|]. split.
      { intros j Hj. rewrite !list_lookup_insert_ne by congruence. reflexivity. }
      intros _ a0 Ha0 (Hw1 & Hw2). assert (a0 = a) as -> by congruence.
      exists (DQNAgent.self v'). split.
      { apply list_lookup_insert_eq. rewrite length_insert.
        apply lookup_lt_Some in Ha. exact Ha. }
      destruct (push_warm (DQNAgent.memory a) x Hw1 Hw2) as [Hp1 Hp2].
      cbn [DQNAgent.self] in Hmem', Hsc', Hlh'. unfold drilled, warm.
      rewrite Hsc', Hlh', Hmem', Hself.
      cbn [DQNAgent.step_count DQNAgent.loss_history DQNAgent.memory
           DQNAgent.set_memory DQNAgent.self].
      repeat split; lia.
    + eexists _, obs, r. split; [reflexivity|].
      split; [exact Hok2|]. split.
      { eapply same_books_trans; [exact Hb1|].
        apply (same_books_set_agent (self w1)). }
      cbn [env set_agents w2 w1 self set_env l_done l_next_states
           l_episode_rewards].
      rewrite Hmax. repeat (split; [assumption || reflexivity|]).
      cbn [agents set_agents set_env].
      split; [discriminate|]. split.
      { intros j Hj. rewrite list_lookup_insert_ne by congruence. reflexivity. }
      intros _ a0 Ha0 (Hw1 & Hw2). assert (a0 = a) as -> by congruence.
      destruct (push_warm (DQNAgent.memory a) x Hw1 Hw2) as [Hp1 Hp2].
      rewrite Hself in Hnot. cbn [DQNAgent.memory DQNAgent.set_memory
                                  DQNAgent.self] in Hnot. lia.
  - eexists w1, obs, r. split; [reflexivity|].
    split; [exact Hok1|]. split; [exact Hb1|].
    cbn [env w1 self set_env l_done l_next_states l_episode_rewards agents
         py_random tf_random].
    rewrite Hmax. repeat (split; [assumption || reflexivity|]).
    cbn [agents set_agents set_env].
    split; [auto|]. split; [reflexivity|discriminate].
Qed.

(** The second loop of an iteration. *)
Lemma step_agents_ok (training : bool) (states : gmap nat (list Q))
  (actions : gmap nat Z) (obs : list Q) :
  lawful K ->
  GameStateProcessor.process_state (GameStateProcessor.init 50 15) mock_state
  = Ok obs ->
  forall (ids : list nat) (l : Locals) (w : World),
  manager_ok (self w) -> NoDup ids ->
  (forall i, i ∈ ids ->
     (i < num_agents (self w))%nat /\
     (exists s, states !! i = Some s /\ length s = 583%nat) /\
     (exists a, actions !! i = Some a /\ (0 <= a <= 4)%Z) /\
     is_Some (l_episode_rewards l !! i)) ->
  exists l' w',
    step_agents ids states actions training l w = (Ok l', w') /\
    manager_ok (self w') /\ same_books (self w) (self w') /\
    GameEnvironment.current_step (env (self w'))
    = (GameEnvironment.current_step (env (self w)) + Z.of_nat (length ids))%Z /\
    l_done l' = match ids with
                | [] => l_done l
                | _ => (3000 <=? GameEnvironment.current_step (env (self w'))
                       )%Z
                end /\
    (forall i, i ∈ ids -> l_next_states l' !! i = Some obs) /\
    (forall i, i ∉ ids -> l_next_states l' !! i = l_next_states l !! i) /\
    (forall i rs, i ∈ ids -> l_episode_rewards l !! i = Some rs ->
       exists r, bounded r /\ l_episode_rewards l' !! i = Some (rs ++ [r])) /\
    (forall i, i ∉ ids -> l_episode_rewards l' !! i = l_episode_rewards l !! i) /\
    (training = false ->
     agents (self w') = agents (self w) /\ py_random w' = py_random w /\
     tf_random w' = tf_random w) /\
    (forall i, i ∉ ids -> agents (self w') !! i = agents (self w) !! i) /\
    (training = true -> forall i a, i ∈ ids ->
     agents (self w) !! i = Some a -> warm a ->
     exists a', agents (self w') !! i = Some a' /\ drilled 1 a a').
Proof.
  intros Hlaw Hobs.
  induction ids as [|i ids IH]; intros l w Hok Hnd Hids.
  - exists l, w. split; [reflexivity|]. split; [exact Hok|].
    split; [apply same_books_refl|]. cbn [length]. split; [lia|].
    split; [reflexivity|].
    split; [intros j Hj; inversion Hj|]. split; [reflexivity|].
    split; [intros j rs Hj; inversion Hj|]. split; [reflexivity|].
    split; [auto|]. split; [reflexivity|].
    intros _ j a Hj; inversion Hj.
  - apply NoDup_cons in Hnd as [Hni Hnd].
    destruct (Hids i ltac:(left)) as (Hi & (s & Hs & Hlen) & (a & Ha & Hr) & [rs Hrs]).
    destruct (step_agent_ok training states actions i l w s a rs
                Hlaw Hok Hi Hs Hlen Ha Hr Hrs)
      as (l1 & w1 & obs1 & r & Hstep & Hok1 & Hb1 & Hcur1 & Hdone1 & Hobs1
          & Hnext1 & Hr1 & Hrew1 & Hfalse1 & Hother1 & Hwarm1).
    assert (obs1 = obs) as -> by congruence.
    destruct (IH l1 w1 Hok1 Hnd) as (l' & w' & Hrun & Hok' & Hb' & Hcur' & Hdone'
                                     & Hnin & Hnout & Hrin & Hrout & Hfalse'
                                     & Hother' & Hwarm').
    { intros j Hj. destruct (Hids j ltac:(now right)) as (Hj1 & Hj2 & Hj3 & Hj4).
      destruct Hb1 as (Hn1 & _). rewrite Hn1.
      repeat (split; [assumption|]).
      rewrite Hrew1, lookup_insert_ne; [exact Hj4|]. intros ->. contradiction. }
    exists l', w'. cbn [step_agents]. unfold mbind at 1, M_bind at 1.
    rewrite Hstep. split; [exact Hrun|]. split; [exact Hok'|].
    split; [eapply same_books_trans; eassumption|].
    split; [rewrite Hcur', Hcur1; cbn [length]; lia|].
    split.
    { rewrite Hdone'. destruct ids as [|j ids]; [|reflexivity].
      rewrite Hdone1, Hcur', Hcur1. cbn [length]. f_equal. lia. }
    split.
    { intros j Hj. apply elem_of_cons in Hj as [->|Hj]; [|auto].
      destruct (decide (i ∈ ids)) as [Hin|Hout]; [auto|].
      rewrite (Hnout i Hout), Hnext1. apply lookup_insert_eq. }
    split.
    { intros j Hj. apply not_elem_of_cons in Hj as [Hne Hj].
      rewrite (Hnout j Hj), Hnext1. now apply lookup_insert_ne. }
    split.
    { intros j rs' Hj Hrs'. apply elem_of_cons in Hj as [->|Hj].
      - rewrite (Hrout i Hni), Hrew1, lookup_insert_eq.
        assert (rs' = rs) as -> by congruence. exists r. auto.
      - apply (Hrin j rs' Hj). rewrite Hrew1, lookup_insert_ne; [exact Hrs'|].
        intros ->. contradiction. }
    split.
    { intros j Hj. apply not_elem_of_cons in Hj as [Hne Hj].
      rewrite (Hrout j Hj), Hrew1. now apply lookup_insert_ne. }
    split.
    { intros Ht. destruct (Hfalse1 Ht) as (H1 & H2 & H3).
      destruct (Hfalse' Ht) as (H4 & H5 & H6). repeat split; congruence. }
    split.
    { intros j Hj. apply not_elem_of_cons in Hj as [Hne Hj].
      rewrite (Hother' j Hj). now apply Hother1. }
    intros Ht j a0 Hj Ha0 Hw. apply elem_of_cons in Hj as [->|Hj].
    + rewrite (Hother' i Hni). now apply Hwarm1.
    + apply (Hwarm' Ht j a0 Hj); [|exact Hw].
      rewrite Hother1; [exact Ha0|]. intros ->. contradiction.
Qed.

Lemma episodes_end_ge (remaining n step : nat) :
  (step <= episodes_end remaining n step)%nat.
Proof.
  revert step. induction remaining as [|remaining IH]; intros step;
    cbn [episodes_end]; [lia|].
  destruct (done_at n step); [lia|]. specialize (IH (S step)). lia.
Qed.

Lemma dict_of_lookup {V : Type} (ids : list nat) (v : V) (i : nat) :
  dict_of ids v !! i = if decide (i ∈ ids) then Some v else None.
Proof.
  unfold dict_of. induction ids as [|j ids IH]; cbn [map list_to_map].
  - destruct (decide _) as [Hin|]; [inversion Hin|]. exact (lookup_empty i).
  - change (list_to_map ((j, v) :: map (fun i => (i, v)) ids) : gmap nat V)
      with (<[j := v]> (list_to_map (map (fun i => (i, v)) ids) : gmap nat V)).
    destruct (decide (i = j)) as [->|Hne].
    + rewrite lookup_insert_eq.
      destruct (decide (j ∈ j :: ids)) as [|Hout]; [reflexivity|].
      exfalso. apply Hout. left.
    + rewrite lookup_insert_ne by congruence. rewrite IH.
      destruct (decide (i ∈ ids)), (decide (i ∈ j :: ids)) as [Hin|Hout];
        try reflexivity.
      * exfalso. apply Hout. now right.
      * apply elem_of_cons in Hin as [?|?]; contradiction.
Qed.

(** The loop of an episode. *)
Lemma episode_loop_ok (training : bool) (obs : list Q) :
  lawful K ->
  GameStateProcessor.process_state (GameStateProcessor.init 50 15) mock_state
  = Ok obs ->
  length obs = 583%nat ->
  forall (remaining : nat) (states d : gmap nat (list Q)) (step : nat) (w : World),
  manager_ok (self w) ->
  (forall i, (i < num_agents (self w))%nat ->
     exists s, states !! i = Some s /\ length s = 583%nat) ->
  (forall i, (i < num_agents (self w))%nat ->
     exists rs, d !! i = Some rs /\ length rs = step /\ Forall bounded rs) ->
  GameEnvironment.current_step (env (self w))
  = (Z.of_nat (num_agents (self w)) * Z.of_nat step)%Z ->
  exists d' w',
    episode_loop remaining (seq 0 (num_agents (self w))) training states d
      (done_at (num_agents (self w)) step) step w
    = (Ok (d', episodes_end remaining (num_agents (self w)) step), w') /\
    manager_ok (self w') /\ same_books (self w) (self w') /\
    (forall i, (i < num_agents (self w))%nat ->
       exists rs, d' !! i = Some rs /\
         length rs = episodes_end remaining (num_agents (self w)) step /\
         Forall bounded rs) /\
    (training = false ->
     Forall2 only_q (agents (self w)) (agents (self w')) /\
     py_random w' = py_random w) /\
    (training = true -> Forall warm (agents (self w)) ->
     Forall2 (drilled (episodes_end remaining (num_agents (self w)) step - step))
       (agents (self w)) (agents (self w'))).
Proof.
  intros Hlaw Hobs Hobslen.
  induction remaining as [|remaining IH]; intros states d step w Hok Hstates Hd Hcur.
  - exists d, w. split; [reflexivity|]. split; [exact Hok|].
    split; [apply same_books_refl|]. split; [exact Hd|]. split.
    + intros _. split; [apply Forall2_only_q_refl | reflexivity].
    + intros _ Hw. cbn [episodes_end]. rewrite Nat.sub_diag.
      now apply Forall2_drilled_refl.
  - cbn [episode_loop episodes_end].
    destruct (done_at (num_agents (self w)) step) eqn:Hdone.
    { exists d, w. split; [reflexivity|]. split; [exact Hok|].
      split; [apply same_books_refl|]. split; [exact Hd|]. split.
      + intros _. split; [apply Forall2_only_q_refl | reflexivity].
      + intros _ Hw. rewrite Nat.sub_diag. now apply Forall2_drilled_refl. }
    set (n := num_agents (self w)) in *.
    destruct (select_actions_ok training states (seq 0 n) ∅ w Hok)
      as (actions & w1 & Hsel & Hok1 & Hb1 & He1 & _ & Hq1 & Hpy1 & Hain & _).
    { intros i Hi. apply elem_of_seq in Hi. split; [lia|]. apply Hstates. lia. }
    pose proof Hb1 as (Hn1 & _). fold n in Hn1.
    destruct (step_agents_ok training states actions obs Hlaw Hobs (seq 0 n)
                {| l_next_states := ∅; l_rewards := ∅;
                   l_episode_rewards := d; l_done := false |} w1 Hok1
                (NoDup_seq 0 n))
      as (l' & w2 & Hstep & Hok2 & Hb2 & Hcur2 & Hdone2 & Hnin & _ & Hrin
          & _ & Hfalse2 & _ & Hwarm2).
    { intros i Hi. pose proof Hi as Hi'. apply elem_of_seq in Hi'. rewrite Hn1.
      split; [lia|]. split; [apply Hstates; lia|]. split; [now apply Hain|].
      cbn [l_episode_rewards]. destruct (Hd i ltac:(lia)) as (rs & -> & _). eauto. }
    pose proof Hb2 as (Hn2 & _).
    assert (Hn2' : num_agents (self w2) = n) by congruence.
    assert (Hdone' : l_done l' = done_at n (S step)).
    { rewrite Hdone2, Hcur2, He1, Hcur, length_seq. unfold done_at.
      destruct n as [|n']; [reflexivity|].
      cbn [seq Nat.ltb Nat.leb andb]. f_equal. lia. }
    unfold mbind at 1, M_bind at 1. rewrite Hsel.
    unfold mbind at 1, M_bind at 1. rewrite Hstep.
    destruct (IH (l_next_states l') (l_episode_rewards l') (S step) w2 Hok2)
      as (d' & w' & Hrun & Hok' & Hb' & Hd' & Hfalse' & Hwarm').
    { rewrite Hn2'. intros i Hi. exists obs. split; [|exact Hobslen].
      apply Hnin, elem_of_seq. lia. }
    { rewrite Hn2'. intros i Hi. destruct (Hd i Hi) as (rs & Hrs & Hlen & Hall).
      destruct (Hrin i rs ltac:(apply elem_of_seq; lia) Hrs) as (r & Hr & Hrs').
      exists (rs ++ [r]). split; [exact Hrs'|]. split.
      - rewrite length_app. cbn. lia.
      - apply Forall_app. split; [exact Hall|]. constructor; [exact Hr|constructor]. }
    { rewrite Hcur2, He1, Hcur, length_seq, Hn2'. lia. }
    rewrite Hn2', <- Hdone' in Hrun.
    exists d', w'. split; [exact Hrun|]. split; [exact Hok'|].
    split; [eapply same_books_trans; [exact Hb1|];
            eapply same_books_trans; eassumption|].
    split; [rewrite Hn2' in Hd'; exact Hd'|]. split.
    { intros Ht. destruct (Hfalse2 Ht) as (Ha2 & Hp2 & _).
      destruct (Hfalse' Ht) as (Hq' & Hp'). split.
      + eapply Forall2_only_q_trans; [exact Hq1|]. rewrite <- Ha2. exact Hq'.
      + rewrite Hp', Hp2. auto. }
    intros Ht Hw.
    pose proof (Forall2_only_q_drilled _ _ Hq1 Hw) as Hd1.
    pose proof (Forall2_drilled_warm _ _ _ Hd1) as Hw1.
    assert (Hd2 : Forall2 (drilled 1) (agents (self w1)) (agents (self w2))).
    { destruct Hok1 as (Hl1 & _). destruct Hok2 as (Hl2 & _).
      apply Forall2_same_length_lookup_2; [congruence|].
      intros i a a' Ha Ha'.
      pose proof (lookup_lt_Some _ _ _ Ha) as Hi.
      destruct (Hwarm2 Ht i a) as (a2 & Ha2 & Hd2).
      - apply elem_of_seq. lia.
      - exact Ha.
      - exact (proj1 (Forall_lookup _ _) Hw1 i a Ha).
      - congruence. }
    pose proof (Forall2_drilled_warm _ _ _ Hd2) as Hw2.
    rewrite Hn2' in Hwarm'. specialize (Hwarm' Ht Hw2).
    pose proof (episodes_end_ge remaining n (S step)) as Hge.
    replace (episodes_end remaining n (S step) - step)%nat
      with (0 + (1 + (episodes_end remaining n (S step) - S step)))%nat by lia.
    eapply Forall2_drilled_trans; [exact Hd1|].
    eapply Forall2_drilled_trans; [exact Hd2|exact Hwarm'].
Qed.

Lemma done_at_spec (n step : nat) :
  done_at n step = true <->
  (0 < step)%nat /\ (0 < n)%nat /\ (2999 / n + 1 <= step)%nat.
Proof.
  unfold done_at. rewrite !andb_true_iff, !Nat.ltb_lt, Z.leb_le.
  split.
  - intros [[Hs Hn] Hle]. repeat split; try assumption.
    assert (Hlt : (2999 < n * step)%nat) by lia.
    pose proof (Nat.div_mod_eq 2999 n) as Hdiv.
    pose proof (Nat.mod_upper_bound 2999 n ltac:(lia)) as Hmod.
    assert (Hq : (2999 / n < step)%nat); [|lia].
    destruct (Nat.lt_ge_cases (2999 / n) step) as [|Hge]; [assumption|].
    assert ((n * step <= n * (2999 / n))%nat) by (apply Nat.mul_le_mono_l; exact Hge).
    lia.
  - intros (Hs & Hn & Hle). repeat split; try assumption.
    pose proof (Nat.div_mod_eq 2999 n) as Hdiv.
    pose proof (Nat.mod_upper_bound 2999 n ltac:(lia)) as Hmod.
    assert ((n * (2999 / n + 1) <= n * step)%nat) by (apply Nat.mul_le_mono_l; exact Hle).
    lia.
Qed.

Lemma episodes_end_done (remaining n step : nat) :
  done_at n step = true -> episodes_end remaining n step = step.
Proof. intros Hd. destruct remaining; cbn; [reflexivity | now rewrite Hd]. Qed.

Lemma episodes_end_closed (n : nat) : forall remaining step,
  (remaining + step = 1000)%nat ->
  (n = 0%nat \/ step < 2999 / n + 1)%nat ->
  episodes_end remaining n step = episode_length n.
Proof.
  induction remaining as [|remaining IH]; intros step Hsum Hstep.
  - cbn. unfold episode_length. destruct (Nat.eqb_spec n 0); lia.
  - cbn [episodes_end].
    destruct (done_at n step) eqn:Hd.
    { apply done_at_spec in Hd. lia. }
    destruct Hstep as [Hn|Hstep]; [apply IH; [lia|auto]|].
    destruct (Nat.eqb_spec n 0) as [Hn|Hn]; [apply IH; [lia|auto]|].
    destruct (Nat.lt_ge_cases (S step) (2999 / n + 1)) as [Hlt|Hge].
    + apply IH; [lia|auto].
    + rewrite episodes_end_done by (apply done_at_spec; lia).
      unfold episode_length. destruct (Nat.eqb_spec n 0); lia.
Qed.

(** The totals of an episode are appended to the books. *)
Lemma record_totals_ok (local : gmap nat (list Q)) :
  forall (ids : list nat) (w : World),
  NoDup ids ->
  (forall i, i ∈ ids ->
     is_Some (local !! i) /\ is_Some (episode_rewards (self w) !! i)) ->
  exists w',
    record_totals ids local w = (Ok tt, w') /\
    self w' = set_episode_rewards (episode_rewards (self w')) (self w) /\
    py_random w' = py_random w /\ tf_random w' = tf_random w /\
    files w' = files w /\
    (forall i rs totals, i ∈ ids -> local !! i = Some rs ->
       episode_rewards (self w) !! i = Some totals ->
       episode_rewards (self w') !! i = Some (totals ++ [py_sum rs])) /\
    (forall i, i ∉ ids ->
       episode_rewards (self w') !! i = episode_rewards (self w) !! i).
Proof.
  induction ids as [|i ids IH]; intros w Hnd Hids.
  - exists w. split; [reflexivity|]. split; [now destruct (self w)|].
    repeat (split; [reflexivity|]).
    split; [intros j rs totals Hj; inversion Hj | reflexivity].
  - apply NoDup_cons in Hnd as [Hni Hnd].
    destruct (Hids i ltac:(left)) as ([rs Hrs] & [totals Htotals]).
    cbn [record_totals].
    unfold mbind at 1, M_bind at 1, lift at 1, dict_item at 1. rewrite Hrs.
    unfold mbind at 1, M_bind at 1, get at 1.
    unfold mbind at 1, M_bind at 1, lift at 1, dict_item at 1. rewrite Htotals.
    unfold mbind at 1, M_bind at 1, modify at 1.
    match goal with |- context [record_totals ids local ?w1] =>
      destruct (IH w1 Hnd) as (w' & Hrun & Hself & Hpy & Htf & Hf & Hin & Hout)
    end.
    { intros j Hj. destruct (Hids j ltac:(now right)) as [Hl Ht].
      split; [exact Hl|]. cbn [self episode_rewards set_episode_rewards].
      rewrite lookup_insert_ne; [exact Ht|]. intros ->. contradiction. }
    cbn [self episode_rewards set_episode_rewards py_random tf_random files] in *.
    exists w'. split; [exact Hrun|]. split; [rewrite Hself at 1; reflexivity|].
    repeat (split; [assumption|]). split.
    + intros j rs' totals' Hj Hrs' Ht'. apply elem_of_cons in Hj as [->|Hj].
      * rewrite (Hout i Hni), lookup_insert_eq. congruence.
      * apply (Hin j rs' totals' Hj Hrs').
        rewrite lookup_insert_ne; [exact Ht'|]. intros ->. contradiction.
    + intros j Hj. apply not_elem_of_cons in Hj as [Hne Hj].
      rewrite (Hout j Hj). now apply lookup_insert_ne.
Qed.

(** An episode of a well-formed manager, in full. *)
Lemma run_episode_spec (training : bool) (w : World) :
  lawful K -> manager_ok (self w) ->
  exists rewards w',
    run_episode training w = (Ok rewards, w') /\
    manager_ok (self w') /\
    num_agents (self w') = num_agents (self w) /\
    episode_lengths (self w')
    = episode_lengths (self w) ++ [episode_length (num_agents (self w))] /\
    (forall i, (i < num_agents (self w))%nat ->
       exists rs totals,
         rewards !! i = Some rs /\
         length rs = episode_length (num_agents (self w)) /\
         Forall bounded rs /\
         episode_rewards (self w) !! i = Some totals /\
         episode_rewards (self w') !! i = Some (totals ++ [py_sum rs])) /\
    (training = false ->
     Forall2 only_q (agents (self w)) (agents (self w')) /\
     py_random w' = py_random w) /\
    (training = true -> Forall warm (agents (self w)) ->
     Forall2 (drilled (episode_length (num_agents (self w))))
       (agents (self w)) (agents (self w'))).
Proof.
  intros Hlaw Hok. pose proof Hok as (Hl & Hall & Hkeys & Hp & Hmax).
  set (n := num_agents (self w)) in *.
  destruct (reset_ok (env (self w)) 50 15 Hp)
    as (obs & e' & Hreset & Hobs & Hobslen & Hcur & Hmax' & Hp').
  change (3 + 50 * 7 + Nat.min 2 50 + 225 + 1 + 2)%nat with 583%nat in Hobslen.
  set (w1 := {| self := set_env e' (self w); py_random := py_random w;
                tf_random := tf_random w; files := files w |}).
  assert (Hok1 : manager_ok (self w1)) by (now apply manager_ok_set_env).
  destruct (episode_loop_ok training obs Hlaw Hobs Hobslen 1000
              (dict_of (seq 0 n) obs) (dict_of (seq 0 n) []) 0%nat w1 Hok1)
    as (d' & w2 & Hloop & Hok2 & Hb2 & Hd' & Hfalse & Hwarm).
  { intros i Hi. exists obs. split; [|exact Hobslen].
    rewrite dict_of_lookup. destruct (decide _) as [|Hout]; [reflexivity|].
    exfalso. apply Hout, elem_of_seq. cbn in Hi. fold n in Hi. lia. }
  { intros i Hi. exists []. split; [|split; [reflexivity|constructor]].
    rewrite dict_of_lookup. destruct (decide _) as [|Hout]; [reflexivity|].
    exfalso. apply Hout, elem_of_seq. cbn in Hi. fold n in Hi. lia. }
  { cbn [w1 self env set_env]. rewrite Hcur. lia. }
  cbn [w1 self num_agents agents set_env] in Hloop, Hd', Hwarm.
  fold n in Hloop, Hd', Hwarm.
  rewrite (episodes_end_closed n 1000 0 eq_refl) in Hloop, Hd', Hwarm
    by (right; lia).
  rewrite Nat.sub_0_r in Hwarm.
  change (done_at n 0) with false in Hloop.
  pose proof Hb2 as (Hn2 & _ & Her2 & Hel2 & _).
  cbn [w1 self num_agents episode_rewards episode_lengths set_env] in Hn2, Her2, Hel2.
  fold n in Hn2.
  destruct (record_totals_ok d' (seq 0 n) w2 (NoDup_seq 0 n))
    as (w3 & Hrec & Hself3 & Hpy3 & Htf3 & Hf3 & Hin3 & Hout3).
  { intros i Hi. apply elem_of_seq in Hi.
    destruct (Hd' i ltac:(lia)) as (rs & -> & _). split; [eauto|].
    rewrite Her2. apply Hkeys. fold n. lia. }
  unfold run_episode.
  unfold mbind at 1, M_bind at 1, get at 1. fold n.
  unfold mbind at 1, M_bind at 1, on_env at 1. rewrite Hreset. fold w1.
  unfold mbind at 1, M_bind at 1. rewrite Hloop.
  unfold mbind at 1, M_bind at 1. rewrite Hrec.
  unfold mbind, M_bind, modify, mret, M_ret.
  eexists _, _. split; [reflexivity|].
  cbn [self num_agents episode_lengths episode_rewards set_episode_lengths].
  rewrite Hself3.
  cbn [num_agents episode_lengths episode_rewards set_episode_rewards agents].
  split.
  { destruct Hok2 as (Hl2 & Hall2 & Hkeys2 & Hp2 & Hmax2). unfold manager_ok.
    cbn [agents num_agents episode_rewards env set_episode_lengths
         set_episode_rewards].
    repeat (split; [assumption|]). split; [|auto].
    intros i Hi. rewrite Hn2 in Hi.
    destruct (Hd' i Hi) as (rs & Hrs & _).
    destruct (Hkeys i Hi) as [totals Ht]. rewrite <- Her2 in Ht.
    rewrite (Hin3 i rs totals ltac:(apply elem_of_seq; lia) Hrs Ht). eauto. }
  split; [exact Hn2|]. split; [now rewrite Hel2|].
  split.
  { intros i Hi. destruct (Hd' i Hi) as (rs & Hrs & Hlen & Hb).
    destruct (Hkeys i Hi) as [totals Ht].
    exists rs, totals. repeat (split; [assumption|]).
    apply Hin3; [apply elem_of_seq; lia | exact Hrs | now rewrite Her2]. }
  split; [|exact Hwarm].
  intros Ht. destruct (Hfalse Ht) as (Hq & Hpy).
  cbn [w1 self agents set_env py_random] in Hq, Hpy.
  split; [exact Hq|]. cbn [py_random]. congruence.
Qed.

Lemma new_agent_ok (state_dim n : nat) : agent_ok n (new_agent state_dim).
Proof.
  unfold agent_ok, new_agent.
  cbn [DQNAgent.action_dim DQNAgent.batch_size DQNAgent.target_update_freq
       DQNAgent.q_network DQNAgent.target_network DQNAgent.memory
       DQNAgent.count_sync DQNAgent.fresh].
  split; [reflexivity|]. split; [lia|]. split; [discriminate|].
  split; [apply init_network_fits|]. split; [apply init_network_fits|].
  split; [apply output_width_init|]. split; [reflexivity|]. constructor.
Qed.

Lemma create_agents_ok (state_dim : nat) (py tf : Random.state)
  (fs : gmap string File) : forall (n : nat) (l : list DQNAgent.t),
  create_agents n state_dim l py tf fs
  = Ok (l ++ replicate n (new_agent state_dim), py, tf, fs).
Proof.
  induction n as [|n IH]; intros l; cbn [create_agents replicate].
  - now rewrite app_nil_r.
  - unfold DQNAgent.init. rewrite init_with_world.
    cbn [DQNAgent.self DQNAgent.py_random DQNAgent.tf_random DQNAgent.files].
    rewrite IH, <- app_assoc. reflexivity.
Qed.

Lemma init_spec (makedirs : string -> result unit) (n : nat) (dir : string)
  (py tf : Random.state) (fs : gmap string File) :
  makedirs dir = Ok tt ->
  init makedirs n dir py tf fs
  = Ok {| self := {| num_agents := n; save_dir := dir;
                     env := GameEnvironment.init 3000;
                     agents := replicate n (new_agent 581);
                     episode_rewards := dict_of (seq 0 n) [];
                     episode_lengths := [];
                     win_rates := dict_of (seq 0 n) [] |};
          py_random := py; tf_random := tf; files := fs |}.
Proof.
  intros Hmk. unfold init. rewrite Hmk. cbn [mbind result_bind].
  change (GameStateProcessor.compute_state_dim
            (GameEnvironment.processor (GameEnvironment.init 3000)))
    with 581%nat.
  rewrite create_agents_ok. reflexivity.
Qed.

Lemma init_manager_ok (n : nat) (dir : string) :
  manager_ok {| num_agents := n; save_dir := dir;
                env := GameEnvironment.init 3000;
                agents := replicate n (new_agent 581);
                episode_rewards := dict_of (seq 0 n) [];
                episode_lengths := [];
                win_rates := dict_of (seq 0 n) [] |}.
Proof.
  unfold manager_ok. cbn [agents num_agents episode_rewards env].
  split; [apply length_replicate|].
  split; [apply Forall_replicate, new_agent_ok|].
  split; [|split; reflexivity].
  intros i Hi. rewrite dict_of_lookup.
  destruct (decide _) as [|Hout]; [eauto|].
  exfalso. apply Hout, elem_of_seq. lia.
Qed.

(** X22: [TrainingManager(num_agents, save_dir)] raises what
    [os.makedirs(save_dir, exist_ok=True)] raises, and constructs nothing
    then.  When [os.makedirs] returns, the constructor returns: its agents
    are [num_agents] copies of one new agent, constructed for a state of
    581 entries; constructing them draws nothing from either random source
    and touches no file of the model, and the manager is well formed. *)
Theorem X22_new_manager_holds_identical_agents
  (makedirs : string -> result unit) (n : nat) (dir : string)
  (py tf : Random.state) (fs : gmap string File) :
  (forall e, makedirs dir = Raise e ->
     init makedirs n dir py tf fs = Raise e) /\
  (makedirs dir = Ok tt ->
   exists w,
     init makedirs n dir py tf fs = Ok w /\
     manager_ok (self w) /\
     num_agents (self w) = n /\
     agents (self w) = replicate n (new_agent 581) /\
     episode_lengths (self w) = [] /\
     py_random w = py /\ tf_random w = tf /\ files w = fs).
Proof.
  split.
  - intros e Hmk. unfold init. rewrite Hmk. reflexivity.
  - intros Hmk. rewrite (init_spec makedirs n dir py tf fs Hmk).
    eexists. split; [reflexivity|].
    cbn [self num_agents agents episode_lengths py_random tf_random files].
    split; [apply init_manager_ok|]. repeat split.
Qed.

(** X23: an episode of a well-formed manager returns, in training as in
    evaluation, and leaves the manager well formed.  It runs
    [episode_length(num_agents)] iterations, which is 1000 for at most
    three agents; for every agent it returns that many rewards, each in
    [[-5, 5]], and it appends their sum to the rewards of the agent and
    the number of iterations to the episode lengths. *)
Theorem X23_run_episode_returns (training : bool) (w : World) :
  lawful K -> manager_ok (self w) ->
  exists rewards w',
    run_episode training w = (Ok rewards, w') /\
    manager_ok (self w') /\
    num_agents (self w') = num_agents (self w) /\
    episode_lengths (self w')
    = episode_lengths (self w) ++ [episode_length (num_agents (self w))] /\
    ((num_agents (self w) <= 3)%nat ->
     episode_length (num_agents (self w)) = 1000%nat) /\
    (forall i, (i < num_agents (self w))%nat ->
       exists rs totals,
         rewards !! i = Some rs /\
         length rs = episode_length (num_agents (self w)) /\
         Forall (fun r => - (5) <= r <= 5) rs /\
         episode_rewards (self w) !! i = Some totals /\
         episode_rewards (self w') !! i = Some (totals ++ [py_sum rs])).
Proof.
  intros Hlaw Hok.
  destruct (run_episode_spec training w Hlaw Hok)
    as (rewards & w' & Hrun & Hok' & Hn & Hlen & Hrs & _).
  exists rewards, w'. repeat (split; [assumption|]). split; [|exact Hrs].
  intros Hle. unfold episode_length.
  destruct (num_agents (self w)) as [|[|[|[|n]]]]; try reflexivity. lia.
Qed.

Lemma append_totals_ok (episode_rewards : gmap nat (list Q)) :
  forall (ids : list nat) (eval_rewards : gmap nat (list Q)),
  (forall i, i ∈ ids ->
     is_Some (eval_rewards !! i) /\ is_Some (episode_rewards !! i)) ->
  exists eval_rewards',
    append_totals ids episode_rewards eval_rewards = Ok eval_rewards' /\
    (forall i, is_Some (eval_rewards !! i) -> is_Some (eval_rewards' !! i)).
Proof.
  induction ids as [|i ids IH]; intros er Hids.
  - exists er. split; [reflexivity | auto].
  - destruct (Hids i ltac:(left)) as ([totals Ht] & [rs Hrs]).
    cbn [append_totals]. unfold dict_item. rewrite Ht, Hrs.
    cbn [mbind result_bind].
    assert (Hkeep : forall j, is_Some (er !! j) ->
                    is_Some (<[i := totals ++ [py_sum rs]]> er !! j)).
    { intros j Hj. destruct (decide (j = i)) as [->|Hne].
      - rewrite lookup_insert_eq. eauto.
      - now rewrite lookup_insert_ne. }
    destruct (IH (<[i := totals ++ [py_sum rs]]> er)) as (er' & Hrun & Hkeys).
    { intros j Hj. destruct (Hids j ltac:(now right)) as [Hj1 Hj2]. auto. }
    exists er'. split; [exact Hrun | auto].
Qed.

(** The episodes of an evaluation. *)
Lemma evaluation_episodes_ok : forall (k : nat) (eval_rewards : gmap nat (list Q))
  (w : World),
  lawful K -> manager_ok (self w) ->
  (forall i, (i < num_agents (self w))%nat -> is_Some (eval_rewards !! i)) ->
  exists eval_rewards' w',
    evaluation_episodes k (seq 0 (num_agents (self w))) eval_rewards w
    = (Ok eval_rewards', w') /\
    manager_ok (self w') /\
    num_agents (self w') = num_agents (self w) /\
    episode_lengths (self w')
    = episode_lengths (self w)
        ++ replicate k (episode_length (num_agents (self w))) /\
    Forall2 only_q (agents (self w)) (agents (self w')) /\
    py_random w' = py_random w.
Proof.
  induction k as [|k IH]; intros er w Hlaw Hok Hkeys.
  - exists er, w. split; [reflexivity|]. split; [exact Hok|].
    split; [reflexivity|]. cbn. rewrite app_nil_r. split; [reflexivity|].
    split; [apply Forall2_only_q_refl | reflexivity].
  - destruct (run_episode_spec false w Hlaw Hok)
      as (rewards & w1 & Hrun & Hok1 & Hn1 & Hlen1 & Hrs1 & Hfalse1 & _).
    destruct (Hfalse1 eq_refl) as (Hq1 & Hpy1).
    destruct (append_totals_ok rewards (seq 0 (num_agents (self w))) er)
      as (er1 & Happ & Hkeys1).
    { intros i Hi. apply elem_of_seq in Hi. split; [apply Hkeys; lia|].
      destruct (Hrs1 i ltac:(lia)) as (rs & _ & -> & _). eauto. }
    destruct (IH er1 w1 Hlaw Hok1) as (er' & w' & Hev & Hok' & Hn' & Hlen' & Hq' & Hpy').
    { rewrite Hn1. auto. }
    cbn [evaluation_episodes]. unfold mbind at 1, M_bind at 1. rewrite Hrun.
    unfold mbind at 1, M_bind at 1, lift at 1. rewrite Happ.
    rewrite Hn1 in Hev, Hlen'.
    exists er', w'. split; [exact Hev|]. split; [exact Hok'|].
    split; [congruence|].
    split; [rewrite Hlen', Hlen1, <- app_assoc; reflexivity|].
    split; [eapply Forall2_only_q_trans; eassumption | congruence].
Qed.

(** X24: [evaluate(num_episodes)] on a well-formed manager returns and
    does not train.  Every agent keeps its replay memory, its
    exploration rate, its step counter, its loss history and its target
    network, and Python's random state is left alone; but the episodes
    of the evaluation are recorded in the books of the manager like
    training episodes, [num_episodes] more episode lengths. *)
Theorem X24_evaluate_does_not_train (num_episodes : nat) (w : World) :
  lawful K -> manager_ok (self w) ->
  exists w',
    evaluate num_episodes w = (Ok tt, w') /\
    manager_ok (self w') /\
    episode_lengths (self w')
    = episode_lengths (self w)
        ++ replicate num_episodes (episode_length (num_agents (self w))) /\
    Forall2 (fun a a' =>
               DQNAgent.memory a' = DQNAgent.memory a /\
               DQNAgent.epsilon a' = DQNAgent.epsilon a /\
               DQNAgent.step_count a' = DQNAgent.step_count a /\
               DQNAgent.loss_history a' = DQNAgent.loss_history a /\
               DQNAgent.target_network a' = DQNAgent.target_network a)
            (agents (self w)) (agents (self w')) /\
    py_random w' = py_random w.
Proof.
  intros Hlaw Hok.
  destruct (evaluation_episodes_ok num_episodes
              (dict_of (seq 0 (num_agents (self w))) []) w Hlaw Hok)
    as (er & w' & Hev & Hok' & Hn & Hlen & Hq & Hpy).
  { intros i Hi. rewrite dict_of_lookup.
    destruct (decide _) as [|Hout]; [eauto|].
    exfalso. apply Hout, elem_of_seq. lia. }
  exists w'. unfold evaluate.
  unfold mbind at 1, M_bind at 1, get at 1.
  unfold mbind at 1, M_bind at 1. rewrite Hev.
  split; [reflexivity|]. split; [exact Hok'|]. split; [exact Hlen|].
  split; [|exact Hpy].
  eapply Forall2_impl; [exact Hq|].
  intros a a' Hqa. unfold only_q in Hqa. rewrite Hqa. cbn. auto.
Qed.

End ManagerFacts.

(** ** The first episode *)

Section QuietEpisode.

Import TrainingManager.

Context `{K : Kernels}.

Lemma pushed_refl a : pushed 0 a a.
Proof. unfold pushed. split; [now destruct a|]. split; [reflexivity|lia]. Qed.

Lemma pushed_trans j k a b c : pushed j a b -> pushed k b c -> pushed (j + k) a c.
Proof.
  unfold pushed. intros (Hb & Hcb & Hlb) (Hc & Hcc & Hlc).
  split; [rewrite Hc at 1; rewrite Hb; reflexivity|].
  split; [congruence|lia].
Qed.

Lemma exploring_pushed room k a a' :
  exploring (room + k) a -> pushed k a a' -> exploring room a'.
Proof.
  unfold exploring, pushed. intros (He & Hl & Hc) (Ha & Hc' & Hl').
  rewrite Hl', Hc'. split; [|split; [lia|exact Hc]].
  rewrite Ha. exact He.
Qed.

Lemma bind_ok_M {A B : Type} (m : M A) (k : A -> M B) (w w' : World) (b : B) :
  (x ← m; k x) w = (Ok b, w') ->
  exists a w1, m w = (Ok a, w1) /\ k a w1 = (Ok b, w').
Proof.
  unfold mbind, M_bind. destruct (m w) as [[a|e] w1]; [eauto|discriminate].
Qed.

(** An exploring agent selects its action without calling its network. *)
Lemma select_action_exploring (v : DQNAgent.World) (state : list Q) :
  1 <= DQNAgent.epsilon (DQNAgent.self v) ->
  DQNAgent.self (snd (DQNAgent.select_action state true v)) = DQNAgent.self v /\
  DQNAgent.tf_random (snd (DQNAgent.select_action state true v))
  = DQNAgent.tf_random v.
Proof.
  intros He. pose proof (random_range (DQNAgent.py_random v)) as [_ Hu].
  rewrite select_action_training. cbv zeta.
  destruct (Qle_bool _ _) eqn:Hq.
  - apply Qle_bool_iff in Hq. lra.
  - cbn [DQNAgent.py_random].
    destruct (Random.randint _ _ _) as [[x r2]|e]; auto.
Qed.

Lemma select_actions_exploring (states : gmap nat (list Q)) :
  forall (ids : list nat) (actions : gmap nat Z) (w : World) r w',
  Forall (fun a => 1 <= DQNAgent.epsilon a) (agents (self w)) ->
  select_actions ids states true actions w = (r, w') ->
  self w' = self w /\ tf_random w' = tf_random w.
Proof.
  induction ids as [|i ids IH]; intros actions w r w' Hall Hrun.
  - cbn in Hrun. injection Hrun as _ <-. auto.
  - cbn [select_actions] in Hrun. unfold mbind at 1, M_bind at 1 in Hrun.
    unfold on_agent at 1 in Hrun.
    destruct (agents (self w) !! i) as [a|] eqn:Ha;
      [|injection Hrun as _ <-; auto].
    destruct (dict_item states i) as [s|e]; [|injection Hrun as _ <-; auto].
    pose proof (proj1 (Forall_lookup _ _) Hall i a Ha) as He.
    pose proof (select_action_exploring
                  {| DQNAgent.self := a; DQNAgent.py_random := py_random w;
                     DQNAgent.tf_random := tf_random w;
                     DQNAgent.files := files w |} s He) as [Hself Htf].
    destruct (DQNAgent.select_action s true _) as [res v].
    cbn [snd DQNAgent.self DQNAgent.tf_random] in Hself, Htf.
    rewrite Hself, Htf, (list_insert_id _ _ _ Ha) in Hrun.
    assert (Hm : set_agents (agents (self w)) (self w) = self w)
      by (now destruct (self w)).
    rewrite Hm in Hrun.
    destruct res as [action|e]; [|injection Hrun as _ <-; auto].
    apply IH in Hrun; [exact Hrun | exact Hall].
Qed.

Lemma push_len (m : ReplayBuffer.t) (x : Transition) :
  (ReplayBuffer.len m < ReplayBuffer.capacity m)%nat ->
  ReplayBuffer.len (ReplayBuffer.push m x) = S (ReplayBuffer.len m) /\
  ReplayBuffer.capacity (ReplayBuffer.push m x) = ReplayBuffer.capacity m.
Proof.
  unfold ReplayBuffer.len, ReplayBuffer.push. intros Hlt.
  cbn [ReplayBuffer.buffer ReplayBuffer.capacity]. split; [|reflexivity].
  rewrite length_app. cbn [length].
  destruct (Nat.ltb_spec (ReplayBuffer.capacity m)
              (length (ReplayBuffer.buffer m) + 1)) as [Hc|Hc]; [lia|].
  rewrite length_app. cbn. lia.
Qed.

(** The second loop of an iteration stores one transition in the memory
    of an exploring agent, and does nothing else to it. *)
Lemma step_agent_exploring (states : gmap nat (list Q)) (actions : gmap nat Z)
  (i : nat) (l l' : Locals) (w w' : World) (a : DQNAgent.t) (room : nat) :
  agents (self w) !! i = Some a -> exploring (S room) a ->
  step_agent i states actions true l w = (Ok l', w') ->
  exists a',
    agents (self w') = <[i := a']> (agents (self w)) /\ pushed 1 a a' /\
    tf_random w' = tf_random w /\
    episode_lengths (self w') = episode_lengths (self w).
Proof.
  intros Ha (He & Hroom & Hcap) Hrun. unfold step_agent in Hrun.
  apply bind_ok_M in Hrun as (action & w0 & Hact & Hrun).
  unfold lift in Hact. injection Hact as _ <-.
  apply bind_ok_M in Hrun as ([[[next_state reward] done] info] & w1 & Henv & Hrun).
  unfold on_env in Henv.
  destruct (GameEnvironment.step _ _ _) as [res e'].
  injection Henv as _ <-.
  apply bind_ok_M in Hrun as (rs & w2 & Hrs & Hrun).
  unfold lift in Hrs. injection Hrs as _ <-.
  apply bind_ok_M in Hrun as ([] & w3 & Htrain & Hrun).
  unfold mret, M_ret in Hrun. injection Hrun as _ <-.
  apply bind_ok_M in Htrain as ([] & w4 & Hstore & Htrain).
  unfold on_agent in Hstore.
  cbn [self agents set_env py_random tf_random files] in Hstore.
  rewrite Ha in Hstore.
  destruct (_ ≫= _) as [[state action']|e] in Hstore; [|discriminate Hstore].
  cbn [DQNAgent.store_experience DQNAgent.modify] in Hstore.
  unfold DQNAgent.store_experience, DQNAgent.modify in Hstore.
  cbn [DQNAgent.self DQNAgent.py_random DQNAgent.tf_random DQNAgent.files]
    in Hstore.
  injection Hstore as <-.
  set (x := {| t_state := state; t_action := action'; t_reward := reward;
               t_next_state := next_state; t_done := done |}) in *.
  destruct (push_len (DQNAgent.memory a) x ltac:(lia)) as [Hlen Hcap'].
  apply bind_ok_M in Htrain as (a1 & w5 & Hagent & Htrain).
  unfold agent in Hagent.
  cbn [self agents set_agents set_env] in Hagent.
  rewrite list_lookup_insert_eq in Hagent by (apply lookup_lt_Some in Ha; exact Ha).
  injection Hagent as <- <-.
  cbn [DQNAgent.memory DQNAgent.set_memory] in Htrain.
  destruct (Nat.ltb_spec 1000 (ReplayBuffer.len (ReplayBuffer.push (DQNAgent.memory a) x)))
    as [Hfull|_]; [lia|].
  unfold mret, M_ret in Htrain. injection Htrain as <-.
  exists (DQNAgent.set_memory (ReplayBuffer.push (DQNAgent.memory a) x) a).
  cbn [self agents set_agents set_env tf_random episode_lengths].
  split; [reflexivity|]. split; [|split; reflexivity].
  unfold pushed. cbn [DQNAgent.memory DQNAgent.set_memory].
  split; [reflexivity|]. split; [exact Hcap'|]. lia.
Qed.

Lemma step_agents_exploring (states : gmap nat (list Q)) (actions : gmap nat Z)
  (room : nat) :
  forall (ids : list nat) (l l' : Locals) (w w' : World),
  NoDup ids ->
  (forall i, i ∈ ids ->
     exists a, agents (self w) !! i = Some a /\ exploring (S room) a) ->
  step_agents ids states actions true l w = (Ok l', w') ->
  tf_random w' = tf_random w /\
  episode_lengths (self w') = episode_lengths (self w) /\
  length (agents (self w')) = length (agents (self w)) /\
  (forall j, j ∉ ids -> agents (self w') !! j = agents (self w) !! j) /\
  (forall j a, j ∈ ids -> agents (self w) !! j = Some a ->
     exists a', agents (self w') !! j = Some a' /\ pushed 1 a a').
Proof.
  induction ids as [|i ids IH]; intros l l' w w' Hnd Hids Hrun.
  - cbn in Hrun. injection Hrun as _ <-.
    repeat split; auto. intros j a Hj. inversion Hj.
  - apply NoDup_cons in Hnd as [Hni Hnd].
    cbn [step_agents] in Hrun.
    apply bind_ok_M in Hrun as (l1 & w1 & Hstep & Hrun).
    destruct (Hids i ltac:(left)) as (a & Ha & Hexp).
    destruct (step_agent_exploring states actions i l l1 w w1 a room Ha Hexp Hstep)
      as (a1 & Hagents1 & Hpushed1 & Htf1 & Hel1).
    destruct (IH l1 l' w1 w' Hnd) as (Htf & Hel & Hlen & Hout & Hin); [|exact Hrun|].
    { intros j Hj. destruct (Hids j ltac:(now right)) as (b & Hb & Hbexp).
      exists b. split; [|exact Hbexp].
      rewrite Hagents1, list_lookup_insert_ne; [exact Hb|].
      intros ->. contradiction. }
    split; [congruence|]. split; [congruence|].
    split; [rewrite Hlen, Hagents1; apply length_insert|].
    split.
    + intros j Hj. apply not_elem_of_cons in Hj as [Hne Hj].
      rewrite (Hout j Hj), Hagents1. now apply list_lookup_insert_ne.
    + intros j b Hj Hb. apply elem_of_cons in Hj as [->|Hj].
      * assert (b = a) as -> by congruence.
        exists a1. split; [|exact Hpushed1].
        rewrite (Hout i Hni), Hagents1.
        apply list_lookup_insert_eq. apply lookup_lt_Some in Ha. exact Ha.
      * apply (Hin j b Hj). rewrite Hagents1, list_lookup_insert_ne; [exact Hb|].
        intros ->. contradiction.
Qed.

Lemma Forall2_pushed_refl l : Forall2 (pushed 0) l l.
Proof. induction l; constructor; auto using pushed_refl. Qed.

Lemma Forall2_pushed_trans j k l1 l2 l3 :
  Forall2 (pushed j) l1 l2 -> Forall2 (pushed k) l2 l3 ->
  Forall2 (pushed (j + k)) l1 l3.
Proof.
  intros H12. revert l3. induction H12; intros l3 H23; inversion H23; subst;
    constructor; eauto using pushed_trans.
Qed.

(** The loop of an episode in training mode, on agents that explore and
    have room in their memories: the loop stores one transition per
    iteration in every memory, and that is all it does to the agents. *)
Lemma episode_loop_exploring (n : nat) :
  forall (remaining : nat) (states d d' : gmap nat (list Q)) (done : bool)
    (step L : nat) (w w' : World),
  length (agents (self w)) = n ->
  Forall (exploring remaining) (agents (self w)) ->
  episode_loop remaining (seq 0 n) true states d done step w = (Ok (d', L), w') ->
  exists k, L = (step + k)%nat /\
    Forall2 (pushed k) (agents (self w)) (agents (self w')) /\
    tf_random w' = tf_random w /\
    episode_lengths (self w') = episode_lengths (self w).
Proof.
  induction remaining as [|remaining IH];
    intros states d d' done step L w w' Hlen Hexp Hrun.
  - cbn in Hrun. injection Hrun as _ <- <-.
    exists 0%nat. split; [lia|]. split; [apply Forall2_pushed_refl|auto].
  - cbn [episode_loop] in Hrun. destruct done.
    { injection Hrun as _ <- <-.
      exists 0%nat. split; [lia|]. split; [apply Forall2_pushed_refl|auto]. }
    apply bind_ok_M in Hrun as (actions & w1 & Hsel & Hrun).
    apply bind_ok_M in Hrun as (l1 & w2 & Hstep & Hrun).
    destruct (select_actions_exploring states (seq 0 n) ∅ w (Ok actions) w1)
      as [Hself1 Htf1]; [|exact Hsel|].
    { eapply Forall_impl; [exact Hexp|]. intros a (He & _). exact He. }
    assert (Hpre : forall i, i ∈ seq 0 n ->
              exists a, agents (self w1) !! i = Some a /\ exploring (S remaining) a).
    { intros i Hi. apply elem_of_seq in Hi. rewrite Hself1.
      destruct (lookup_lt_is_Some_2 (agents (self w)) i ltac:(lia)) as [a Ha].
      exists a. split; [exact Ha|].
      exact (proj1 (Forall_lookup _ _) Hexp i a Ha). }
    destruct (step_agents_exploring states actions remaining (seq 0 n) _ _ _ _
                (NoDup_seq 0 n) Hpre Hstep) as (Htf2 & Hel2 & Hlen2 & _ & Hin2).
    rewrite Hself1 in Hlen2, Hin2, Hel2.
    assert (Hpushed : Forall2 (pushed 1) (agents (self w)) (agents (self w2))).
    { apply Forall2_same_length_lookup_2; [congruence|].
      intros i a a2 Ha Ha2.
      destruct (Hin2 i a) as (a' & Ha' & Hp); [|exact Ha|congruence].
      apply elem_of_seq. apply lookup_lt_Some in Ha. lia. }
    assert (Hexp2 : Forall (exploring remaining) (agents (self w2))).
    { apply Forall_lookup. intros i a2 Ha2.
      destruct (Forall2_lookup_r _ _ _ _ _ Hpushed Ha2) as (a & Ha & Hp).
      apply (exploring_pushed remaining 1 a a2); [|exact Hp].
      replace (remaining + 1)%nat with (S remaining) by lia.
      exact (proj1 (Forall_lookup _ _) Hexp i a Ha). }
    destruct (IH _ _ _ _ _ _ w2 w' ltac:(congruence) Hexp2 Hrun)
      as (k & HL & Hk & Htf & Hel).
    exists (1 + k)%nat. split; [lia|].
    split; [eapply Forall2_pushed_trans; eassumption|]. split; congruence.
Qed.

Lemma record_totals_frame (local : gmap nat (list Q)) :
  forall (ids : list nat) (w : World) r w',
  record_totals ids local w = (r, w') ->
  agents (self w') = agents (self w) /\ tf_random w' = tf_random w /\
  episode_lengths (self w') = episode_lengths (self w).
Proof.
  induction ids as [|i ids IH]; intros w r w' Hrun.
  - cbn in Hrun. injection Hrun as _ <-. auto.
  - cbn [record_totals] in Hrun.
    unfold mbind at 1, M_bind at 1, lift at 1 in Hrun.
    destruct (dict_item local i) as [rs|e]; [|injection Hrun as _ <-; auto].
    unfold mbind at 1, M_bind at 1, get at 1 in Hrun.
    unfold mbind at 1, M_bind at 1, lift at 1 in Hrun.
    destruct (dict_item (episode_rewards (self w)) i) as [totals|e];
      [|injection Hrun as _ <-; auto].
    unfold mbind at 1, M_bind at 1, modify at 1 in Hrun.
    apply IH in Hrun. cbn in Hrun. exact Hrun.
Qed.

(** A training episode of a manager whose agents explore and have room
    for a thousand transitions. *)
Lemma run_episode_exploring (w w' : World) rewards :
  length (agents (self w)) = num_agents (self w) ->
  Forall (exploring 1000) (agents (self w)) ->
  run_episode true w = (Ok rewards, w') ->
  exists k,
    episode_lengths (self w') = episode_lengths (self w) ++ [k] /\
    Forall2 (pushed k) (agents (self w)) (agents (self w')) /\
    tf_random w' = tf_random w.
Proof.
  intros Hlen Hexp Hrun. unfold run_episode in Hrun.
  apply bind_ok_M in Hrun as (m & w0 & Hget & Hrun).
  unfold get in Hget. injection Hget as <- <-.
  apply bind_ok_M in Hrun as (initial_state & w1 & Hreset & Hrun).
  unfold on_env in Hreset. destruct (GameEnvironment.reset _) as [res e'].
  injection Hreset as _ <-.
  apply bind_ok_M in Hrun as ([d' L] & w2 & Hloop & Hrun).
  apply bind_ok_M in Hrun as ([] & w3 & Hrec & Hrun).
  unfold mbind, M_bind, modify, mret, M_ret in Hrun. injection Hrun as _ <-.
  apply episode_loop_exploring in Hloop as (k & HL & Hk & Htf & Hel);
    [|exact Hlen|exact Hexp].
  apply record_totals_frame in Hrec as (Ha3 & Htf3 & Hl3).
  cbn [self agents set_env tf_random episode_lengths] in *.
  exists L. cbn [self episode_lengths set_episode_lengths agents tf_random].
  rewrite Hl3, Ha3, Hel. split; [reflexivity|]. split; [|congruence].
  replace L with k by lia. exact Hk.
Qed.

Lemma new_agent_exploring (state_dim : nat) : exploring 1000 (new_agent state_dim).
Proof.
  unfold exploring, new_agent.
  cbn [DQNAgent.epsilon DQNAgent.memory DQNAgent.count_sync DQNAgent.fresh
       ReplayBuffer.init ReplayBuffer.len ReplayBuffer.buffer
       ReplayBuffer.capacity length].
  split; [discriminate|]. split; [lia|].
  apply Nat.leb_le. vm_compute. reflexivity.
Qed.

(** X25: the first training episode of a manager that the constructor
    returned only explores.  The episode returns; no network is called,
    so that TensorFlow's random state is left alone and the networks of
    every agent still have no variables; no training step runs, so that
    the exploration rate is still 1, the step counter still 0 and the loss
    history still empty; and the memory of every agent holds one
    transition per iteration. *)
Theorem X25_first_episode_only_explores
  (makedirs : string -> result unit) (n : nat) (dir : string)
  (py tf : Random.state) (fs : gmap string File) (w0 : World) :
  lawful K ->
  init makedirs n dir py tf fs = Ok w0 ->
  exists rewards w',
    run_episode true w0 = (Ok rewards, w') /\
    tf_random w' = tf /\
    length (agents (self w')) = n /\
    Forall (fun a =>
              DQNNetwork.get_weights (DQNAgent.q_network a) = [] /\
              DQNNetwork.get_weights (DQNAgent.target_network a) = [] /\
              DQNAgent.epsilon a = 1 /\
              DQNAgent.step_count a = 0%Z /\
              DQNAgent.loss_history a = [] /\
              ReplayBuffer.len (DQNAgent.memory a) = episode_length n)
           (agents (self w')).
Proof.
  intros Hlaw Hinit.
  assert (Hmk : makedirs dir = Ok tt).
  { unfold init in Hinit. destruct (makedirs dir) as [[]|e];
      [reflexivity | discriminate Hinit]. }
  rewrite (init_spec makedirs n dir py tf fs Hmk) in Hinit.
  injection Hinit as <-.
  match goal with |- context [run_episode true ?w] => set (w0 := w) end.
  destruct (run_episode_spec true w0 Hlaw (init_manager_ok n dir))
    as (rewards & w' & Hrun & _ & _ & Hlen & _).
  destruct (run_episode_exploring w0 w' rewards) as (k & Hk & Hpushed & Htf);
    [apply length_replicate | apply Forall_replicate, new_agent_exploring
     | exact Hrun |].
  rewrite Hlen in Hk. apply app_inj_tail in Hk as [_ <-].
  cbn [w0 self agents num_agents tf_random] in Hpushed, Htf.
  exists rewards, w'.
  split; [exact Hrun|]. split; [exact Htf|].
  split.
  { apply Forall2_length in Hpushed. rewrite length_replicate in Hpushed. lia. }
  apply Forall_lookup. intros i a' Ha'.
  destruct (Forall2_lookup_r _ _ _ _ _ Hpushed Ha') as (a & Ha & Hself & _ & Hl).
  apply lookup_replicate in Ha as [-> _].
  rewrite Hl, Hself. cbn. repeat split.
Qed.

End QuietEpisode.

(** ** The width of the network inputs *)

Section NetworkExtras.

Context `{K : Kernels}.

Lemma init_first_layer (sd ad : nat) (hd : list nat) :
  exists units relu rest,
    DQNNetwork.layers_list (DQNNetwork.init sd ad hd)
    = DQNNetwork.Dense units relu None :: rest.
Proof.
  unfold DQNNetwork.init. cbn [DQNNetwork.layers_list].
  destruct hd as [|h hd]; cbn; eauto.
Qed.

(** X26: the first call of a new network fixes the width of its inputs.
    Whatever [state_dim] the network was constructed with, its first
    call on a state of any width returns one row of [action_dim] values
    and creates the variables for that width; from then on a state of
    that width is accepted, in inference mode without any change to the
    network or to the random state, and a state of another width is
    rejected. *)
Theorem X26_first_call_fixes_the_input_width
  (sd ad : nat) (hd : list nat) (x : list Q) (training : bool)
  (tf : Random.state) :
  exists y net' tf',
    DQNNetwork.call (DQNNetwork.init sd ad hd) [x] training tf
    = Ok ([y], net', tf') /\
    length y = ad /\ DQNNetwork.built net' /\
    (forall x' tf2, length x' = length x ->
       exists y', DQNNetwork.call net' [x'] false tf2 = Ok ([y'], net', tf2) /\
                  length y' = ad) /\
    (forall x' training' tf2, length x' <> length x ->
       ~ is_ok (DQNNetwork.call net' [x'] training' tf2)).
Proof.
  destruct (call_ok (DQNNetwork.init sd ad hd) (length x) [x] training tf
              (init_network_fits _ _ _ _))
    as (ys & net' & tf' & Hcall & Hlen & Hw & Hfit & Hb & Ha & _);
    [discriminate | repeat constructor |].
  destruct (single_row ys Hlen) as [y ->].
  apply Forall_inv in Hw. rewrite output_width_init in Hw.
  exists y, net', tf'. split; [exact Hcall|]. split; [exact Hw|].
  split; [exact Hb|]. split.
  - intros x' tf2 Hx'.
    destruct (call_ok net' (length x) [x'] false tf2 Hfit)
      as (ys' & net2 & tf2' & Hcall' & Hlen' & Hw' & _);
      [discriminate | repeat constructor; exact Hx' |].
    destruct (call_built _ _ _ _ _ _ Hb Hcall') as [-> ->].
    destruct (single_row ys' Hlen') as [y' ->].
    exists y'. split; [exact Hcall'|].
    apply Forall_inv in Hw'.
    unfold DQNNetwork.architecture in Ha.
    now rewrite (output_width_erase _ _ _ Ha), output_width_init in Hw'.
  - intros x' training' tf2 Hx'.
    destruct (init_first_layer sd ad hd) as (units & relu & rest & Hinit).
    unfold DQNNetwork.architecture in Ha. rewrite Hinit in Ha.
    destruct net' as [layers']. cbn [DQNNetwork.layers_list] in *.
    destruct layers' as [|[u r [[kernel bias]|]|rate] layers'];
      try discriminate Ha.
    + destruct Hfit as ((Hk & _) & _).
      unfold DQNNetwork.call. cbn [DQNNetwork.layers_list DQNNetwork.call_layers
        DQNNetwork.dense_vars mapM].
      unfold DQNNetwork.dense_row at 1.
      destruct (Nat.eqb_spec (length x') (length kernel)) as [E|_]; [congruence|].
      cbn. auto.
    + inversion Hb as [|? ? Hbl _]. destruct Hbl.
Qed.

End NetworkExtras.

(** ** Episodes of warm agents *)

Section WarmEpisode.

Import TrainingManager.

Context `{K : Kernels}.

(** X27 - [TrainingManager.run_episode], training: once the memories are
    warm (each agent holds at least 1000 transitions in a memory of capacity
    above 1000), the test [len(agent.memory) > 1000] holds after every
    [store_experience], so every iteration of the episode is a training step
    of every agent.  The episode returns, and each agent ends it with
    [episode_length n] more counted steps and as many more recorded losses,
    its memory still warm. *)
Theorem X27_warm_agents_train_at_every_iteration (w : World) :
  lawful K -> manager_ok (self w) -> Forall warm (agents (self w)) ->
  exists rewards w',
    run_episode true w = (Ok rewards, w') /\
    length (agents (self w')) = num_agents (self w) /\
    forall i a, agents (self w) !! i = Some a ->
      exists a', agents (self w') !! i = Some a' /\
        DQNAgent.step_count a'
        = (DQNAgent.step_count a
           + Z.of_nat (episode_length (num_agents (self w))))%Z /\
        length (DQNAgent.loss_history a')
        = (length (DQNAgent.loss_history a)
           + episode_length (num_agents (self w)))%nat /\
        warm a'.
Proof.
  intros Hlaw Hok Hw.
  destruct (run_episode_spec true w Hlaw Hok)
    as (rewards & w' & Hrun & Hok' & Hn & _ & _ & _ & Hwarm).
  specialize (Hwarm eq_refl Hw).
  exists rewards, w'. split; [exact Hrun|]. split.
  { destruct Hok' as (Hl' & _). congruence. }
  intros i a Ha.
  destruct (Forall2_lookup_l _ _ _ _ _ Hwarm Ha) as (a' & Ha' & Hd).
  exists a'. split; [exact Ha'|exact Hd].
Qed.

End WarmEpisode.

(** ** Instances of the statements that have hypotheses *)

Section Instances.

#[local] Existing Instance example_kernels.

Lemma X6_selected_action_is_in_range_witness :
  (0 <= 0 < Z.of_nat (DQNAgent.action_dim (DQNAgent.self small_world)))%Z.
Proof.
  apply (X6_selected_action_is_in_range small_world [1; 1] false 0
           (snd (DQNAgent.select_action [1; 1] false small_world))).
  - vm_compute. repeat constructor.
  - vm_compute. reflexivity.
  - rewrite (surjective_pairing (DQNAgent.select_action [1; 1] false small_world)).
    f_equal.
Defined.

Lemma zero_period_agent :
  let a := DQNAgent.self zero_period_world in
  ReplayBuffer.buffer (DQNAgent.memory a) = [example_transition 4 1] /\
  DQNAgent.batch_size a = 1%nat /\
  DQNAgent.q_network a = DQNNetwork.init 4 5 DQNAgent.default_hidden_dims /\
  DQNAgent.target_network a = DQNNetwork.init 4 5 DQNAgent.default_hidden_dims /\
  DQNAgent.target_update_freq a = 0%Z.
Proof. vm_compute. repeat split; reflexivity. Qed.

Lemma zero_period_ready : DQNAgent.ready 4 (DQNAgent.self zero_period_world).
Proof.
  destruct zero_period_agent as (Hb & Hk & Hq & Ht & _).
  unfold DQNAgent.ready, ReplayBuffer.len. rewrite Hb, Hk, Hq, Ht. cbn.
  repeat split; try lia. constructor; [|constructor]. cbn. repeat split; lia.
Qed.

Lemma near_floor_networks :
  DQNAgent.target_update_freq (DQNAgent.self near_floor_world) = 1000%Z /\
  DQNNetwork.architecture (DQNAgent.target_network (DQNAgent.self near_floor_world))
  = DQNNetwork.architecture (DQNAgent.q_network (DQNAgent.self near_floor_world)).
Proof. vm_compute. split; reflexivity. Qed.

Lemma X8_train_step_returns_a_loss_and_stays_ready_witness :
  let w := near_floor_world in
  exists loss w',
    DQNAgent.train_step w = (Ok (Some loss), w') /\ 0 <= loss /\
    DQNAgent.loss_history (DQNAgent.self w')
    = DQNAgent.loss_history (DQNAgent.self w) ++ [loss] /\
    DQNAgent.step_count (DQNAgent.self w')
    = (DQNAgent.step_count (DQNAgent.self w) + 1)%Z /\
    DQNAgent.ready 4 (DQNAgent.self w') /\
    DQNAgent.target_update_freq (DQNAgent.self w')
    = DQNAgent.target_update_freq (DQNAgent.self w) /\
    DQNNetwork.architecture (DQNAgent.target_network (DQNAgent.self w'))
    = DQNNetwork.architecture (DQNAgent.q_network (DQNAgent.self w')).
Proof.
  apply (X8_train_step_returns_a_loss_and_stays_ready near_floor_world 4).
  - exact example_kernels_lawful.
  - exact near_floor_ready.
  - rewrite (proj1 near_floor_networks). discriminate.
  - exact (proj2 near_floor_networks).
Defined.

Lemma X9_zero_sync_period_raises_after_the_update_witness :
  let w := zero_period_world in
  exists w',
    DQNAgent.train_step w = (Raise ZeroDivisionError, w') /\
    is_ok (fst (DQNAgent.learn w)) /\
    DQNAgent.q_network (DQNAgent.self w')
    = DQNAgent.q_network (DQNAgent.self (snd (DQNAgent.learn w))) /\
    DQNAgent.epsilon (DQNAgent.self w')
    = py_max (DQNAgent.epsilon_end (DQNAgent.self w))
        (DQNAgent.epsilon (DQNAgent.self w)
         * DQNAgent.epsilon_decay (DQNAgent.self w)) /\
    DQNAgent.step_count (DQNAgent.self w')
    = (DQNAgent.step_count (DQNAgent.self w) + 1)%Z /\
    DQNAgent.loss_history (DQNAgent.self w')
    = DQNAgent.loss_history (DQNAgent.self w).
Proof.
  apply (X9_zero_sync_period_raises_after_the_update zero_period_world 4).
  - exact example_kernels_lawful.
  - exact zero_period_ready.
  - exact (proj2 (proj2 (proj2 (proj2 zero_period_agent)))).
Defined.

Lemma X10_sync_calls_follow_the_step_counter_witness :
  let w := near_floor_world in
  let w' := snd (DQNAgent.train_step w) in
  DQNAgent.target_update_freq (DQNAgent.self w')
  = DQNAgent.target_update_freq (DQNAgent.self w) /\
  (Z.of_nat (DQNAgent.sync_calls (DQNAgent.self w'))
   - Z.of_nat (DQNAgent.sync_calls (DQNAgent.self w))
   = DQNAgent.step_count (DQNAgent.self w')
       / DQNAgent.target_update_freq (DQNAgent.self w)
     - DQNAgent.step_count (DQNAgent.self w)
       / DQNAgent.target_update_freq (DQNAgent.self w))%Z.
Proof.
  apply (X10_sync_calls_follow_the_step_counter near_floor_world
           (snd (DQNAgent.train_step near_floor_world))).
  - eapply DQNAgent.trained_step;
      [apply DQNAgent.trained_refl | apply surjective_pairing].
  - rewrite (proj1 near_floor_networks). reflexivity.
Defined.

Lemma X11_sync_of_built_networks_makes_them_equal_witness :
  let w := snd (DQNAgent.probe [1; 1] small_world) in
  exists w',
    DQNAgent.update_target_network w = (Ok tt, w') /\
    DQNAgent.q_network (DQNAgent.self w') = DQNAgent.q_network (DQNAgent.self w) /\
    DQNAgent.target_network (DQNAgent.self w')
    = DQNAgent.q_network (DQNAgent.self w) /\
    forall state, length state = 2%nat ->
      exists values, DQNAgent.probe state w' = (Ok (values, values), w').
Proof.
  apply (X11_sync_of_built_networks_makes_them_equal
           (snd (DQNAgent.probe [1; 1] small_world)) 2).
  - vm_compute. repeat constructor.
  - vm_compute. repeat constructor.
  - vm_compute. repeat constructor.
  - vm_compute. repeat constructor.
  - vm_compute. reflexivity.
Defined.

Lemma X14_checkpoint_restores_the_networks_witness :
  let w := snd (DQNAgent.probe [1; 1] small_world) in
  let loader := DQNAgent.self (snd (DQNAgent.probe [0; 1] other_small_world)) in
  let saved := snd (DQNAgent.save "agent_0" w) in
  let loaded :=
    DQNAgent.load "agent_0"
      {| DQNAgent.self := loader;
         DQNAgent.py_random := DQNAgent.py_random saved;
         DQNAgent.tf_random := DQNAgent.tf_random saved;
         DQNAgent.files := DQNAgent.files saved |} in
  fst loaded = Ok tt /\
  DQNAgent.q_network (DQNAgent.self (snd loaded))
  = DQNAgent.q_network (DQNAgent.self w) /\
  DQNAgent.target_network (DQNAgent.self (snd loaded))
  = DQNAgent.target_network (DQNAgent.self w).
Proof.
  apply (X14_checkpoint_restores_the_networks
           (snd (DQNAgent.probe [1; 1] small_world)) "agent_0"
           (DQNAgent.self (snd (DQNAgent.probe [0; 1] other_small_world))) 2).
  1-4: vm_compute; repeat constructor.
  1-2: vm_compute; reflexivity.
  all: vm_compute; repeat constructor.
Defined.

Lemma X16_bridged_reward_ignores_calls_for_other_agents_witness :
  fst (BridgedGameEnvironment.calculate_reward
         (BridgedGameEnvironment.calls BridgedGameEnvironment.init
            [(mock_state, 1%Z); (empty_state, 2%Z)]) mock_state 0)
  = fst (BridgedGameEnvironment.calculate_reward
           BridgedGameEnvironment.init mock_state 0).
Proof.
  apply (X16_bridged_reward_ignores_calls_for_other_agents
           BridgedGameEnvironment.init
           [(mock_state, 1%Z); (empty_state, 2%Z)] mock_state 0).
  repeat constructor; cbn; lia.
Defined.

Lemma X17_the_two_reward_implementations_agree_witness :
  let g := snd (GameEnvironment.calculate_reward
                  (GameEnvironment.init 3000) empty_state 0) in
  let b := snd (BridgedGameEnvironment.calculate_reward
                  BridgedGameEnvironment.init empty_state 0) in
  fst (GameEnvironment.calculate_reward g mock_state 0)
  = fst (BridgedGameEnvironment.calculate_reward b mock_state 0).
Proof.
  apply (X17_the_two_reward_implementations_agree _ _ mock_state 0 (0, 1, 0)).
  - reflexivity.
  - vm_compute. reflexivity.
Defined.

Lemma X20_step_counts_before_it_rejects_an_action_witness :
  GameEnvironment.step (GameEnvironment.init 3000) 7 0
  = (Raise KeyError,
     {| GameEnvironment.max_episode_steps := 3000;
        GameEnvironment.current_step := 0 + 1;
        GameEnvironment.processor := GameStateProcessor.init 50 15;
        GameEnvironment.previous_owned_points := 0;
        GameEnvironment.previous_position := None |}).
Proof.
  apply (X20_step_counts_before_it_rejects_an_action
           (GameEnvironment.init 3000) 7 0).
  lia.
Defined.


Lemma example_manager_ok : manager_ok (TrainingManager.self example_manager).
Proof. apply (init_manager_ok 3 "dqn_models"). Qed.

Lemma X23_run_episode_returns_witness :
  let w := example_manager in
  exists rewards w',
    TrainingManager.run_episode true w = (Ok rewards, w') /\
    manager_ok (TrainingManager.self w') /\
    TrainingManager.num_agents (TrainingManager.self w')
    = TrainingManager.num_agents (TrainingManager.self w) /\
    TrainingManager.episode_lengths (TrainingManager.self w')
    = TrainingManager.episode_lengths (TrainingManager.self w)
        ++ [episode_length (TrainingManager.num_agents (TrainingManager.self w))] /\
    ((TrainingManager.num_agents (TrainingManager.self w) <= 3)%nat ->
     episode_length (TrainingManager.num_agents (TrainingManager.self w))
     = 1000%nat) /\
    (forall i, (i < TrainingManager.num_agents (TrainingManager.self w))%nat ->
       exists rs totals,
         rewards !! i = Some rs /\
         length rs
         = episode_length (TrainingManager.num_agents (TrainingManager.self w)) /\
         Forall (fun r => - (5) <= r <= 5) rs /\
         TrainingManager.episode_rewards (TrainingManager.self w) !! i
         = Some totals /\
         TrainingManager.episode_rewards (TrainingManager.self w') !! i
         = Some (totals ++ [py_sum rs])).
Proof.
  apply (X23_run_episode_returns true example_manager).
  - exact example_kernels_lawful.
  - exact example_manager_ok.
Defined.

Lemma X24_evaluate_does_not_train_witness :
  let w := example_manager in
  exists w',
    TrainingManager.evaluate 2 w = (Ok tt, w') /\
    manager_ok (TrainingManager.self w') /\
    TrainingManager.episode_lengths (TrainingManager.self w')
    = TrainingManager.episode_lengths (TrainingManager.self w)
        ++ replicate 2
             (episode_length (TrainingManager.num_agents (TrainingManager.self w))) /\
    Forall2 (fun a a' =>
               DQNAgent.memory a' = DQNAgent.memory a /\
               DQNAgent.epsilon a' = DQNAgent.epsilon a /\
               DQNAgent.step_count a' = DQNAgent.step_count a /\
               DQNAgent.loss_history a' = DQNAgent.loss_history a /\
               DQNAgent.target_network a' = DQNAgent.target_network a)
            (TrainingManager.agents (TrainingManager.self w))
            (TrainingManager.agents (TrainingManager.self w')) /\
    TrainingManager.py_random w' = TrainingManager.py_random w.
Proof.
  apply (X24_evaluate_does_not_train 2 example_manager).
  - exact example_kernels_lawful.
  - exact example_manager_ok.
Defined.

Lemma X25_first_episode_only_explores_witness :
  exists rewards w',
    TrainingManager.run_episode true example_manager = (Ok rewards, w') /\
    TrainingManager.tf_random w' = example_tf /\
    length (TrainingManager.agents (TrainingManager.self w')) = 3%nat /\
    Forall (fun a =>
              DQNNetwork.get_weights (DQNAgent.q_network a) = [] /\
              DQNNetwork.get_weights (DQNAgent.target_network a) = [] /\
              DQNAgent.epsilon a = 1 /\
              DQNAgent.step_count a = 0%Z /\
              DQNAgent.loss_history a = [] /\
              ReplayBuffer.len (DQNAgent.memory a) = episode_length 3)
           (TrainingManager.agents (TrainingManager.self w')).
Proof.
  apply (X25_first_episode_only_explores (fun _ => Ok tt) 3 "dqn_models"
           example_random example_tf ∅ example_manager).
  - exact example_kernels_lawful.
  - apply (init_spec (fun _ => Ok tt)). reflexivity.
Defined.

Lemma warm_manager_ok : manager_ok (TrainingManager.self warm_manager).
Proof.
  destruct example_manager_ok as (_ & _ & Hkeys & Hp & Hmax).
  split; [reflexivity|]. split; [|split; [exact Hkeys|split; assumption]].
  apply Forall_replicate.
  destruct (new_agent_ok 581 583) as (H1 & H2 & H3 & H4 & H5 & H6 & H7 & _).
  repeat (split; [assumption|]).
  apply Forall_replicate. cbn [example_transition t_state t_next_state t_action].
  rewrite length_replicate. split; [reflexivity|]. split; [reflexivity|].
  change (0 <= 0 < Z.of_nat (DQNAgent.action_dim (new_agent 581)))%Z.
  rewrite H1. lia.
Qed.

Lemma warm_manager_warm :
  Forall warm (TrainingManager.agents (TrainingManager.self warm_manager)).
Proof.
  apply Forall_replicate. unfold warm, ReplayBuffer.len.
  cbn [DQNAgent.memory DQNAgent.set_memory ReplayBuffer.buffer
       ReplayBuffer.capacity].
  rewrite length_replicate. split; [lia|].
  apply Nat.leb_le. vm_compute. reflexivity.
Qed.

Lemma X27_warm_agents_train_at_every_iteration_witness :
  let w := warm_manager in
  exists rewards w',
    TrainingManager.run_episode true w = (Ok rewards, w') /\
    length (TrainingManager.agents (TrainingManager.self w'))
    = TrainingManager.num_agents (TrainingManager.self w) /\
    forall i a,
      TrainingManager.agents (TrainingManager.self w) !! i = Some a ->
      exists a',
        TrainingManager.agents (TrainingManager.self w') !! i = Some a' /\
        DQNAgent.step_count a'
        = (DQNAgent.step_count a
           + Z.of_nat (episode_length
                         (TrainingManager.num_agents (TrainingManager.self w))))%Z /\
        length (DQNAgent.loss_history a')
        = (length (DQNAgent.loss_history a)
           + episode_length
               (TrainingManager.num_agents (TrainingManager.self w)))%nat /\
        warm a'.
Proof.
  apply (X27_warm_agents_train_at_every_iteration warm_manager).
  - exact example_kernels_lawful.
  - exact warm_manager_ok.
  - exact warm_manager_warm.
Defined.

End Instances.
